(** * SDKComparison: the matching, filtering and ranking logic of the
      TypeScript / Python SDK comparison component.

    The development embeds [src/components/SDKComparison.tsx] (the enhanced
    variant) and the simple variant of the same component.  Identifiers are
    modelled as byte strings; [toUpperCase] and [toLowerCase] act on the
    ASCII letters, which is what the regular expressions of the component
    range over.  Line numbers are integers ([Z]); an optional field is an
    [option]. *)

From Stdlib Require Import ZArith QArith Lia Bool.
From Stdlib Require Import Strings.String Strings.Ascii.
From Stdlib Require Import Lists.List Sorting.Permutation Sorting.Sorted.
From stdpp Require Import gmap strings list fin_maps.

Local Open Scope string_scope.
Local Open Scope Z_scope.

(* ===================================================================== *)
(** ** Characters and strings *)
(* ===================================================================== *)

Module Str.

Definition underscore : ascii := "_"%char.

(** The character class [[a-z]]. *)
Definition isLowerAZ (c : ascii) : bool :=
  ((97 <=? nat_of_ascii c) && (nat_of_ascii c <=? 122))%nat.

(** The character class [[A-Z]]. *)
Definition isUpperAZ (c : ascii) : bool :=
  ((65 <=? nat_of_ascii c) && (nat_of_ascii c <=? 90))%nat.

Definition toUpperChar (c : ascii) : ascii :=
  if isLowerAZ c then ascii_of_nat (nat_of_ascii c - 32) else c.

Definition toLowerChar (c : ascii) : ascii :=
  if isUpperAZ c then ascii_of_nat (nat_of_ascii c + 32) else c.

Fixpoint smap (f : ascii -> ascii) (s : string) : string :=
  match s with
  | EmptyString => EmptyString
  | String c r => String (f c) (smap f r)
  end.

(** [String.prototype.toLowerCase] / [toUpperCase] on a text of ASCII
    characters: the letters A to Z, respectively a to z, are changed and
    every other character is kept.  A cased letter outside ASCII, which the
    built-in functions change as well, is kept here; the statements that
    depend on the case of such letters carry the hypothesis [isAscii]. *)
Definition toLowerCase (s : string) : string := smap toLowerChar s.
Definition toUpperCase (s : string) : string := smap toUpperChar s.

(** [s.replace(/_/g, "")]. *)
Fixpoint stripUnderscores (s : string) : string :=
  match s with
  | EmptyString => EmptyString
  | String c r =>
      if Ascii.eqb c underscore then stripUnderscores r
      else String c (stripUnderscores r)
  end.

(** [pre] is a prefix of [s]. *)
Fixpoint startsWith (pre s : string) : bool :=
  match pre, s with
  | EmptyString, _ => true
  | String a p, String b r => Ascii.eqb a b && startsWith p r
  | String _ _, EmptyString => false
  end.

(** [String.prototype.includes]. *)
Fixpoint includes (s needle : string) : bool :=
  startsWith needle s ||
  match s with
  | EmptyString => false
  | String _ r => includes r needle
  end.

(** [Array.prototype.join]. *)
Fixpoint join (sep : string) (l : list string) : string :=
  match l with
  | [] => EmptyString
  | [x] => x
  | x :: r => x ++ sep ++ join sep r
  end.

(** The comparison of the default [Array.prototype.sort()]: by code unit. *)
Definition codeUnitCompare (a b : string) : Z :=
  match String.compare a b with
  | Lt => -1
  | Eq => 0
  | Gt => 1
  end.

Definition chars (s : string) : list ascii := list_ascii_of_string s.

End Str.

(* ===================================================================== *)
(** ** 4.1 Identifier Normalizer *)
(* ===================================================================== *)

(** [str.replace(/_([a-z])/g, (_, letter) => letter.toUpperCase())]: the
    scan goes left to right; where an underscore is followed by a letter of
    [[a-z]] the two characters are replaced by the upper-cased letter and the
    scan resumes after them; every other character is copied. *)
Fixpoint toCamelCase (str : string) : string :=
  match str with
  | EmptyString => EmptyString
  | String c r =>
      match r with
      | String letter r' =>
          if Ascii.eqb c Str.underscore && Str.isLowerAZ letter
          then String (Str.toUpperChar letter) (toCamelCase r')
          else String c (toCamelCase r)
      | EmptyString => String c EmptyString
      end
  end.

(** The normalizer as the specification words it: every underscore is
    deleted and the character immediately after an underscore is
    upper-cased. *)
Fixpoint specCamelFrom (afterUnderscore : bool) (s : string) : string :=
  match s with
  | EmptyString => EmptyString
  | String c r =>
      if Ascii.eqb c Str.underscore then specCamelFrom true r
      else String (if afterUnderscore then Str.toUpperChar c else c)
                  (specCamelFrom false r)
  end.

Definition specCamelCase (s : string) : string := specCamelFrom false s.

(** Position [i] of [l] starts a match of [/_([a-z])/]. *)
Definition matchAt (l : list ascii) (i : nat) : bool :=
  match l !! i, l !! S i with
  | Some c, Some d => Ascii.eqb c Str.underscore && Str.isLowerAZ d
  | _, _ => false
  end.

(** What position [i] of the input contributes to the output: nothing when
    it is the underscore of a match, the upper-cased letter when it is the
    letter of a match, and the character itself otherwise. *)
Definition camelAt (l : list ascii) (i : nat) : list ascii :=
  match l !! i with
  | None => []
  | Some c =>
      if matchAt l i then []
      else match i with
           | O => [c]
           | S j => if matchAt l j then [Str.toUpperChar c] else [c]
           end
  end.

(** No position of [s] starts a match of [/_([a-z])/]. *)
Fixpoint noMatch (s : string) : bool :=
  match s with
  | EmptyString => true
  | String c r =>
      match r with
      | String d _ => negb (Ascii.eqb c Str.underscore && Str.isLowerAZ d) && noMatch r
      | EmptyString => true
      end
  end.

Definition hasUnderscore (s : string) : bool :=
  existsb (fun c => Ascii.eqb c Str.underscore) (Str.chars s).

(* ===================================================================== *)
(** ** Platform functions *)
(* ===================================================================== *)

(** Two functions of the host platform are taken as they come:
    [String.prototype.localeCompare] (the collation is the host's) and
    [atob] (base64 decoding; [None] when it throws). *)
Class Platform := {
  localeCompare : string -> string -> Z;
  atob : string -> option string
}.

(** [Array.prototype.sort(comparefn)].  The sort is stable, and for a
    consistent comparator the result is the stable sorted arrangement, which
    is what this insertion sort computes: an element moves behind exactly
    the later elements that compare strictly smaller. *)
Fixpoint insertBy {A : Type} (cmp : A -> A -> Z) (x : A) (l : list A) : list A :=
  match l with
  | [] => [x]
  | y :: r => if cmp x y <=? 0 then x :: y :: r else y :: insertBy cmp x r
  end.

Definition sortBy {A : Type} (cmp : A -> A -> Z) (l : list A) : list A :=
  foldr (insertBy cmp) [] l.

(** [Array.prototype.slice(start, end)], negative indices counting from the
    end of the array. *)
Definition sliceIndex (len i : Z) : Z :=
  if i <? 0 then Z.max (len + i) 0 else Z.min i len.

Definition jsSlice {A : Type} (l : list A) (start stop : Z) : list A :=
  let len := Z.of_nat (length l) in
  let k := sliceIndex len start in
  let final := sliceIndex len stop in
  firstn (Z.to_nat (final - k)) (skipn (Z.to_nat k) l).

(** The last element of [l] that satisfies [p]: what a [Map] built by
    successive [set] calls holds under a key. *)
Definition lastWith {A : Type} (p : A -> bool) (l : list A) : option A :=
  List.find p (rev l).

(* ===================================================================== *)
(** ** 3. Data model *)
(* ===================================================================== *)

(** [interface Method]; the fields [name], [kind] and [line] carry the
    prefix [method] because [Class] has fields of the same names. *)
Record Method : Type := mkMethod {
  methodName : string;
  methodKind : string;
  parameters : option (list (string * string));
  returns : option string;
  isAsync : option bool;
  decorators : option (list string);
  methodLine : option Z;
  startLine : option Z;
  endLine : option Z
}.

(** [interface Class].  The record is parametric in what the [methods]
    field holds: the array's contents ([Class], which the functions that only
    read the data use) or a reference to the array in the heap ([ClassObj],
    for the code that sorts arrays in place). *)
Record ClassOf (M : Type) : Type := mkClass {
  className : string;
  file : string;
  methods : M;
  abstract : option bool;
  extends : option string;
  implements : option (list string);
  classLine : option Z;
  classStartLine : option Z;
  classEndLine : option Z
}.

Arguments mkClass {M}.
Arguments className {M}.
Arguments file {M}.
Arguments methods {M}.
Arguments abstract {M}.
Arguments extends {M}.
Arguments implements {M}.
Arguments classLine {M}.
Arguments classStartLine {M}.
Arguments classEndLine {M}.

Abbreviation Class := (ClassOf (list Method)).

(** [interface SDKData]. *)
Record SDKData : Type := mkSDKData { classes : list Class }.

(** The cached snippet; the simple variant has the first four fields only. *)
Record Snippet : Type := mkSnippet {
  content : string;
  snippetFile : string;
  snippetLine : Z;
  language : string;
  fullContent : option string;
  snippetStartLine : option Z;
  snippetEndLine : option Z
}.

(** The component state (the [useState] cells the modelled functions read
    or write). *)
Record State : Type := mkState {
  showCommon : bool;
  showTsOnly : bool;
  showPythonOnly : bool;
  searchTerm : string;
  hideEmptyClasses : bool;
  codeSnippets : gmap string Snippet;
  loadingSnippets : gset string;
  hideCommonMethods : gset string;
  sortByLength : gset string;
  consoleErrors : list string
}.

(** A plain method and class, for examples. *)
Definition method (n : string) (s e : Z) : Method :=
  mkMethod n "method" None None None None None (Some s) (Some e).

Definition class (n : string) (ms : list Method) : Class :=
  mkClass n (n ++ ".src") ms None None None None None None.

(** [x || d] on an optional number: [undefined] and [0] are falsy. *)
Definition orElse (x : option Z) (d : Z) : Z :=
  match x with
  | Some n => if n =? 0 then d else n
  | None => d
  end.

(** [(m.endLine || m.line || 1) - (m.startLine || m.line || 1) + 1], the
    expression every length computation of the component repeats. *)
Definition methodLength (m : Method) : Z :=
  orElse (endLine m) (orElse (methodLine m) 1)
  - orElse (startLine m) (orElse (methodLine m) 1) + 1.

(** The line-length of the specification (section 4.4):
    [(endLine ?? line ?? 1) - (startLine ?? line ?? 1) + 1]. *)
Definition specLength (m : Method) : Z :=
  default (default 1 (methodLine m)) (endLine m)
  - default (default 1 (methodLine m)) (startLine m) + 1.

(** The line numbers of the data model are 1-based: a field that is present
    is not zero. *)
Definition lineOk (x : option Z) : Prop :=
  match x with Some n => n <> 0 | None => True end.

Definition methodLinesOk (m : Method) : Prop :=
  lineOk (methodLine m) /\ lineOk (startLine m) /\ lineOk (endLine m).

Definition dataLinesOk (d : SDKData) : Prop :=
  forall c m, In c (classes d) -> In m (methods c) -> methodLinesOk m.

Definition isConstructor (m : Method) : bool :=
  String.eqb (methodName m) "constructor".

Definition nonConstructors (ms : list Method) : list Method :=
  List.filter (fun m => negb (isConstructor m)) ms.

(* ===================================================================== *)
(** ** 4.3 Class/Method Indexer *)
(* ===================================================================== *)

(** [new Map(data.classes.map((cls) => [cls.name, cls]))]: a later class
    replaces an earlier one of the same name. *)
Definition classesMap (d : SDKData) : gmap string Class :=
  foldl (fun m cls => <[className cls := cls]> m) ∅ (classes d).

(** [new Set(names)] followed by [Array.from]: insertion order, first
    occurrence kept. *)
Fixpoint setFrom (acc : list string) (l : list string) : list string :=
  match l with
  | [] => acc
  | x :: r =>
      if existsb (String.eqb x) acc then setFrom acc r
      else setFrom (acc ++ [x]) r
  end.

Definition allClassNames (tsData pythonData : SDKData) : list string :=
  setFrom [] (map className (classes tsData) ++ map className (classes pythonData)).

(** [cls?.methods... .length || 0]. *)
Definition countOr0 (f : Class -> list Method) (c : option Class) : Z :=
  match c with
  | Some cls => Z.of_nat (length (f cls))
  | None => 0
  end.

Section Indexer.
Context `{P : Platform}.
Variables tsData pythonData : SDKData.

(** The comparator of the enhanced variant: method count descending, then
    [localeCompare]. *)
Definition classOrder (a b : string) : Z :=
  let tsClassA := classesMap tsData !! a in
  let pythonClassA := classesMap pythonData !! a in
  let tsClassB := classesMap tsData !! b in
  let pythonClassB := classesMap pythonData !! b in
  let methodCountA :=
    countOr0 (fun c => nonConstructors (methods c)) tsClassA
    + countOr0 methods pythonClassA in
  let methodCountB :=
    countOr0 (fun c => nonConstructors (methods c)) tsClassB
    + countOr0 methods pythonClassB in
  if negb (methodCountA =? methodCountB) then methodCountB - methodCountA
  else localeCompare a b.

Definition sortedClassNames : list string :=
  sortBy classOrder (allClassNames tsData pythonData).

(** The simple variant: [Array.from(allClassNames).sort()]. *)
Definition sortedClassNamesSimple : list string :=
  sortBy Str.codeUnitCompare (allClassNames tsData pythonData).
End Indexer.

(* ===================================================================== *)
(** ** 4.4 Filter & Sort Engine: class-level filtering *)
(* ===================================================================== *)

(** [cls?.methods.map((m) => m.name).join(" ") || ""]. *)
Definition namesOf (c : option Class) : string :=
  match c with
  | Some cls => Str.join " " (map methodName (methods cls))
  | None => ""
  end.

(** The template literal of the filter, before lower-casing. *)
Definition searchText (clsName : string) (tsClass pythonClass : option Class) : string :=
  clsName ++ " " ++ namesOf tsClass ++ " " ++ namesOf pythonClass.

Definition isEmptyString (s : string) : bool :=
  match s with EmptyString => true | _ => false end.

(** The predicate of [sortedClassNames.filter(...)]. *)
Definition classFilter (st : State) (tsData pythonData : SDKData) (clsName : string) : bool :=
  let tsClass := classesMap tsData !! clsName in
  let pythonClass := classesMap pythonData !! clsName in
  let tsMethodCount := countOr0 methods tsClass in
  let pythonMethodCount := countOr0 methods pythonClass in
  if hideEmptyClasses st && ((tsMethodCount =? 0) && (pythonMethodCount =? 0)) then false
  else
    let matchesToggle :=
      if bool_decide (is_Some tsClass) && bool_decide (is_Some pythonClass) && showCommon st then true
      else if bool_decide (is_Some tsClass) && negb (bool_decide (is_Some pythonClass)) && showTsOnly st then true
      else if negb (bool_decide (is_Some tsClass)) && bool_decide (is_Some pythonClass) && showPythonOnly st then true
      else false in
    let text := Str.toLowerCase (searchText clsName tsClass pythonClass) in
    let matchesSearch :=
      isEmptyString (searchTerm st) || Str.includes text (Str.toLowerCase (searchTerm st)) in
    matchesToggle && matchesSearch.

(** The three conditions of the class-level filter over the class maps of
    the component; [specNotHiddenAsEmpty], [specPresenceMatches] and
    [specSearchMatches] below state them over the datasets. *)
Definition notHiddenAsEmpty (st : State) (tsClass pythonClass : option Class) : Prop :=
  hideEmptyClasses st = false
  \/ 0 < countOr0 methods tsClass \/ 0 < countOr0 methods pythonClass.

Definition presenceMatches (st : State) (tsClass pythonClass : option Class) : Prop :=
  (is_Some tsClass /\ is_Some pythonClass /\ showCommon st = true)
  \/ (is_Some tsClass /\ pythonClass = None /\ showTsOnly st = true)
  \/ (tsClass = None /\ is_Some pythonClass /\ showPythonOnly st = true).

Definition searchMatches (st : State) (clsName : string)
    (tsClass pythonClass : option Class) : Prop :=
  searchTerm st = ""
  \/ exists pre post,
       Str.toLowerCase (searchText clsName tsClass pythonClass)
       = pre ++ Str.toLowerCase (searchTerm st) ++ post.

Definition filteredClassNames `{P : Platform} (st : State) (tsData pythonData : SDKData) : list string :=
  List.filter (classFilter st tsData pythonData) (sortedClassNames tsData pythonData).

Definition filteredClassNamesSimple (st : State) (tsData pythonData : SDKData) : list string :=
  List.filter (classFilter st tsData pythonData) (sortedClassNamesSimple tsData pythonData).

(* ===================================================================== *)
(** ** 4.2 Cross-SDK Matcher *)
(* ===================================================================== *)

Definition getNormalizedMethodName (name sdkName : string) : string :=
  if String.eqb sdkName "python" then toCamelCase name else name.

(** [Array.prototype.includes] on an array of strings. *)
Definition includesStr (l : list string) (x : string) : bool :=
  existsb (String.eqb x) l.

Definition getMethodComparisonStatus
    (name : string) (tsClass pythonClass : option Class) (currentSdkName : string) : string :=
  match tsClass, pythonClass with
  | Some tsCls, Some pythonCls =>
      let tsMethodNames := map methodName (nonConstructors (methods tsCls)) in
      let pythonMethodNames := map methodName (methods pythonCls) in
      let pythonMethodNamesCamelCase := map toCamelCase pythonMethodNames in
      let normalizedCurrentMethod :=
        if String.eqb currentSdkName "python" then toCamelCase name else name in
      let tsHasMethod := includesStr tsMethodNames normalizedCurrentMethod in
      let pythonHasMethod := includesStr pythonMethodNamesCamelCase normalizedCurrentMethod in
      if tsHasMethod && pythonHasMethod then "both"
      else if tsHasMethod && negb pythonHasMethod then "ts-only"
      else if negb tsHasMethod && pythonHasMethod then "python-only"
      else "missing"
  | _, _ => "missing"
  end.

(* ===================================================================== *)
(** ** Arrays in the heap *)
(* ===================================================================== *)

(** [Array.prototype.sort] sorts in place and returns its receiver, while
    [filter], [map] and the spread syntax allocate.  The arrays of methods
    live in a heap; a class object holds a reference to its array. *)
Abbreviation Ref := nat.
Abbreviation Heap := (gmap nat (list Method)).
Abbreviation ClassObj := (ClassOf Ref).

Definition HeapM (A : Type) : Type := Heap -> A * Heap.

Definition ret {A : Type} (a : A) : HeapM A := fun h => (a, h).

Definition bind {A B : Type} (m : HeapM A) (k : A -> HeapM B) : HeapM B :=
  fun h => let (a, h') := m h in k a h'.

Declare Scope heap_scope.
Delimit Scope heap_scope with heap.
Notation "'let*' x := m 'in' k" := (bind m (fun x => k))
  (at level 10, x name, m at level 100, k at level 200) : heap_scope.

Definition readArr (r : Ref) : HeapM (list Method) :=
  fun h => (default [] (h !! r), h).

(** A fresh array holding [l]. *)
Definition newArr (l : list Method) : HeapM Ref :=
  fun h => let r := fresh (dom h) in (r, <[r := l]> h).

(** [r.sort(cmp)]: the array at [r] is overwritten, [r] itself is returned. *)
Definition sortArr (cmp : Method -> Method -> Z) (r : Ref) : HeapM Ref :=
  fun h => (r, <[r := sortBy cmp (default [] (h !! r))]> h).

(** [r.filter(p)]: a fresh array. *)
Definition filterArr (p : Method -> bool) (r : Ref) : HeapM Ref :=
  (let* l := readArr r in newArr (List.filter p l))%heap.

(** The class and the dataset a heap holds. *)
Definition deref (h : Heap) (c : ClassObj) : Class :=
  mkClass (className c) (file c) (default [] (h !! methods c))
          (abstract c) (extends c) (implements c)
          (classLine c) (classStartLine c) (classEndLine c).

Definition derefData (h : Heap) (d : list ClassObj) : SDKData :=
  mkSDKData (map (deref h) d).

(* ===================================================================== *)
(** ** 4.4 Filter & Sort Engine: method-level sorting *)
(* ===================================================================== *)

Definition byLength (a b : Method) : Z := methodLength b - methodLength a.

Definition byName `{P : Platform} (a b : Method) : Z :=
  localeCompare (methodName a) (methodName b).

Section SortedMethods.
Context `{P : Platform}.
Variable st : State.
Variables tsData pythonData : list ClassObj.

Local Open Scope heap_scope.

(** [getSortedMethods] of the enhanced variant. *)
Definition getSortedMethods (sdkClass : ClassObj) (sdkName : string) : HeapM Ref :=
  let* methodsArr :=
    (if String.eqb sdkName "ts"
     then filterArr (fun m => negb (isConstructor m)) (methods sdkClass)
     else ret (methods sdkClass)) in
  fun h =>
  let otherSdkName := if String.eqb sdkName "ts" then "python" else "ts" in
  let otherClass :=
    if String.eqb otherSdkName "ts"
    then classesMap (derefData h tsData) !! className sdkClass
    else classesMap (derefData h pythonData) !! className sdkClass in
  let classKey := sdkName ++ "-" ++ className sdkClass in
  let shouldHideCommon := bool_decide (classKey ∈ hideCommonMethods st) in
  let shouldSortByLength := bool_decide (classKey ∈ sortByLength st) in
  match otherClass with
  | None =>
      if shouldSortByLength then sortArr byLength methodsArr h
      else sortArr byName methodsArr h
  | Some otherCls =>
      let isShared (m : Method) : bool :=
        let normalizedMethodName :=
          if String.eqb sdkName "python" then toCamelCase (methodName m)
          else methodName m in
        let otherMethodNames :=
          map (fun m' => if String.eqb otherSdkName "python"
                         then toCamelCase (methodName m') else methodName m')
              (methods otherCls) in
        includesStr otherMethodNames normalizedMethodName in
      (let* ms := readArr methodsArr in
       let* sharedMethods := newArr (List.filter isShared ms) in
       let* nonSharedMethods := newArr (List.filter (fun m => negb (isShared m)) ms) in
       let* shared := readArr sharedMethods in
       let* nonShared := readArr nonSharedMethods in
       let* filteredMethods := (if shouldHideCommon then newArr nonShared
                           else newArr (shared ++ nonShared)) in
       if shouldSortByLength then sortArr byLength filteredMethods
       else if shouldHideCommon then sortArr byName filteredMethods
       else
         let* sharedFiltered := newArr shared in
         let* nonSharedFiltered := newArr nonShared in
         let* _ := sortArr byName sharedFiltered in
         let* _ := sortArr byName nonSharedFiltered in
         let* a := readArr sharedFiltered in
         let* b := readArr nonSharedFiltered in
         newArr (a ++ b)) h
  end.

(** [getSortedMethods] of the simple variant. *)
Definition getSortedMethodsSimple (sdkClass : ClassObj) (sdkName : string) : HeapM Ref :=
  let* methodsArr :=
    (if String.eqb sdkName "ts"
     then filterArr (fun m => negb (isConstructor m)) (methods sdkClass)
     else ret (methods sdkClass)) in
  sortArr byName methodsArr.
End SortedMethods.

(* ===================================================================== *)
(** ** 4.5 Ranking Engine *)
(* ===================================================================== *)

(** The numbers a quotient of two integers and a difference of two such
    quotients can be.  The finite ones are kept as exact rationals (the
    quotients of the line counts are far apart compared with the precision of
    a double). *)
Inductive JsNum : Type :=
| Fin (q : Q)
| PosInf
| NegInf
| NaN.

(** [p / t] for two integers. *)
Definition jsDiv (p t : Z) : JsNum :=
  if t =? 0 then
    (if 0 <? p then PosInf else if p <? 0 then NegInf else NaN)
  else Fin (inject_Z p / inject_Z t)%Q.

(** [a - b]. *)
Definition jsSub (a b : JsNum) : JsNum :=
  match a, b with
  | NaN, _ | _, NaN => NaN
  | Fin x, Fin y => Fin (x - y)%Q
  | Fin _, PosInf => NegInf
  | Fin _, NegInf => PosInf
  | PosInf, PosInf => NaN
  | PosInf, _ => PosInf
  | NegInf, NegInf => NaN
  | NegInf, _ => NegInf
  end.

(** What [Array.prototype.sort] makes of the comparator's result: its sign,
    and [NaN] counts as [+0]. *)
Definition sortSign (v : JsNum) : Z :=
  match v with
  | Fin q => Z.sgn (Qnum q)
  | PosInf => 1
  | NegInf => -1
  | NaN => 0
  end.

Record LengthEntry : Type := mkLengthEntry {
  le_method : Method;
  le_className : string;
  le_sdkName : string;
  le_length : Z
}.

Record RatioEntry : Type := mkRatioEntry {
  re_methodName : string;
  re_className : string;
  pythonLength : Z;
  tsLength : Z;
  ratio : JsNum
}.

(** [arr.push(x)]. *)
Definition push {A : Type} (arr : list A) (x : A) : list A := (arr ++ [x])%list.

(** Two nested [forEach] loops with an accumulating array: the entries come in the
    order of the classes and, within a class, of its methods. *)
Definition forEachMethod {A : Type}
    (d : SDKData) (body : list A -> Class -> Method -> list A) (acc : list A) : list A :=
  foldl (fun acc cls => foldl (fun acc m => body acc cls m) acc (methods cls))
        acc (classes d).

(** The entries [findLongestMethods] collects before it sorts. *)
Definition methodLengths (tsData pythonData : SDKData) : list LengthEntry :=
  let acc :=
    forEachMethod tsData
      (fun acc cls m =>
         if negb (isConstructor m)
         then push acc (mkLengthEntry m (className cls) "ts" (methodLength m))
         else acc) [] in
  forEachMethod pythonData
    (fun acc cls m =>
       push acc (mkLengthEntry m (className cls) "python" (methodLength m))) acc.

Definition findLongestMethods (tsData pythonData : SDKData) : list LengthEntry :=
  jsSlice (sortBy (fun a b => le_length b - le_length a) (methodLengths tsData pythonData))
          0 15.

(** What the longest-methods leaderboard ranks according to the
    specification: every method of both SDKs except the TypeScript
    constructors, each with the line-length of section 4.4. *)
Definition longestCandidates (tsData pythonData : SDKData) : list LengthEntry :=
  (flat_map (fun cls =>
               map (fun m => mkLengthEntry m (className cls) "ts" (specLength m))
                   (nonConstructors (methods cls)))
            (classes tsData)
   ++ flat_map (fun cls =>
                  map (fun m => mkLengthEntry m (className cls) "python" (specLength m))
                      (methods cls))
               (classes pythonData))%list.

(** [method.name.toLowerCase().replace(/_/g, "")]. *)
Definition looseName (m : Method) : string :=
  Str.stripUnderscores (Str.toLowerCase (methodName m)).

(** The key [`${cls.name}.${normalizedName}`]. *)
Definition ratioKey (cls : Class) (m : Method) : string :=
  className cls ++ "." ++ looseName m.

(** The lookup table of the TypeScript methods: constructors are left out
    and a later method replaces an earlier one under the same key. *)
Definition tsMethodsIndex (tsData : SDKData) : gmap string (Method * string) :=
  foldl (fun idx cls =>
           foldl (fun idx m =>
                    if negb (isConstructor m)
                    then <[ratioKey cls m := (m, className cls)]> idx
                    else idx)
                 idx (methods cls))
        ∅ (classes tsData).

(** The lookup table of the Python methods. *)
Definition pythonMethodsIndex (pythonData : SDKData) : gmap string (Method * string) :=
  foldl (fun idx cls =>
           foldl (fun idx m => <[ratioKey cls m := (m, className cls)]> idx)
                 idx (methods cls))
        ∅ (classes pythonData).

(** The methods of a dataset with their classes, in the order of the
    dataset; and those of the TypeScript data that are not constructors. *)
Definition allPairs (d : SDKData) : list (Class * Method) :=
  flat_map (fun cls => map (pair cls) (methods cls)) (classes d).

Definition tsPairs (tsData : SDKData) : list (Class * Method) :=
  List.filter (fun cm => negb (isConstructor (snd cm))) (allPairs tsData).

(** The pair of [l] that a lookup table filled in the order of [l] holds
    under the key [k]: the last one with that key. *)
Definition lastUnderKey (l : list (Class * Method)) (k : string) : option (Class * Method) :=
  lastWith (fun cm => String.eqb (ratioKey (fst cm) (snd cm)) k) l.

(** The order on the ratios: [x] is at least [y]. *)
Definition ratioGe (x y : JsNum) : Prop :=
  match x, y with
  | Fin a, Fin b => (b <= a)%Q
  | PosInf, (Fin _ | PosInf | NegInf) => True
  | Fin _, NegInf => True
  | NegInf, NegInf => True
  | _, _ => False
  end.

(** The Python method [m] and the TypeScript method [t] make an entry of
    the Python-exceeds-TypeScript board: [t] is what the TypeScript table
    holds under the key of [m], and [m] is strictly longer. *)
Definition pythonExceeds (tsData pythonData : SDKData) (m t : Method) : Prop :=
  exists cls c,
    In cls (classes pythonData) /\ In m (methods cls)
    /\ lastUnderKey (tsPairs tsData) (ratioKey cls m) = Some (c, t)
    /\ methodLength t < methodLength m.


Definition byRatio (a b : RatioEntry) : Z := sortSign (jsSub (ratio b) (ratio a)).

(** The entries [findSizeRatioMethods] collects before it sorts. *)
Definition methodRatios (tsData pythonData : SDKData) : list RatioEntry :=
  let tsMethods := tsMethodsIndex tsData in
  forEachMethod pythonData
    (fun acc cls m =>
       let pyLen := methodLength m in
       let tsKey := ratioKey cls m in
       match tsMethods !! tsKey with
       | Some tsMethod =>
           let tsLen := methodLength (fst tsMethod) in
           if tsLen <? pyLen
           then push acc (mkRatioEntry (methodName m) (className cls) pyLen tsLen
                                       (jsDiv pyLen tsLen))
           else acc
       | None => acc
       end) [].

Definition findSizeRatioMethods (tsData pythonData : SDKData) : list RatioEntry :=
  jsSlice (sortBy byRatio (methodRatios tsData pythonData)) 0 15.

(** The entries [findTsSizeRatioMethods] collects before it sorts. *)
Definition tsMethodRatios (tsData pythonData : SDKData) : list RatioEntry :=
  let pythonMethods := pythonMethodsIndex pythonData in
  forEachMethod tsData
    (fun acc cls m =>
       if negb (isConstructor m) then
         let tsLen := methodLength m in
         let pythonKey := ratioKey cls m in
         match pythonMethods !! pythonKey with
         | Some pythonMethod =>
             let pyLen := methodLength (fst pythonMethod) in
             if pyLen <? tsLen
             then push acc (mkRatioEntry (methodName m) (className cls) pyLen tsLen
                                         (jsDiv tsLen pyLen))
             else acc
         | None => acc
         end
       else acc) [].

Definition findTsSizeRatioMethods (tsData pythonData : SDKData) : list RatioEntry :=
  jsSlice (sortBy byRatio (tsMethodRatios tsData pythonData)) 0 15.

(* ===================================================================== *)
(** ** 4.6 Snippet Fetcher *)
(* ===================================================================== *)

(** [str.replace(/^prefix/, "")]. *)
Fixpoint stripPrefix (pre s : string) : option string :=
  match pre, s with
  | EmptyString, _ => Some s
  | String a p, String b r => if Ascii.eqb a b then stripPrefix p r else None
  | String _ _, EmptyString => None
  end.

Definition getCleanFilePath (filePath sdkName : string) : string :=
  if String.eqb sdkName "ts"
  then default filePath (stripPrefix "protocol-v2/sdk/src/" filePath)
  else default filePath (stripPrefix "driftpy/" filePath).

(** [content.split("\n")]. *)
Fixpoint splitLines (s : string) : list string :=
  match s with
  | EmptyString => [EmptyString]
  | String c r =>
      if Ascii.eqb c "010"%char then EmptyString :: splitLines r
      else match splitLines r with
           | x :: xs => String c x :: xs
           | [] => [String c EmptyString]
           end
  end.

(** What can be thrown inside [fetchCodeSnippet]. *)
Inductive Exn : Type :=
| NetworkError                    (* [fetch] rejects *)
| GitHubApiError (status : Z)     (* [throw new Error(`GitHub API error: ...`)] *)
| JsonError                       (* [response.json()] rejects *)
| InvalidCharacterError.          (* [atob] throws *)

(** What the remote end answers to a request: nothing (the request fails),
    or a response with its [ok] flag, its status and, when the body is JSON,
    the [content] field of the body. *)
Inductive FetchResult : Type :=
| Rejected
| Response (ok : bool) (status : Z) (json : option string).

(** Handlers run against the component state and may throw. *)
Definition Eff (A : Type) : Type := State -> (Exn + A) * State.

Definition effRet {A : Type} (a : A) : Eff A := fun s => (inr a, s).

Definition effBind {A B : Type} (m : Eff A) (k : A -> Eff B) : Eff B :=
  fun s => match m s with
           | (inl e, s') => (inl e, s')
           | (inr a, s') => k a s'
           end.

Declare Scope eff_scope.
Delimit Scope eff_scope with eff.
Notation "'do' x <- m ; k" := (effBind m (fun x => k))
  (at level 10, x name, m at level 100, k at level 200) : eff_scope.
Notation "m ;; k" := (effBind m (fun _ => k))
  (at level 100, k at level 200, right associativity) : eff_scope.

Definition throw {A : Type} (e : Exn) : Eff A := fun s => (inl e, s).

(** [await p]: the handler is suspended, the other handlers of the event
    loop run ([others]), then the promise settles. *)
Definition await {A : Type} (others : State -> State) (settled : Exn + A) : Eff A :=
  fun s => (settled, others s).

(** [try { body } catch (error) { handler } finally { finalizer }]. *)
Definition tryCatchFinally {A : Type}
    (body : Eff A) (handler : Exn -> Eff A) (finalizer : Eff unit) : Eff A :=
  fun s =>
    let (r, s1) := match body s with
                   | (inl e, s') => handler e s'
                   | (inr a, s') => (inr a, s')
                   end in
    match finalizer s1 with
    | (inl e, s2) => (inl e, s2)
    | (inr _, s2) => (r, s2)
    end.

Definition setCodeSnippets (f : gmap string Snippet -> gmap string Snippet) : Eff unit :=
  fun s => (inr tt,
            mkState (showCommon s) (showTsOnly s) (showPythonOnly s) (searchTerm s)
                    (hideEmptyClasses s) (f (codeSnippets s)) (loadingSnippets s)
                    (hideCommonMethods s) (sortByLength s) (consoleErrors s)).

Definition setLoadingSnippets (f : gset string -> gset string) : Eff unit :=
  fun s => (inr tt,
            mkState (showCommon s) (showTsOnly s) (showPythonOnly s) (searchTerm s)
                    (hideEmptyClasses s) (codeSnippets s) (f (loadingSnippets s))
                    (hideCommonMethods s) (sortByLength s) (consoleErrors s)).

(** [console.error(msg, error)]. *)
Definition consoleError (msg : string) : Eff unit :=
  fun s => (inr tt,
            mkState (showCommon s) (showTsOnly s) (showPythonOnly s) (searchTerm s)
                    (hideEmptyClasses s) (codeSnippets s) (loadingSnippets s)
                    (hideCommonMethods s) (sortByLength s)
                    (consoleErrors s ++ [msg])).

Definition fromOption {A : Type} (e : Exn) (o : option A) : Exn + A :=
  match o with Some a => inr a | None => inl e end.

Section Fetcher.
Context `{P : Platform}.

(** The remote content endpoint, by URL. *)
Variable remote : string -> FetchResult.
(** What the other handlers do while [fetch] and [response.json()] are
    pending. *)
Variables others1 others2 : State -> State.
(** The enhanced variant keeps the whole file and the resolved lines. *)
Variable enhanced : bool.

Local Open Scope eff_scope.

Definition fetchCodeSnippet
    (filePath : string) (startLine endLine : Z) (sdkName key : string) : Eff unit :=
  setLoadingSnippets (fun prev => prev ∪ {[key]}) ;;
  tryCatchFinally
    (let cleanPath := getCleanFilePath filePath sdkName in
     let repo := if String.eqb sdkName "ts" then "protocol-v2" else "driftpy" in
     let branch := if String.eqb sdkName "ts" then "sdk/src" else "src/driftpy" in
     let url := "https://api.github.com/repos/drift-labs/" ++ repo
                ++ "/contents/" ++ branch ++ "/" ++ cleanPath in
     do response <- await others1
                      (match remote url with
                       | Rejected => inl NetworkError
                       | Response ok status json => inr (ok, status, json)
                       end) ;
     let '(ok, status, json) := response in
     (if negb ok then throw (GitHubApiError status) else effRet tt) ;;
     do data <- await others2 (fromOption JsonError json) ;
     do content <- (fun s => (fromOption InvalidCharacterError (atob data), s)) ;
     let lines := splitLines content in
     let snippetStart := Z.max 0 (startLine - 1) in
     let snippetEnd := Z.min (Z.of_nat (length lines)) endLine in
     let snippetLines := jsSlice lines snippetStart snippetEnd in
     setCodeSnippets (fun prev =>
       <[key := mkSnippet (Str.join (String "010"%char EmptyString) snippetLines)
                          cleanPath startLine
                          (if String.eqb sdkName "ts" then "typescript" else "python")
                          (if enhanced then Some content else None)
                          (if enhanced then Some (snippetStart + 1) else None)
                          (if enhanced then Some snippetEnd else None)]> prev))
    (fun error => consoleError "Failed to fetch code snippet:")
    (setLoadingSnippets (fun prev => prev ∖ {[key]})).
End Fetcher.

(** The URL [fetchCodeSnippet] requests. *)
Definition snippetUrl (filePath sdkName : string) : string :=
  "https://api.github.com/repos/drift-labs/"
  ++ (if String.eqb sdkName "ts" then "protocol-v2" else "driftpy")
  ++ "/contents/" ++ (if String.eqb sdkName "ts" then "sdk/src" else "src/driftpy")
  ++ "/" ++ getCleanFilePath filePath sdkName.

(** The fetch fails: the request is rejected, the response is not a success,
    the body is not JSON, or [atob] throws on the content. *)
Definition fetchFails `{P : Platform} (r : FetchResult) : Prop :=
  match r with
  | Rejected => True
  | Response ok _ json =>
      ok = false \/ json = None \/ (exists data, json = Some data /\ atob data = None)
  end.

(** Base64 decoding as [atob] does it: white space is skipped, up to two
    padding characters are dropped from a text whose length is a multiple of
    four, a remaining length of 1 modulo 4 or a character outside the
    alphabet is an error, and left-over bits are discarded. *)
Definition sextet (c : ascii) : option N :=
  let n := N_of_ascii c in
  (if Str.isUpperAZ c then Some (n - 65)
   else if Str.isLowerAZ c then Some (n - 71)
   else if (48 <=? n) && (n <=? 57) then Some (n + 4)
   else if n =? 43 then Some 62
   else if n =? 47 then Some 63
   else None)%N.

Definition isBase64Space (c : ascii) : bool :=
  let n := N_of_ascii c in
  ((n =? 9) || (n =? 10) || (n =? 12) || (n =? 13) || (n =? 32))%N.

Definition dropPadding (l : list ascii) : list ascii :=
  if (length l mod 4 =? 0)%nat then
    match rev l with
    | "="%char :: "="%char :: r => rev r
    | "="%char :: r => rev r
    | _ => l
    end
  else l.

Fixpoint sextets (l : list ascii) : option (list N) :=
  match l with
  | [] => Some []
  | c :: r =>
      match sextet c, sextets r with
      | Some v, Some vs => Some (v :: vs)
      | _, _ => None
      end
  end.

Fixpoint decodeSextets (l : list N) : list ascii :=
  match l with
  | a :: b :: c :: d :: r =>
      let n := (a * 262144 + b * 4096 + c * 64 + d)%N in
      ascii_of_N (n / 65536) :: ascii_of_N ((n / 256) mod 256)
        :: ascii_of_N (n mod 256) :: decodeSextets r
  | [a; b; c] =>
      let n := (a * 262144 + b * 4096 + c * 64)%N in
      [ascii_of_N (n / 65536); ascii_of_N ((n / 256) mod 256)]
  | [a; b] => [ascii_of_N ((a * 262144 + b * 4096) / 65536)]
  | _ => []
  end.

Definition base64Decode (s : string) : option string :=
  let l := dropPadding (List.filter (fun c => negb (isBase64Space c)) (Str.chars s)) in
  if (length l mod 4 =? 1)%nat then None
  else match sextets l with
       | Some vs => Some (string_of_list_ascii (decodeSextets vs))
       | None => None
       end.

(** A platform for examples: the collation is the code-unit order. *)
Definition examplePlatform : Platform :=
  {| localeCompare := Str.codeUnitCompare; atob := base64Decode |}.

Definition initialState : State :=
  mkState true false false "" true ∅ ∅ ∅ ∅ [].

(* ===================================================================== *)
(** ** Toggles, counterpart expansion and the expanded snippet view *)
(* ===================================================================== *)

(** [toggleClass]: the key leaves the set when it is in it and enters it
    otherwise.  [toggleSnippetExpansion], [toggleHideCommonMethods] and
    [toggleSortByLength] have the same body on their own sets. *)
Definition toggleClass (clsName : string) (prev : gset string) : gset string :=
  if bool_decide (clsName ∈ prev) then prev ∖ {[clsName]} else prev ∪ {[clsName]}.

Definition toggleSnippetExpansion (key : string) (prev : gset string) : gset string :=
  if bool_decide (key ∈ prev) then prev ∖ {[key]} else prev ∪ {[key]}.

Definition toggleHideCommonMethods (classKey : string) (prev : gset string) : gset string :=
  if bool_decide (classKey ∈ prev) then prev ∖ {[classKey]} else prev ∪ {[classKey]}.

Definition toggleSortByLength (classKey : string) (prev : gset string) : gset string :=
  if bool_decide (classKey ∈ prev) then prev ∖ {[classKey]} else prev ∪ {[classKey]}.

(** [setSearchTerm(value)]. *)
Definition setSearchTerm (value : string) (s : State) : State :=
  mkState (showCommon s) (showTsOnly s) (showPythonOnly s) value
          (hideEmptyClasses s) (codeSnippets s) (loadingSnippets s)
          (hideCommonMethods s) (sortByLength s) (consoleErrors s).

(** [setHideEmptyClasses(value)]. *)
Definition setHideEmptyClasses (value : bool) (s : State) : State :=
  mkState (showCommon s) (showTsOnly s) (showPythonOnly s) (searchTerm s)
          value (codeSnippets s) (loadingSnippets s)
          (hideCommonMethods s) (sortByLength s) (consoleErrors s).

(** A call of [fetchCodeSnippet] with its five arguments. *)
Record FetchCall : Type := mkFetchCall {
  fc_filePath : string;
  fc_startLine : Z;
  fc_endLine : Z;
  fc_sdkName : string;
  fc_key : string
}.

(** [`${sdkName}-${className}-${methodName}`]. *)
Definition snippetKey (sdkName clsName name : string) : string :=
  sdkName ++ "-" ++ clsName ++ "-" ++ name.

(** The lookup of the corresponding method on the other side, which both
    branches of [toggleCodeSnippet] repeat: the other SDK's class of the same
    name and, in it, the first method that matches.  Towards Python both
    names are camelCased; towards TypeScript the names are compared as they
    are. *)
Definition otherSide (sdkName : string) : string :=
  if String.eqb sdkName "ts" then "python" else "ts".

Definition findOtherMethod (tsData pythonData : SDKData)
    (sdkName clsName name : string) : option (Class * Method) :=
  let otherSdkName := otherSide sdkName in
  let otherClass :=
    if String.eqb otherSdkName "ts" then classesMap tsData !! clsName
    else classesMap pythonData !! clsName in
  match otherClass with
  | Some otherCls =>
      let normalizedMethodName :=
        if String.eqb otherSdkName "python" then toCamelCase name else name in
      match List.find (fun m => if String.eqb otherSdkName "python"
                                then String.eqb (toCamelCase (methodName m)) normalizedMethodName
                                else String.eqb (methodName m) normalizedMethodName)
                      (methods otherCls) with
      | Some otherMethod => Some (otherCls, otherMethod)
      | None => None
      end
  | None => None
  end.

(** [toggleCodeSnippet] of the enhanced variant: the new value of
    [expandedCodeSnippets] and the calls of [fetchCodeSnippet] it makes, in
    order. *)
Definition toggleCodeSnippet
    (expandedCodeSnippets : gset string) (snippets : gmap string Snippet)
    (tsData pythonData : SDKData)
    (key filePath : string) (startLn endLn : Z) (sdkName clsName name : string)
    : gset string * list FetchCall :=
  let isExpanding := negb (bool_decide (key ∈ expandedCodeSnippets)) in
  if isExpanding then
    let newExpanded := expandedCodeSnippets ∪ {[key]} in
    let calls :=
      if negb (bool_decide (is_Some (snippets !! key)))
      then [mkFetchCall filePath startLn endLn sdkName key] else [] in
    match findOtherMethod tsData pythonData sdkName clsName name with
    | Some (otherCls, otherMethod) =>
        let otherKey := snippetKey (otherSide sdkName) clsName (methodName otherMethod) in
        if negb (bool_decide (otherKey ∈ newExpanded)) then
          (newExpanded ∪ {[otherKey]},
           if negb (bool_decide (is_Some (snippets !! otherKey)))
           then push calls
                  (mkFetchCall (file otherCls)
                     (orElse (startLine otherMethod) (orElse (methodLine otherMethod) 1))
                     (orElse (endLine otherMethod) (orElse (methodLine otherMethod) 1))
                     (otherSide sdkName) otherKey)
           else calls)
        else (newExpanded, calls)
    | None => (newExpanded, calls)
    end
  else
    let newExpanded := expandedCodeSnippets ∖ {[key]} in
    match findOtherMethod tsData pythonData sdkName clsName name with
    | Some (otherCls, otherMethod) =>
        let otherKey := snippetKey (otherSide sdkName) clsName (methodName otherMethod) in
        (newExpanded ∖ {[otherKey]}, [])
    | None => (newExpanded, [])
    end.

(** [toggleCodeSnippet] of the simple variant. *)
Definition toggleCodeSnippetSimple
    (expandedCodeSnippets : gset string) (snippets : gmap string Snippet)
    (key filePath : string) (startLn endLn : Z) (sdkName : string)
    : gset string * list FetchCall :=
  if bool_decide (key ∈ expandedCodeSnippets) then
    (expandedCodeSnippets ∖ {[key]}, [])
  else
    (expandedCodeSnippets ∪ {[key]},
     if negb (bool_decide (is_Some (snippets !! key)))
     then [mkFetchCall filePath startLn endLn sdkName key] else []).

Definition newline : string := String "010"%char EmptyString.

(** The lines [getExpandedSnippetContent] shows for an expanded snippet:
    five more on each side. *)
Definition expandedLines (snippet : Snippet) (full : string) : list string :=
  let lines := splitLines full in
  let startLn := Z.max 0 (orElse (snippetStartLine snippet) 1 - 6) in
  let endLn := Z.min (Z.of_nat (length lines)) (orElse (snippetEndLine snippet) 1 + 5) in
  jsSlice lines startLn endLn.

Definition getExpandedSnippetContent
    (snippets : gmap string Snippet) (expandedSnippets : gset string) (key : string)
    : string :=
  match snippets !! key with
  | None => ""
  | Some snippet =>
      match fullContent snippet with
      | None => content snippet
      | Some full =>
          if isEmptyString full then content snippet
          else if bool_decide (key ∈ expandedSnippets)
               then Str.join newline (expandedLines snippet full)
               else content snippet
      end
  end.

(* ===================================================================== *)
(** ** The counters of the statistics bar *)
(* ===================================================================== *)

(** [sortedClassNames.filter((name) => tsClassesMap.has(name) &&
    pythonClassesMap.has(name)).length]. *)
Definition commonClassesCount `{P : Platform} (tsData pythonData : SDKData) : nat :=
  length (List.filter
            (fun n => bool_decide (is_Some (classesMap tsData !! n))
                      && bool_decide (is_Some (classesMap pythonData !! n)))
            (sortedClassNames tsData pythonData)).

(** [sortedClassNames.filter((name) => !tsClassesMap.has(name) ||
    !pythonClassesMap.has(name)).length]. *)
Definition uniqueClassesCount `{P : Platform} (tsData pythonData : SDKData) : nat :=
  length (List.filter
            (fun n => negb (bool_decide (is_Some (classesMap tsData !! n)))
                      || negb (bool_decide (is_Some (classesMap pythonData !! n))))
            (sortedClassNames tsData pythonData)).


(** The query [q] occurs in [s], letter case aside. *)
Definition occursIn (q s : string) : Prop :=
  exists pre post, Str.toLowerCase s = pre ++ Str.toLowerCase q ++ post.

(** The test by which [getSortedMethods] puts a method of the [sdkName]
    side into the shared group, [otherCls] being the other SDK's class:
    the method's name (camelCased on the Python side) is among the other
    class's method names (camelCased when the other side is Python). *)
Definition sharedWith (sdkName : string) (otherCls : Class) (m : Method) : bool :=
  includesStr
    (map (fun m' => if String.eqb (otherSide sdkName) "python"
                    then toCamelCase (methodName m') else methodName m')
         (methods otherCls))
    (if String.eqb sdkName "python" then toCamelCase (methodName m) else methodName m).

(** The methods [getSortedMethods] works on for the [sdkName] side, [ms]
    being the class's methods; and the other SDK's class of the same name. *)
Definition shownMethods (sdkName : string) (ms : list Method) : list Method :=
  if String.eqb sdkName "ts" then nonConstructors ms else ms.

Definition otherClassOf (sdkName : string) (h : Heap)
    (tsData pythonData : list ClassObj) (clsName : string) : option Class :=
  if String.eqb (otherSide sdkName) "ts"
  then classesMap (derefData h tsData) !! clsName
  else classesMap (derefData h pythonData) !! clsName.

(** [`${sdkName}-${sdkClass.name}`]. *)
Definition classKeyOf (sdkName clsName : string) : string :=
  sdkName ++ "-" ++ clsName.


(** The lines [fetchCodeSnippet] cuts out of the decoded file:
    [lines.slice(Math.max(0, startLine - 1), Math.min(lines.length, endLine))]. *)
Definition snippetLinesOf (full : string) (startLn endLn : Z) : list string :=
  jsSlice (splitLines full) (Z.max 0 (startLn - 1))
          (Z.min (Z.of_nat (length (splitLines full))) endLn).

(** The line contains no line break. *)
Definition noNewline (s : string) : bool :=
  negb (existsb (fun c => Ascii.eqb c "010"%char) (Str.chars s)).

(* ===================================================================== *)
(** ** The class filter in the words of the specification *)
(* ===================================================================== *)

(** The conditions of section 4.4 over the datasets themselves: these
    definitions call no function of the component. *)












(* ===================================================================== *)
(** ** Predicates used in the statements *)
(* ===================================================================== *)

(** A comparator is total when of two elements one does not come strictly
    after the other. *)
Definition totalCmp {A : Type} (cmp : A -> A -> Z) : Prop :=
  forall x y, 0 < cmp x y -> cmp y x <= 0.

(** [h'] extends [h]: the arrays of [h] are in [h'] with their contents. *)
Definition frame (h h' : Heap) : Prop :=
  dom h ⊆ dom h' /\ forall r, r ∈ dom h -> h' !! r = h !! r.

(** Run in a heap that extends [h], the computation [m] leaves an extension
    of [h] and a result that satisfies [post]. *)
Definition keeps {A : Type} (h : Heap) (m : HeapM A) (post : A -> Prop) : Prop :=
  forall h1, frame h h1 -> frame h (snd (m h1)) /\ post (fst (m h1)).

(* ===================================================================== *)
(** ** Example data *)
(* ===================================================================== *)

(** The classes and states of the examples of the specification (section 8)
    and of the evaluations below. *)

Definition fooTs : Class :=
  class "Foo" [method "getPrice" 10 12; method "constructor" 3 8].

Definition fooPython : Class := class "Foo" [method "get_price" 5 50].

Definition barPython : SDKData := mkSDKData [class "Bar" [method "initialize" 1 9]].


Definition ctorOnlyTs : SDKData := mkSDKData [class "Foo" [method "constructor" 3 8]].

Definition tsOnlyState (search : string) : State :=
  mkState false true false search true ∅ ∅ ∅ ∅ [].

Definition ctorHeap : Heap :=
  {[ 1%nat := [method "constructor" 3 8];
     2%nat := [method "constructor" 1 2; method "run" 3 4] ]}.

Definition ctorTsObj : ClassObj :=
  mkClass "Foo" "protocol-v2/sdk/src/foo.ts" 1%nat None None None None None None.

Definition ctorPythonObj : ClassObj :=
  mkClass "Foo" "driftpy/foo.py" 2%nat None None None None None None.

Definition hideSharedState : State :=
  mkState true false false "" true ∅ ∅ {[ "python-Foo" ]} ∅ [].

Definition unsortedHeap : Heap := {[ 1%nat := [method "b" 1 2; method "a" 3 9] ]}.

Definition barObj : ClassObj :=
  mkClass "Bar" "driftpy/bar.py" 1%nat None None None None None None.

Definition computeTs : SDKData :=
  mkSDKData [class "Calc" [method "constructor" 1 9; method "computeX" 10 12]].

Definition computePython : SDKData :=
  mkSDKData [class "Calc" [method "compute_x" 5 50]].



(* ===================================================================== *)
(** * Properties *)
(* ===================================================================== *)

Local Open Scope list_scope.

Example base64Decode_hello :
  base64Decode "aGVsbG8K" = Some (String.append "hello" (String "010"%char EmptyString))
  /\ base64Decode "aGk=" = Some "hi" /\ base64Decode "undefined" = None
  /\ base64Decode "a-b" = None.
Proof. repeat split; reflexivity. Qed.

(** ** Characters *)

Lemma lower_not_underscore (c : ascii) :
  Str.isLowerAZ c = true -> Ascii.eqb c Str.underscore = false.
Proof. destruct c as [[] [] [] [] [] [] [] []]; vm_compute; congruence. Qed.

Lemma upper_of_lower (c : ascii) :
  Str.isLowerAZ c = true ->
  Str.isLowerAZ (Str.toUpperChar c) = false
  /\ Ascii.eqb (Str.toUpperChar c) Str.underscore = false.
Proof. destruct c as [[] [] [] [] [] [] [] []]; vm_compute; auto; congruence. Qed.

(** Induction on strings with the hypothesis for every shorter string. *)
Lemma string_length_ind (P : string -> Prop) :
  (forall s, (forall t, (String.length t < String.length s)%nat -> P t) -> P s) ->
  forall s, P s.
Proof.
  intros step s. remember (String.length s) as n eqn:Hn.
  revert s Hn. induction n as [n IH] using lt_wf_ind.
  intros s ->. apply step. intros t Hlt. exact (IH _ Hlt t eq_refl).
Qed.

(** ** 4.1 Identifier Normalizer *)

(** The three equations of the scan. *)
Lemma toCamelCase_match (d : ascii) (r : string) :
  Str.isLowerAZ d = true ->
  toCamelCase (String Str.underscore (String d r))
  = String (Str.toUpperChar d) (toCamelCase r).
Proof. intros Hd. simpl. rewrite Hd. reflexivity. Qed.

Lemma toCamelCase_copy (c d : ascii) (r : string) :
  Ascii.eqb c Str.underscore && Str.isLowerAZ d = false ->
  toCamelCase (String c (String d r)) = String c (toCamelCase (String d r)).
Proof. intros Hc. cbn [toCamelCase]. rewrite Hc. reflexivity. Qed.

(** The first character of a result is the first character of the input or
    an upper-cased letter: in both cases a lower-case letter only if the
    input starts with that same letter. *)
Lemma toCamelCase_head (d : ascii) (r : string) :
  exists h t, toCamelCase (String d r) = String h t
              /\ (h = d \/ Str.isLowerAZ h = false).
Proof.
  destruct r as [|e r'].
  - exists d, EmptyString. split; [reflexivity | now left].
  - destruct (Ascii.eqb d Str.underscore && Str.isLowerAZ e) eqn:Hm.
    + apply andb_true_iff in Hm as [Hd He].
      apply Ascii.eqb_eq in Hd. subst d.
      rewrite (toCamelCase_match _ _ He).
      eexists _, _. split; [reflexivity | right]. now apply upper_of_lower.
    + rewrite (toCamelCase_copy _ _ _ Hm).
      eexists _, _. split; [reflexivity | now left].
Qed.

Lemma toCamelCase_noMatch_id (s : string) :
  noMatch s = true -> toCamelCase s = s.
Proof.
  induction s as [|c r IH]; [reflexivity|].
  destruct r as [|d r']; [reflexivity|].
  intros Hn. cbn [noMatch] in Hn.
  apply andb_true_iff in Hn as [Hc Hr]. apply negb_true_iff in Hc.
  rewrite (toCamelCase_copy _ _ _ Hc). now rewrite (IH Hr).
Qed.

Lemma noMatch_cons (c h : ascii) (t : string) :
  Ascii.eqb c Str.underscore && Str.isLowerAZ h = false ->
  noMatch (String h t) = true -> noMatch (String c (String h t)) = true.
Proof. intros Hc Ht. cbn [noMatch]. cbn [noMatch] in Ht. now rewrite Hc, Ht. Qed.

Lemma toCamelCase_result_noMatch (s : string) : noMatch (toCamelCase s) = true.
Proof.
  induction s as [s IH] using string_length_ind.
  destruct s as [|c r]; [reflexivity|].
  destruct r as [|d r']; [reflexivity|].
  destruct (Ascii.eqb c Str.underscore && Str.isLowerAZ d) eqn:Hm.
  - apply andb_true_iff in Hm as [Hc Hd].
    apply Ascii.eqb_eq in Hc. subst c.
    rewrite (toCamelCase_match _ _ Hd).
    assert (Hr : noMatch (toCamelCase r') = true) by (apply IH; simpl; lia).
    destruct (toCamelCase r') as [|h t]; [reflexivity|].
    apply noMatch_cons; [|exact Hr].
    destruct (upper_of_lower _ Hd) as [_ ->]. reflexivity.
  - rewrite (toCamelCase_copy _ _ _ Hm).
    assert (Hr : noMatch (toCamelCase (String d r')) = true) by (apply IH; simpl; lia).
    destruct (toCamelCase_head d r') as (h & t & Heq & Hh).
    rewrite Heq in *. apply noMatch_cons; [|exact Hr].
    destruct Hh as [-> | Hh]; [exact Hm|].
    rewrite Hh. apply andb_false_r.
Qed.

Lemma hasUnderscore_false_noMatch (s : string) :
  hasUnderscore s = false -> noMatch s = true.
Proof.
  unfold hasUnderscore, Str.chars.
  induction s as [|c r IH]; [reflexivity|].
  simpl. intros Hu. apply orb_false_iff in Hu as [Hc Hr].
  destruct r as [|d r']; [reflexivity|].
  rewrite Hc. simpl. apply IH. exact Hr.
Qed.

(** Shifting the position-wise description along the input. *)
Lemma matchAt_cons (c : ascii) (l : list ascii) (i : nat) :
  matchAt (c :: l) (S i) = matchAt l i.
Proof. reflexivity. Qed.

Lemma camelAt_cons_SS (c : ascii) (l : list ascii) (i : nat) :
  camelAt (c :: l) (S (S i)) = camelAt l (S i).
Proof. unfold camelAt. rewrite !matchAt_cons. reflexivity. Qed.

Lemma camelAt_cons_1 (c : ascii) (l : list ascii) :
  matchAt (c :: l) 0 = false -> camelAt (c :: l) 1 = camelAt l 0.
Proof. intros Hm. unfold camelAt. rewrite matchAt_cons, Hm. reflexivity. Qed.

Lemma camelAt_shift (c : ascii) (l : list ascii) (n : nat) :
  matchAt (c :: l) 0 = false ->
  flat_map (camelAt (c :: l)) (seq 1 n) = flat_map (camelAt l) (seq 0 n).
Proof.
  intros Hm. rewrite <- seq_shift, flat_map_concat_map, map_map,
    <- flat_map_concat_map.
  apply flat_map_ext. intros [|i].
  - now apply camelAt_cons_1.
  - apply camelAt_cons_SS.
Qed.

Lemma toCamelCase_positions (s : string) :
  Str.chars (toCamelCase s)
  = flat_map (camelAt (Str.chars s)) (seq 0 (length (Str.chars s))).
Proof.
  induction s as [s IH] using string_length_ind.
  destruct s as [|c r]; [reflexivity|].
  destruct r as [|d r']; [reflexivity|].
  destruct (Ascii.eqb c Str.underscore && Str.isLowerAZ d) eqn:Hm.
  - pose proof Hm as Hm'. apply andb_true_iff in Hm' as [Hc Hd].
    apply Ascii.eqb_eq in Hc. subst c.
    rewrite (toCamelCase_match _ _ Hd).
    unfold Str.chars in *. cbn [list_ascii_of_string length seq flat_map].
    rewrite (IH r') by (simpl; lia).
    assert (H0 : camelAt (Str.underscore :: d :: list_ascii_of_string r') 0 = []).
    { unfold camelAt, matchAt. simpl. now rewrite Hd. }
    assert (Hd0 : matchAt (d :: list_ascii_of_string r') 0 = false).
    { unfold matchAt. simpl. rewrite (lower_not_underscore _ Hd).
      now destruct (list_ascii_of_string r'). }
    assert (H1 : camelAt (Str.underscore :: d :: list_ascii_of_string r') 1
                 = [Str.toUpperChar d]).
    { unfold camelAt. rewrite matchAt_cons, Hd0.
      unfold matchAt. simpl. now rewrite Hd. }
    rewrite H0, H1. simpl. f_equal.
    rewrite <- (camelAt_shift d _ _ Hd0).
    rewrite <- (seq_shift _ 1), <- (seq_shift _ 0), !flat_map_concat_map, !map_map.
    reflexivity.
  - rewrite (toCamelCase_copy _ _ _ Hm).
    unfold Str.chars in *.
    cbn [list_ascii_of_string]. rewrite (IH (String d r')) by (simpl; lia).
    cbn [list_ascii_of_string length].
    assert (Hm0 : matchAt (c :: d :: list_ascii_of_string r') 0 = false)
      by exact Hm.
    change (seq 0 (S (S (length (list_ascii_of_string r')))))
      with (0%nat :: seq 1 (S (length (list_ascii_of_string r')))).
    assert (H0 : camelAt (c :: d :: list_ascii_of_string r') 0 = [c]).
    { unfold camelAt. rewrite Hm0. reflexivity. }
    cbn [flat_map]. rewrite (camelAt_shift _ _ _ Hm0), H0. reflexivity.
Qed.

(** C2 (as amended).  [toCamelCase] is a total function which deletes exactly
    the underscores that are immediately followed by a letter of [a-z] and
    upper-cases that letter; every other character is kept as it is and in
    place, so an underscore followed by a digit, an upper-case letter,
    another underscore or nothing stays.  Position by position: the output
    is the concatenation, over the positions of the input, of nothing for
    the underscore of a match, the upper-cased letter for the letter of a
    match, and the character itself elsewhere.  An identifier without an
    underscore is returned unchanged. *)
Theorem toCamelCase_deletes_matched_underscores (s : string) :
  Str.chars (toCamelCase s)
  = flat_map (camelAt (Str.chars s)) (seq 0 (length (Str.chars s)))
  /\ (hasUnderscore s = false -> toCamelCase s = s).
Proof.
  split.
  - apply toCamelCase_positions.
  - intros Hu. apply toCamelCase_noMatch_id.
    now apply hasUnderscore_false_noMatch.
Qed.

Lemma toCamelCase_deletes_matched_underscores_witness :
  hasUnderscore "getPrice" = false /\ toCamelCase "getPrice" = "getPrice".
Proof.
  split; [reflexivity|].
  apply (proj2 (toCamelCase_deletes_matched_underscores "getPrice")).
  reflexivity.
Defined.

(** C2 as stated fails: the underscore of ["a_1"] is followed by a digit and
    is not deleted, whereas deleting each underscore gives ["a1"]; likewise
    for an underscore followed by an upper-case letter, by another
    underscore, or by nothing. *)
Lemma toCamelCase_keeps_unmatched_underscores :
  toCamelCase "a_1" = "a_1" /\ specCamelCase "a_1" = "a1"
  /\ toCamelCase "get_X" = "get_X" /\ specCamelCase "get_X" = "getX"
  /\ toCamelCase "a__b" = "a_B" /\ specCamelCase "a__b" = "aB"
  /\ toCamelCase "a_" = "a_" /\ specCamelCase "a_" = "a"
  /\ ~ (forall s, toCamelCase s = specCamelCase s).
Proof.
  repeat split; try reflexivity.
  intros Hall. specialize (Hall "a_1"). discriminate Hall.
Qed.

(** C8.  The normalizer is idempotent: a result has no underscore followed
    by a letter of [a-z] left, so a second pass copies it. *)
Theorem toCamelCase_idempotent (s : string) :
  toCamelCase (toCamelCase s) = toCamelCase s.
Proof. apply toCamelCase_noMatch_id, toCamelCase_result_noMatch. Qed.

(** ** Arrays, sets and maps *)

Lemma includesStr_In (l : list string) (x : string) :
  includesStr l x = true <-> In x l.
Proof.
  unfold includesStr. rewrite existsb_exists. split.
  - intros (y & Hy & Hxy). apply String.eqb_eq in Hxy. now subst.
  - intros Hx. exists x. split; [exact Hx | apply String.eqb_refl].
Qed.

Lemma insertBy_perm {A : Type} (cmp : A -> A -> Z) (x : A) (l : list A) :
  Permutation (insertBy cmp x l) (x :: l).
Proof.
  induction l as [|y r IH]; simpl; [reflexivity|].
  destruct (cmp x y <=? 0); [reflexivity|].
  rewrite IH. apply perm_swap.
Qed.

Lemma sortBy_perm {A : Type} (cmp : A -> A -> Z) (l : list A) :
  Permutation (sortBy cmp l) l.
Proof.
  induction l as [|x r IH]; simpl; [reflexivity|].
  rewrite insertBy_perm. now constructor.
Qed.

Lemma sortBy_In {A : Type} (cmp : A -> A -> Z) (l : list A) (x : A) :
  In x (sortBy cmp l) <-> In x l.
Proof.
  split; apply Permutation_in;
    [apply sortBy_perm | symmetry; apply sortBy_perm].
Qed.

Lemma sortBy_length {A : Type} (cmp : A -> A -> Z) (l : list A) :
  length (sortBy cmp l) = length l.
Proof. apply Permutation_length, sortBy_perm. Qed.

Lemma insertBy_sorted {A : Type} (cmp : A -> A -> Z) (x : A) (l : list A) :
  totalCmp cmp ->
  Sorted (fun a b => cmp a b <= 0) l ->
  Sorted (fun a b => cmp a b <= 0) (insertBy cmp x l).
Proof.
  intros Htot Hs. induction Hs as [|y r Hr IH Hhd]; simpl.
  - repeat constructor.
  - destruct (cmp x y <=? 0) eqn:Hxy.
    + constructor; [now constructor|]. constructor. lia.
    + constructor; [exact IH|].
      assert (Hyx : cmp y x <= 0) by (apply Htot; lia).
      destruct r as [|z r']; simpl.
      * now constructor.
      * destruct (cmp x z <=? 0); constructor; [exact Hyx|].
        now inversion Hhd.
Qed.

Lemma sortBy_sorted {A : Type} (cmp : A -> A -> Z) (l : list A) :
  totalCmp cmp -> Sorted (fun a b => cmp a b <= 0) (sortBy cmp l).
Proof.
  intros Htot. induction l as [|x r IH]; simpl; [constructor|].
  now apply insertBy_sorted.
Qed.

Lemma Sorted_impl_In {A : Type} (R S : A -> A -> Prop) (l : list A) :
  (forall a b, In a l -> In b l -> R a b -> S a b) ->
  Sorted R l -> Sorted S l.
Proof.
  intros Himp Hs. induction Hs as [|x r Hr IH Hhd]; [constructor|].
  constructor.
  - apply IH. intros a b Ha Hb. apply Himp; now right.
  - destruct Hhd as [|y r' Hxy]; constructor.
    apply Himp; [now left | right; now left | exact Hxy].
Qed.

Lemma Sorted_firstn {A : Type} (R : A -> A -> Prop) (n : nat) (l : list A) :
  Sorted R l -> Sorted R (firstn n l).
Proof.
  intros Hs. revert n. induction Hs as [|x r Hr IH Hhd]; intros n.
  - rewrite firstn_nil. constructor.
  - destruct n as [|n]; [constructor|]. simpl. constructor; [apply IH|].
    destruct Hhd as [|y r' Hxy]; [rewrite firstn_nil; constructor|].
    destruct n; simpl; constructor. exact Hxy.
Qed.

(** [arr.slice(0, 15)] keeps the first fifteen elements. *)
Lemma jsSlice_0_15 {A : Type} (l : list A) : jsSlice l 0 15 = firstn 15 l.
Proof.
  unfold jsSlice, sliceIndex.
  change (0 <? 0) with false. change (15 <? 0) with false. cbv iota.
  rewrite (Z.min_l 0) by lia. simpl (Z.to_nat 0). rewrite skipn_O, Z.sub_0_r.
  destruct (Z.le_ge_cases 15 (Z.of_nat (length l))) as [Hle | Hge].
  - rewrite Z.min_l by lia. reflexivity.
  - rewrite Z.min_r by lia. rewrite Nat2Z.id.
    rewrite !firstn_all2; [reflexivity | lia | lia].
Qed.

Lemma lastWith_app1 {A : Type} (p : A -> bool) (l : list A) (x : A) :
  lastWith p (l ++ [x]) = if p x then Some x else lastWith p l.
Proof. unfold lastWith. rewrite rev_app_distr. reflexivity. Qed.

(** [lastWith] finds an element of the list that satisfies the predicate and
    has no such element behind it. *)
Lemma lastWith_Some {A : Type} (p : A -> bool) (l : list A) (a : A) :
  lastWith p l = Some a <->
  exists l1 l2, l = l1 ++ a :: l2 /\ p a = true /\ forallb (fun b => negb (p b)) l2 = true.
Proof.
  induction l as [|x r IH] using rev_ind.
  - split; [discriminate|]. intros (l1 & l2 & Heq & _). now destruct l1.
  - rewrite lastWith_app1. destruct (p x) eqn:Hx.
    + split.
      * intros [= <-]. exists r, []. auto.
      * intros (l1 & l2 & Heq & Ha & Hl2).
        destruct l2 as [|y l2' _] using rev_ind.
        -- apply app_inj_tail in Heq as [_ ->]. reflexivity.
        -- rewrite app_comm_cons, app_assoc in Heq.
           apply app_inj_tail in Heq as [_ ->].
           rewrite forallb_app in Hl2. simpl in Hl2. rewrite Hx in Hl2.
           rewrite andb_false_r in Hl2. discriminate.
    + rewrite IH. split.
      * intros (l1 & l2 & -> & Ha & Hl2). exists l1, (l2 ++ [x]).
        rewrite <- app_assoc. split; [reflexivity|]. split; [exact Ha|].
        rewrite forallb_app, Hl2. simpl. now rewrite Hx.
      * intros (l1 & l2 & Heq & Ha & Hl2).
        destruct l2 as [|y l2' _] using rev_ind.
        -- apply app_inj_tail in Heq as [_ ->]. congruence.
        -- rewrite app_comm_cons, app_assoc in Heq.
           apply app_inj_tail in Heq as [-> _].
           rewrite forallb_app in Hl2. apply andb_true_iff in Hl2 as [Hl2 _].
           exists l1, l2'. auto.
Qed.

Lemma lastWith_None {A : Type} (p : A -> bool) (l : list A) :
  lastWith p l = None <-> forall a, In a l -> p a = false.
Proof.
  unfold lastWith. split.
  - intros Hn a Ha. apply (find_none _ _ Hn). now apply in_rev in Ha.
  - intros Hall. destruct (List.find p (rev l)) as [a|] eqn:Hf; [|reflexivity].
    apply find_some in Hf as [Ha Hp]. apply in_rev in Ha.
    rewrite (Hall a Ha) in Hp. discriminate.
Qed.

(** A map filled by successive [set] calls holds, under each key, the value
    of the last call for that key. *)
Lemma foldl_insert_last {A V : Type} (key : A -> string) (val : A -> V)
    (l : list A) (m0 : gmap string V) (k : string) :
  foldl (fun m a => <[key a := val a]> m) m0 l !! k
  = match lastWith (fun a => String.eqb (key a) k) l with
    | Some a => Some (val a)
    | None => m0 !! k
    end.
Proof.
  induction l as [|x r IH] using rev_ind; [reflexivity|].
  rewrite foldl_app, lastWith_app1. simpl.
  destruct (String.eqb (key x) k) eqn:Hk.
  - apply String.eqb_eq in Hk. subst k. apply lookup_insert_eq.
  - apply String.eqb_neq in Hk. rewrite lookup_insert_ne by exact Hk. exact IH.
Qed.

Lemma classesMap_lookup (d : SDKData) (n : string) :
  classesMap d !! n = lastWith (fun c => String.eqb (className c) n) (classes d).
Proof.
  unfold classesMap.
  rewrite (foldl_insert_last className (fun c => c)), lookup_empty.
  now destruct (lastWith _ _).
Qed.

Lemma classesMap_is_Some (d : SDKData) (n : string) :
  is_Some (classesMap d !! n) <-> In n (map className (classes d)).
Proof.
  rewrite classesMap_lookup, in_map_iff. split.
  - intros [c Hc]. apply lastWith_Some in Hc as (l1 & l2 & Heq & Hn & _).
    apply String.eqb_eq in Hn. exists c. split; [exact Hn|].
    rewrite Heq. apply in_elt.
  - intros (c & Hn & Hc).
    destruct (lastWith _ _) as [c'|] eqn:Hl; [now exists c'|].
    rewrite lastWith_None in Hl. specialize (Hl c Hc). simpl in Hl.
    rewrite Hn, String.eqb_refl in Hl. discriminate.
Qed.

Lemma classesMap_lookup_In (d : SDKData) (n : string) (c : Class) :
  classesMap d !! n = Some c -> In c (classes d) /\ className c = n.
Proof.
  rewrite classesMap_lookup. intros Hc.
  apply lastWith_Some in Hc as (l1 & l2 & Heq & Hn & _).
  apply String.eqb_eq in Hn. split; [|exact Hn]. rewrite Heq. apply in_elt.
Qed.

Lemma setFrom_In (acc l : list string) (x : string) :
  In x (setFrom acc l) <-> In x acc \/ In x l.
Proof.
  revert acc. induction l as [|y r IH]; intros acc; simpl; [tauto|].
  destruct (existsb (String.eqb y) acc) eqn:He; rewrite IH.
  - apply includesStr_In in He. split; [tauto|].
    intros [Ha | [<- | Hr]]; auto.
  - rewrite in_app_iff. simpl. tauto.
Qed.

Lemma allClassNames_In (tsData pythonData : SDKData) (n : string) :
  In n (allClassNames tsData pythonData) <->
  In n (map className (classes tsData)) \/ In n (map className (classes pythonData)).
Proof.
  unfold allClassNames. rewrite setFrom_In, in_app_iff. simpl. tauto.
Qed.

(** ** 4.2 Cross-SDK Matcher *)

(** C1.  [getMethodComparisonStatus] is ["missing"] when a class is absent;
    with both classes present it is decided by whether the normalized name
    (the camelCase form for a Python origin, the name itself for a
    TypeScript origin) is the name of a TypeScript method other than
    [constructor] and whether it is the camelCase form of a Python method
    name.  With TypeScript methods [getPrice], [constructor] and the Python
    method [get_price], both ["getPrice"] (TypeScript origin) and
    ["get_price"] (Python origin) have status ["both"]. *)
Theorem getMethodComparisonStatus_by_membership
    (name sdkName normalized : string) (tsClass pythonClass : option Class) :
  (sdkName = "python" /\ normalized = toCamelCase name)
  \/ (sdkName = "ts" /\ normalized = name) ->
  ((tsClass = None \/ pythonClass = None) ->
   getMethodComparisonStatus name tsClass pythonClass sdkName = "missing")
  /\ (forall t p, tsClass = Some t -> pythonClass = Some p ->
      let inTs := exists m, In m (methods t) /\ methodName m <> "constructor"
                            /\ methodName m = normalized in
      let inPython := exists m, In m (methods p)
                                /\ toCamelCase (methodName m) = normalized in
      let status := getMethodComparisonStatus name tsClass pythonClass sdkName in
      (inTs /\ inPython -> status = "both")
      /\ (inTs /\ ~ inPython -> status = "ts-only")
      /\ (~ inTs /\ inPython -> status = "python-only")
      /\ (~ inTs /\ ~ inPython -> status = "missing"))
  /\ (forall t p : Class,
      map methodName (methods t) = ["getPrice"; "constructor"] ->
      map methodName (methods p) = ["get_price"] ->
      getMethodComparisonStatus "getPrice" (Some t) (Some p) "ts" = "both"
      /\ getMethodComparisonStatus "get_price" (Some t) (Some p) "python" = "both").
Proof.
  intros Hnorm. split; [|split].
  - intros [-> | ->]; [reflexivity | now destruct tsClass].
  - intros t p -> -> inTs inPython status.
    assert (Hn : (if String.eqb sdkName "python" then toCamelCase name else name)
                 = normalized).
    { destruct Hnorm as [[-> ->] | [-> ->]]; reflexivity. }
    assert (HTs : includesStr (map methodName (nonConstructors (methods t))) normalized
                  = true <-> inTs).
    { rewrite includesStr_In, in_map_iff. unfold inTs, nonConstructors.
      split.
      - intros (m & Hm & Hin). apply filter_In in Hin as [Hin Hc].
        exists m. split; [exact Hin|]. split; [|exact Hm].
        unfold isConstructor in Hc. apply negb_true_iff in Hc.
        now apply String.eqb_neq in Hc.
      - intros (m & Hin & Hc & Hm). exists m. split; [exact Hm|].
        apply filter_In. split; [exact Hin|].
        unfold isConstructor. apply negb_true_iff. now apply String.eqb_neq. }
    assert (HPy : includesStr (map toCamelCase (map methodName (methods p))) normalized
                  = true <-> inPython).
    { rewrite includesStr_In, map_map, in_map_iff. unfold inPython.
      split; intros (m & H1 & H2); exists m; tauto. }
    subst status. unfold getMethodComparisonStatus. rewrite Hn.
    destruct (includesStr (map methodName _) normalized) eqn:E1;
      destruct (includesStr (map toCamelCase _) normalized) eqn:E2; simpl;
      repeat split; try reflexivity; intros [H1 H2]; exfalso;
      try (apply HTs in H1; discriminate);
      try (apply HPy in H2; discriminate);
      try (apply H1, HTs; reflexivity);
      try (apply H2, HPy; reflexivity).
  - intros t p Ht Hp. unfold getMethodComparisonStatus, nonConstructors.
    destruct (methods t) as [|m1 [|m2 [|m3 r]]]; try discriminate Ht.
    destruct (methods p) as [|q1 [|q2 r]]; try discriminate Hp.
    simpl in Ht, Hp. injection Ht as Ht1 Ht2. injection Hp as Hp1.
    unfold isConstructor. simpl. rewrite Ht1, Ht2, Hp1. simpl.
    rewrite Ht1. split; reflexivity.
Qed.

Lemma getMethodComparisonStatus_by_membership_witness :
  getMethodComparisonStatus "getPrice" (Some fooTs) (Some fooPython) "ts" = "both"
  /\ getMethodComparisonStatus "get_price" (Some fooTs) (Some fooPython) "python" = "both".
Proof.
  refine (proj2 (proj2
    (getMethodComparisonStatus_by_membership
       "get_price" "python" "getPrice" (Some fooTs) (Some fooPython) _))
    fooTs fooPython _ _).
  - left. split; reflexivity.
  - reflexivity.
  - reflexivity.
Defined.

(** ** 4.4 Class-level filtering *)

Lemma startsWith_spec (pre s : string) :
  Str.startsWith pre s = true <-> exists post, s = String.append pre post.
Proof.
  revert s. induction pre as [|a p IH]; intros s; simpl.
  - split; [intros _; now exists s | reflexivity].
  - destruct s as [|b r].
    + split; [discriminate | intros [post Heq]; discriminate].
    + rewrite andb_true_iff, IH. split.
      * intros [Hab [post ->]]. apply Ascii.eqb_eq in Hab. subst. now exists post.
      * intros [post [= -> ->]]. split; [apply Ascii.eqb_refl | now exists post].
Qed.

(** [text.includes(needle)]: the needle occurs somewhere in the text. *)
Lemma includes_spec (s needle : string) :
  Str.includes s needle = true <->
  exists pre post, s = String.append pre (String.append needle post).
Proof.
  induction s as [|c r IH].
  - simpl. rewrite orb_false_r, startsWith_spec. split.
    + intros [post Heq]. now exists EmptyString, post.
    + intros ([|a pre] & post & Heq); [now exists post | discriminate].
  - cbn [Str.includes]. rewrite orb_true_iff, startsWith_spec, IH. split.
    + intros [[post Heq] | (pre & post & Heq)].
      * now exists EmptyString, post.
      * exists (String c pre), post. simpl. now rewrite Heq.
    + intros ([|a pre] & post & Heq).
      * left. now exists post.
      * right. injection Heq as -> ->. now exists pre, post.
Qed.

Lemma isEmptyString_spec (s : string) : isEmptyString s = true <-> s = "".
Proof. destruct s; simpl; split; congruence. Qed.

Lemma classFilter_spec (st : State) (tsData pythonData : SDKData) (n : string) :
  classFilter st tsData pythonData n = true <->
  notHiddenAsEmpty st (classesMap tsData !! n) (classesMap pythonData !! n)
  /\ presenceMatches st (classesMap tsData !! n) (classesMap pythonData !! n)
  /\ searchMatches st n (classesMap tsData !! n) (classesMap pythonData !! n).
Proof.
  unfold classFilter, notHiddenAsEmpty, presenceMatches, searchMatches.
  set (tsClass := classesMap tsData !! n).
  set (pythonClass := classesMap pythonData !! n).
  assert (Hts : 0 <= countOr0 methods tsClass) by (destruct tsClass; simpl; lia).
  assert (Hpy : 0 <= countOr0 methods pythonClass) by (destruct pythonClass; simpl; lia).
  assert (Hsearch :
    isEmptyString (searchTerm st)
    || Str.includes (Str.toLowerCase (searchText n tsClass pythonClass))
                    (Str.toLowerCase (searchTerm st)) = true <->
    searchTerm st = ""
    \/ exists pre post,
         Str.toLowerCase (searchText n tsClass pythonClass)
         = String.append pre (String.append (Str.toLowerCase (searchTerm st)) post)).
  { now rewrite orb_true_iff, isEmptyString_spec, includes_spec. }
  assert (Hempty :
    hideEmptyClasses st
    && ((countOr0 methods tsClass =? 0) && (countOr0 methods pythonClass =? 0)) = false <->
    hideEmptyClasses st = false
    \/ 0 < countOr0 methods tsClass \/ 0 < countOr0 methods pythonClass).
  { rewrite !andb_false_iff, !Z.eqb_neq. intuition lia. }
  destruct (hideEmptyClasses st
            && ((countOr0 methods tsClass =? 0) && (countOr0 methods pythonClass =? 0)))
    eqn:He.
  - split; [discriminate|]. intros [Ha _]. apply Hempty in Ha. discriminate.
  - rewrite andb_true_iff, Hsearch.
    assert (Htoggle :
      (if bool_decide (is_Some tsClass) && bool_decide (is_Some pythonClass) && showCommon st
       then true
       else if bool_decide (is_Some tsClass) && negb (bool_decide (is_Some pythonClass))
               && showTsOnly st then true
       else if negb (bool_decide (is_Some tsClass)) && bool_decide (is_Some pythonClass)
               && showPythonOnly st then true
       else false) = true <->
      (is_Some tsClass /\ is_Some pythonClass /\ showCommon st = true)
      \/ (is_Some tsClass /\ pythonClass = None /\ showTsOnly st = true)
      \/ (tsClass = None /\ is_Some pythonClass /\ showPythonOnly st = true)).
    { destruct tsClass as [t|], pythonClass as [p|];
        destruct (showCommon st), (showTsOnly st), (showPythonOnly st);
        cbn; split; try discriminate; try reflexivity;
        intuition (try discriminate; eauto;
                   match goal with
                   | Hs : is_Some None |- _ => now destruct Hs
                   end). }
    rewrite Htoggle. split; [intros [H1 H2] | intros (_ & H1 & H2)]; auto.
    split; [now apply Hempty | auto].
Qed.

(** *** The conditions of the filter over the datasets *)



















(** ** Constructors in the class filter and in the shared partition *)

(** C5 fails on the code.  A TypeScript class whose only method is its
    constructor has no method once constructors are left out, yet the
    hide-empty test of the class filter counts the constructor and keeps the
    class, and the search text of the filter contains the constructor's
    name.  In the enhanced variant the constructor also enters the shared
    partition of [getSortedMethods]: a Python method named [constructor] is
    hidden as shared although its comparison status is ["python-only"]. *)
Lemma constructor_counts_in_class_filter :
  nonConstructors (methods (class "Foo" [method "constructor" 3 8])) = []
  /\ filteredClassNames (P := examplePlatform) (tsOnlyState "") ctorOnlyTs (mkSDKData [])
     = ["Foo"]
  /\ filteredClassNamesSimple (tsOnlyState "") ctorOnlyTs (mkSDKData []) = ["Foo"]
  /\ filteredClassNames (P := examplePlatform) (tsOnlyState "struct") ctorOnlyTs (mkSDKData [])
     = ["Foo"]
  /\ (let (r, h) := getSortedMethods (P := examplePlatform) hideSharedState
                      [ctorTsObj] [ctorPythonObj] ctorPythonObj "python" ctorHeap in
      h !! r = Some [method "run" 3 4])
  /\ getMethodComparisonStatus "constructor"
       (Some (deref ctorHeap ctorTsObj)) (Some (deref ctorHeap ctorPythonObj)) "python"
     = "python-only".
Proof. repeat split; vm_compute; reflexivity. Qed.

(** ** In-place sorting of the supplied data *)

(** C3 fails on the code.  For the Python side [getSortedMethods] sorts the
    class's own [methods] array: in the simple variant always, in the
    enhanced variant when the other SDK has no class of that name.  After
    the call the supplied Python data holds the methods in sorted order. *)
Lemma getSortedMethods_sorts_python_data_in_place :
  let before := derefData unsortedHeap [barObj] in
  let (r, h) := getSortedMethods (P := examplePlatform) initialState
                  [] [barObj] barObj "python" unsortedHeap in
  let (r', h') := getSortedMethodsSimple (P := examplePlatform)
                    barObj "python" unsortedHeap in
  r = methods barObj /\ r' = methods barObj
  /\ map methods (classes before) = [[method "b" 1 2; method "a" 3 9]]
  /\ map methods (classes (derefData h [barObj])) = [[method "a" 3 9; method "b" 1 2]]
  /\ map methods (classes (derefData h' [barObj])) = [[method "a" 3 9; method "b" 1 2]]
  /\ derefData h [barObj] <> before /\ derefData h' [barObj] <> before.
Proof. vm_compute. repeat split; try reflexivity; discriminate. Qed.

(** ** 4.5 Ranking Engine *)

Lemma foldl_push_flat {A B : Type} (g : B -> list A) (body : list A -> B -> list A)
    (l : list B) (acc : list A) :
  (forall acc b, body acc b = acc ++ g b) ->
  foldl body acc l = acc ++ flat_map g l.
Proof.
  intros Hbody. revert acc. induction l as [|b r IH]; intros acc; simpl.
  - now rewrite app_nil_r.
  - now rewrite IH, Hbody, <- app_assoc.
Qed.

(** The two nested loops push, class by class and method by method, what
    the body pushes for each method. *)
Lemma forEachMethod_flat {A : Type} (d : SDKData)
    (g : Class -> Method -> list A) (body : list A -> Class -> Method -> list A)
    (acc : list A) :
  (forall acc cls m, body acc cls m = acc ++ g cls m) ->
  forEachMethod d body acc
  = acc ++ flat_map (fun cls => flat_map (g cls) (methods cls)) (classes d).
Proof.
  intros Hbody. unfold forEachMethod.
  apply (foldl_push_flat (fun cls => flat_map (g cls) (methods cls))).
  intros acc' cls. now apply foldl_push_flat.
Qed.

Lemma flat_map_if {A B : Type} (p : A -> bool) (f : A -> B) (l : list A) :
  flat_map (fun a => if p a then [f a] else []) l = map f (List.filter p l).
Proof.
  induction l as [|a r IH]; simpl; [reflexivity|].
  destruct (p a); simpl; now rewrite IH.
Qed.

Lemma flat_map_single {A B : Type} (f : A -> B) (l : list A) :
  flat_map (fun a => [f a]) l = map f l.
Proof. induction l as [|a r IH]; simpl; [reflexivity | now rewrite IH]. Qed.

Lemma flat_map_ext_In {A B : Type} (f g : A -> list B) (l : list A) :
  (forall a, In a l -> f a = g a) -> flat_map f l = flat_map g l.
Proof.
  induction l as [|a r IH]; intros Hext; simpl; [reflexivity|].
  rewrite (Hext a) by now left. rewrite IH; [reflexivity|].
  intros b Hb. apply Hext. now right.
Qed.


(** Where a present line number is not zero, [||] and [??] agree. *)
Lemma methodLength_spec (m : Method) :
  methodLinesOk m -> methodLength m = specLength m.
Proof.
  unfold methodLinesOk, lineOk, methodLength, specLength, orElse.
  intros (Hl & Hs & He).
  destruct (methodLine m) as [l|], (startLine m) as [a|], (endLine m) as [b|];
    simpl;
    repeat match goal with
           | H : ?n <> 0 |- _ => apply Z.eqb_neq in H; rewrite H; clear H
           end; reflexivity.
Qed.

(** Without any line information a method counts one line. *)
Lemma methodLength_no_lines (m : Method) :
  methodLine m = None -> startLine m = None -> endLine m = None ->
  methodLength m = 1 /\ specLength m = 1.
Proof. unfold methodLength, specLength. now intros -> -> ->. Qed.

Lemma methodLengths_flat (tsData pythonData : SDKData) :
  methodLengths tsData pythonData
  = flat_map (fun cls =>
                map (fun m => mkLengthEntry m (className cls) "ts" (methodLength m))
                    (nonConstructors (methods cls)))
             (classes tsData)
    ++ flat_map (fun cls =>
                   map (fun m => mkLengthEntry m (className cls) "python" (methodLength m))
                       (methods cls))
                (classes pythonData).
Proof.
  unfold methodLengths.
  rewrite (forEachMethod_flat pythonData
             (fun cls m => [mkLengthEntry m (className cls) "python" (methodLength m)]))
    by reflexivity.
  rewrite (forEachMethod_flat tsData
             (fun cls m => if negb (isConstructor m)
                           then [mkLengthEntry m (className cls) "ts" (methodLength m)]
                           else []))
    by (intros acc cls m; destruct (isConstructor m); simpl;
        [now rewrite app_nil_r | reflexivity]).
  simpl. apply (f_equal2 (@app LengthEntry)).
  - apply flat_map_ext. intros cls. apply flat_map_if.
  - apply flat_map_ext. intros cls. apply flat_map_single.
Qed.

Lemma byLengthEntry_total : totalCmp (fun a b => le_length b - le_length a).
Proof. intros x y. lia. Qed.

Lemma methodLengths_candidates (tsData pythonData : SDKData) :
  dataLinesOk tsData -> dataLinesOk pythonData ->
  methodLengths tsData pythonData = longestCandidates tsData pythonData.
Proof.
  intros Hts Hpy. rewrite methodLengths_flat. unfold longestCandidates.
  apply (f_equal2 (@app LengthEntry)); apply flat_map_ext_In; intros cls Hcls;
    apply map_ext_in; intros m Hm; f_equal; apply methodLength_spec.
  - apply filter_In in Hm as [Hm _]. exact (Hts cls m Hcls Hm).
  - exact (Hpy cls m Hcls Hm).
Qed.

Lemma nonConstructors_In (ms : list Method) (m : Method) :
  In m (nonConstructors ms) <-> In m ms /\ methodName m <> "constructor".
Proof.
  unfold nonConstructors, isConstructor.
  rewrite filter_In, negb_true_iff, String.eqb_neq. tauto.
Qed.

Lemma methodLengths_In (tsData pythonData : SDKData) (e : LengthEntry) :
  In e (methodLengths tsData pythonData) <->
  (exists cls m, In cls (classes tsData) /\ In m (methods cls)
                 /\ methodName m <> "constructor"
                 /\ e = mkLengthEntry m (className cls) "ts" (methodLength m))
  \/ (exists cls m, In cls (classes pythonData) /\ In m (methods cls)
                    /\ e = mkLengthEntry m (className cls) "python" (methodLength m)).
Proof.
  rewrite methodLengths_flat, in_app_iff, !in_flat_map. split.
  - intros [(cls & Hc & He) | (cls & Hc & He)];
      apply in_map_iff in He as (m & <- & Hm).
    + apply nonConstructors_In in Hm as [Hm Hn]. left. now exists cls, m.
    + right. now exists cls, m.
  - intros [(cls & m & Hc & Hm & Hn & ->) | (cls & m & Hc & Hm & ->)].
    + left. exists cls. split; [exact Hc|].
      apply in_map_iff. exists m. split; [reflexivity|].
      now apply nonConstructors_In.
    + right. exists cls. split; [exact Hc|].
      apply in_map_iff. now exists m.
Qed.

Lemma flat_map_length_sum {A B : Type} (f : A -> list B) (g : A -> nat) (l : list A) :
  (forall a, length (f a) = g a) ->
  length (flat_map f l) = list_sum (map g l).
Proof.
  intros Hfg. induction l as [|a r IH]; simpl; [reflexivity|].
  now rewrite length_app, Hfg, IH.
Qed.

(** As many candidates as there are TypeScript methods other than
    constructors and Python methods. *)
Lemma methodLengths_length (tsData pythonData : SDKData) :
  length (methodLengths tsData pythonData)
  = (list_sum (map (fun cls => length (nonConstructors (methods cls))) (classes tsData))
     + list_sum (map (fun cls => length (methods cls)) (classes pythonData)))%nat.
Proof.
  rewrite methodLengths_flat, length_app.
  f_equal; apply flat_map_length_sum; intros cls; apply length_map.
Qed.

(** C7.  For every pair of datasets the longest-methods leaderboard ranks
    every method of both SDKs except the TypeScript methods named
    [constructor]: the entries it sorts are exactly these, as many as there
    are such methods; the board is the first fifteen entries (all of them
    when there are fewer) of the entries sorted by length, longest first;
    the computation is a total function.  A method's length is
    [end - start + 1], where a missing [startLine] or [endLine] falls back
    to [line] and a missing [line] to 1: a method without line information
    counts one line, and on methods whose line numbers are 1-based (a field
    that is present is not 0) the length computed is that of section 4.4, so
    that on such data the entries are the candidates of the specification. *)
Theorem findLongestMethods_top15 (tsData pythonData : SDKData) :
  (forall e, In e (methodLengths tsData pythonData) <->
     (exists cls m, In cls (classes tsData) /\ In m (methods cls)
                    /\ methodName m <> "constructor"
                    /\ e = mkLengthEntry m (className cls) "ts" (methodLength m))
     \/ (exists cls m, In cls (classes pythonData) /\ In m (methods cls)
                       /\ e = mkLengthEntry m (className cls) "python" (methodLength m)))
  /\ length (methodLengths tsData pythonData)
     = (list_sum (map (fun cls => length (nonConstructors (methods cls)))
                      (classes tsData))
        + list_sum (map (fun cls => length (methods cls)) (classes pythonData)))%nat
  /\ (exists sorted,
       Permutation sorted (methodLengths tsData pythonData)
       /\ Sorted (fun a b => le_length b <= le_length a) sorted
       /\ findLongestMethods tsData pythonData = firstn 15 sorted)
  /\ length (findLongestMethods tsData pythonData)
     = Nat.min 15 (length (methodLengths tsData pythonData))
  /\ (forall m, methodLine m = None -> startLine m = None -> endLine m = None ->
                methodLength m = 1)
  /\ (forall m, methodLinesOk m -> methodLength m = specLength m)
  /\ (dataLinesOk tsData -> dataLinesOk pythonData ->
      methodLengths tsData pythonData = longestCandidates tsData pythonData).
Proof.
  repeat apply conj.
  - apply methodLengths_In.
  - apply methodLengths_length.
  - exists (sortBy (fun a b => le_length b - le_length a)
                   (methodLengths tsData pythonData)).
    split; [|split].
    + apply sortBy_perm.
    + eapply Sorted_impl_In; [|apply sortBy_sorted, byLengthEntry_total].
      intros a b _ _ Hab. simpl in Hab. lia.
    + apply jsSlice_0_15.
  - unfold findLongestMethods.
    now rewrite jsSlice_0_15, length_firstn, sortBy_length.
  - intros m Hl Hs He. now apply methodLength_no_lines.
  - apply methodLength_spec.
  - apply methodLengths_candidates.
Qed.

Lemma findLongestMethods_top15_witness :
  methodLength (method "compute_x" 5 50) = specLength (method "compute_x" 5 50)
  /\ methodLengths computeTs computePython = longestCandidates computeTs computePython.
Proof.
  destruct (findLongestMethods_top15 computeTs computePython)
    as (_ & _ & _ & _ & _ & Hspec & Hcand).
  split.
  - apply Hspec. repeat split; discriminate.
  - apply Hcand; intros c m Hc Hm; simpl in Hc;
      destruct Hc as [<- | []]; simpl in Hm;
      repeat (destruct Hm as [<- | Hm]; [repeat split; discriminate|]);
      destruct Hm.
Defined.

(** With a line number 0 the two fallbacks differ: [0 || 1] is 1. *)
Remark methodLength_zero_start :
  let m := mkMethod "f" "method" None None None None None (Some 0) (Some 3) in
  methodLength m = 3 /\ specLength m = 4.
Proof. split; reflexivity. Qed.

Lemma foldl_nested_pairs {S : Type} (step : S -> Class -> Method -> S)
    (d : SDKData) (s0 : S) :
  foldl (fun s cls => foldl (fun s m => step s cls m) s (methods cls)) s0 (classes d)
  = foldl (fun s cm => step s (fst cm) (snd cm)) s0 (allPairs d).
Proof.
  unfold allPairs. generalize (classes d) as cs. intros cs. revert s0.
  induction cs as [|cls r IH]; intros s0; simpl; [reflexivity|].
  rewrite foldl_app, IH. f_equal.
  generalize (methods cls) as ms. intros ms. revert s0.
  induction ms as [|m ms IHm]; intros s0; simpl; [reflexivity | apply IHm].
Qed.

Lemma foldl_filter {S A : Type} (p : A -> bool) (f : S -> A -> S) (l : list A) (s : S) :
  foldl (fun s a => if p a then f s a else s) s l = foldl f s (List.filter p l).
Proof.
  revert s. induction l as [|a r IH]; intros s; simpl; [reflexivity|].
  destruct (p a); simpl; apply IH.
Qed.

(** The TypeScript table holds, under a key, the last TypeScript method
    other than a constructor that has this key. *)
Lemma tsMethodsIndex_lookup (tsData : SDKData) (k : string) :
  tsMethodsIndex tsData !! k
  = (fun cm => (snd cm, className (fst cm))) <$> lastUnderKey (tsPairs tsData) k.
Proof.
  unfold tsMethodsIndex, tsPairs, lastUnderKey.
  rewrite (foldl_nested_pairs
             (fun idx cls m => if negb (isConstructor m)
                               then <[ratioKey cls m := (m, className cls)]> idx
                               else idx)).
  rewrite (foldl_filter (fun cm => negb (isConstructor (snd cm)))
             (fun idx cm => <[ratioKey (fst cm) (snd cm) := (snd cm, className (fst cm))]> idx)).
  rewrite (foldl_insert_last (fun cm => ratioKey (fst cm) (snd cm))
             (fun cm => (snd cm, className (fst cm)))).
  rewrite lookup_empty. now destruct (lastWith _ _).
Qed.

Lemma pythonMethodsIndex_lookup (pythonData : SDKData) (k : string) :
  pythonMethodsIndex pythonData !! k
  = (fun cm => (snd cm, className (fst cm))) <$> lastUnderKey (allPairs pythonData) k.
Proof.
  unfold pythonMethodsIndex, lastUnderKey.
  rewrite (foldl_nested_pairs
             (fun idx cls m => <[ratioKey cls m := (m, className cls)]> idx)).
  rewrite (foldl_insert_last (fun cm => ratioKey (fst cm) (snd cm))
             (fun cm => (snd cm, className (fst cm)))).
  rewrite lookup_empty. now destruct (lastWith _ _).
Qed.

(** The entries of the Python-exceeds-TypeScript board before sorting. *)
Lemma methodRatios_In (tsData pythonData : SDKData) (e : RatioEntry) :
  In e (methodRatios tsData pythonData) <->
  exists cls m c t,
    In cls (classes pythonData) /\ In m (methods cls)
    /\ lastUnderKey (tsPairs tsData) (ratioKey cls m) = Some (c, t)
    /\ methodLength t < methodLength m
    /\ e = mkRatioEntry (methodName m) (className cls) (methodLength m) (methodLength t)
                        (jsDiv (methodLength m) (methodLength t)).
Proof.
  unfold methodRatios.
  rewrite (forEachMethod_flat pythonData
    (fun cls m =>
       match tsMethodsIndex tsData !! ratioKey cls m with
       | Some tsMethod =>
           if methodLength (fst tsMethod) <? methodLength m
           then [mkRatioEntry (methodName m) (className cls) (methodLength m)
                   (methodLength (fst tsMethod))
                   (jsDiv (methodLength m) (methodLength (fst tsMethod)))]
           else []
       | None => []
       end)).
  2:{ intros acc cls m. destruct (tsMethodsIndex tsData !! ratioKey cls m) as [t|];
        [destruct (_ <? _)|]; simpl; now rewrite ?app_nil_r. }
  simpl. rewrite in_flat_map. split.
  - intros (cls & Hc & He). apply in_flat_map in He as (m & Hm & He).
    rewrite tsMethodsIndex_lookup in He.
    destruct (lastUnderKey (tsPairs tsData) (ratioKey cls m)) as [[c t]|] eqn:Hl;
      simpl in He; [|destruct He].
    destruct (methodLength t <? methodLength m) eqn:Hlt; [|destruct He].
    destruct He as [<- | []]. apply Z.ltb_lt in Hlt.
    exists cls, m, c, t. auto.
  - intros (cls & m & c & t & Hc & Hm & Hl & Hlt & ->).
    exists cls. split; [exact Hc|]. apply in_flat_map. exists m. split; [exact Hm|].
    rewrite tsMethodsIndex_lookup, Hl. simpl.
    apply Z.ltb_lt in Hlt. rewrite Hlt. now left.
Qed.

(** The entries of the TypeScript-exceeds-Python board before sorting. *)
Lemma tsMethodRatios_In (tsData pythonData : SDKData) (e : RatioEntry) :
  In e (tsMethodRatios tsData pythonData) <->
  exists cls t c m,
    In cls (classes tsData) /\ In t (methods cls) /\ methodName t <> "constructor"
    /\ lastUnderKey (allPairs pythonData) (ratioKey cls t) = Some (c, m)
    /\ methodLength m < methodLength t
    /\ e = mkRatioEntry (methodName t) (className cls) (methodLength m) (methodLength t)
                        (jsDiv (methodLength t) (methodLength m)).
Proof.
  unfold tsMethodRatios.
  rewrite (forEachMethod_flat tsData
    (fun cls t =>
       if negb (isConstructor t) then
         match pythonMethodsIndex pythonData !! ratioKey cls t with
         | Some pythonMethod =>
             if methodLength (fst pythonMethod) <? methodLength t
             then [mkRatioEntry (methodName t) (className cls)
                     (methodLength (fst pythonMethod)) (methodLength t)
                     (jsDiv (methodLength t) (methodLength (fst pythonMethod)))]
             else []
         | None => []
         end
       else [])).
  2:{ intros acc cls t. destruct (isConstructor t); simpl; [now rewrite app_nil_r|].
      destruct (pythonMethodsIndex pythonData !! ratioKey cls t) as [m|];
        [destruct (_ <? _)|]; simpl; now rewrite ?app_nil_r. }
  simpl. rewrite in_flat_map. split.
  - intros (cls & Hc & He). apply in_flat_map in He as (t & Ht & He).
    destruct (isConstructor t) eqn:Hctor; simpl in He; [destruct He|].
    rewrite pythonMethodsIndex_lookup in He.
    destruct (lastUnderKey (allPairs pythonData) (ratioKey cls t)) as [[c m]|] eqn:Hl;
      simpl in He; [|destruct He].
    destruct (methodLength m <? methodLength t) eqn:Hlt; [|destruct He].
    destruct He as [<- | []]. apply Z.ltb_lt in Hlt.
    exists cls, t, c, m. repeat split; auto.
    unfold isConstructor in Hctor. now apply String.eqb_neq in Hctor.
  - intros (cls & t & c & m & Hc & Ht & Hn & Hl & Hlt & ->).
    exists cls. split; [exact Hc|]. apply in_flat_map. exists t. split; [exact Ht|].
    unfold isConstructor. apply String.eqb_neq in Hn. rewrite Hn. simpl.
    rewrite pythonMethodsIndex_lookup, Hl. simpl.
    apply Z.ltb_lt in Hlt. rewrite Hlt. now left.
Qed.

Lemma byRatio_total : totalCmp byRatio.
Proof.
  intros x y. unfold byRatio.
  destruct (ratio x) as [a| | |], (ratio y) as [b| | |]; simpl; lia.
Qed.

Lemma byRatio_ratioGe (a b : RatioEntry) :
  ratio a <> NaN -> ratio b <> NaN ->
  byRatio a b <= 0 -> ratioGe (ratio a) (ratio b).
Proof.
  unfold byRatio. intros Ha Hb.
  destruct (ratio a) as [x| | |], (ratio b) as [y| | |]; simpl;
    try congruence; try exact (fun _ => I); try lia.
  unfold Qle, Qminus, Qplus, Qopp. simpl. lia.
Qed.

Lemma jsDiv_not_NaN (p t : Z) : t < p -> jsDiv p t <> NaN.
Proof.
  intros Hlt. unfold jsDiv. destruct (t =? 0) eqn:Ht; [|discriminate].
  apply Z.eqb_eq in Ht. subst t.
  destruct (0 <? p) eqn:Hp; [discriminate|]. apply Z.ltb_ge in Hp. lia.
Qed.

Lemma firstn_In {A : Type} (n : nat) (l : list A) (x : A) :
  In x (firstn n l) -> In x l.
Proof. intros Hx. rewrite <- (firstn_skipn n l). apply in_app_iff. now left. Qed.



Lemma ratio_board_In (entries : list RatioEntry) (e : RatioEntry) :
  In e (jsSlice (sortBy byRatio entries) 0 15) -> In e entries.
Proof. rewrite jsSlice_0_15. intros He. now apply firstn_In, sortBy_In in He. Qed.




(** ** 4.6 Snippet Fetcher *)

Section FetcherProperties.
Context `{P : Platform}.
Variable remote : string -> FetchResult.
Variables others1 others2 : State -> State.
Variable enhanced : bool.
Variables filePath sdkName key : string.
Variables startLine endLine : Z.

Let run (s : State) : (Exn + unit) * State :=
  fetchCodeSnippet remote others1 others2 enhanced
                   filePath startLine endLine sdkName key s.

(** The last thing a fetch does is to take its key out of the in-flight
    set, whatever happened before. *)
Lemma fetch_clears_loading (s : State) : key ∉ loadingSnippets (snd (run s)).
Proof.
  unfold run, fetchCodeSnippet, tryCatchFinally, effBind, setLoadingSnippets.
  simpl.
  match goal with
  | |- context [let (r, s1) := ?body in _] => destruct body as [r s1]
  end.
  simpl. intros Hin. apply elem_of_difference in Hin as [_ Hnot].
  apply Hnot, elem_of_singleton. reflexivity.
Qed.

(** No exception leaves [fetchCodeSnippet]. *)
Lemma fetch_returns (s : State) : fst (run s) = inr tt.
Proof.
  unfold run, fetchCodeSnippet, tryCatchFinally, effBind, setLoadingSnippets,
    await, throw, effRet, setCodeSnippets, consoleError, fromOption.
  simpl.
  destruct (remote _) as [|ok status json]; simpl; [reflexivity|].
  destruct ok; simpl; [|reflexivity].
  destruct json as [data|]; simpl; [|reflexivity].
  destruct (atob data); reflexivity.
Qed.

(** A failed fetch writes nothing into the cache: the cache is what the
    other handlers left. *)
Lemma fetch_failure_cache (s : State) :
  fetchFails (remote (snippetUrl filePath sdkName)) ->
  (forall s0, codeSnippets (others1 s0) !! key = codeSnippets s0 !! key) ->
  (forall s0, codeSnippets (others2 s0) !! key = codeSnippets s0 !! key) ->
  codeSnippets (snd (run s)) !! key = codeSnippets s !! key.
Proof.
  intros Hfail Ho1 Ho2.
  unfold run, fetchCodeSnippet, tryCatchFinally, effBind, setLoadingSnippets,
    await, throw, effRet, setCodeSnippets, consoleError, fromOption.
  unfold fetchFails, snippetUrl in Hfail. simpl.
  destruct (remote _) as [|ok status json]; simpl.
  - now rewrite Ho1.
  - destruct ok; simpl; [|now rewrite Ho1].
    destruct json as [data|]; simpl; [|now rewrite Ho2, Ho1].
    destruct Hfail as [Hf | [Hf | (d & [= <-] & Hd)]]; try discriminate.
    rewrite Hd. simpl. now rewrite Ho2, Ho1.
Qed.
End FetcherProperties.

(** C9.  When the response is not a success, or the request or the decoding
    throws, [fetchCodeSnippet] catches the error (it returns normally) and
    leaves the cache entry of the requested key as it was: a key without an
    entry before the fetch has none after it.  This holds in both variants
    and whatever the other handlers do meanwhile, as long as they leave the
    entry of that key alone. *)
Theorem fetch_failure_leaves_cache_entry_absent `{P : Platform}
    (remote : string -> FetchResult) (others1 others2 : State -> State)
    (enhanced : bool) (filePath sdkName key : string) (startLine endLine : Z)
    (s : State) :
  fetchFails (remote (snippetUrl filePath sdkName)) ->
  (forall s0, codeSnippets (others1 s0) !! key = codeSnippets s0 !! key) ->
  (forall s0, codeSnippets (others2 s0) !! key = codeSnippets s0 !! key) ->
  let result := fetchCodeSnippet remote others1 others2 enhanced
                                 filePath startLine endLine sdkName key s in
  fst result = inr tt
  /\ codeSnippets (snd result) !! key = codeSnippets s !! key
  /\ (codeSnippets s !! key = None -> codeSnippets (snd result) !! key = None).
Proof.
  intros Hfail Ho1 Ho2 result. split; [apply fetch_returns|].
  assert (Hkey : codeSnippets (snd result) !! key = codeSnippets s !! key)
    by now apply fetch_failure_cache.
  split; [exact Hkey | intros Hnone; now rewrite Hkey].
Qed.

Lemma fetch_failure_leaves_cache_entry_absent_witness :
  let result := fetchCodeSnippet (P := examplePlatform)
                  (fun _ => Response false 404 None) (fun s => s) (fun s => s) true
                  "protocol-v2/sdk/src/foo.ts" 10 12 "ts" "ts-Foo-bar" initialState in
  fst result = inr tt
  /\ codeSnippets (snd result) !! "ts-Foo-bar" = codeSnippets initialState !! "ts-Foo-bar"
  /\ (codeSnippets initialState !! "ts-Foo-bar" = None ->
      codeSnippets (snd result) !! "ts-Foo-bar" = None).
Proof.
  apply (fetch_failure_leaves_cache_entry_absent (P := examplePlatform)
           (fun _ => Response false 404 None) (fun s => s) (fun s => s) true
           "protocol-v2/sdk/src/foo.ts" "ts" "ts-Foo-bar" 10 12 initialState).
  - simpl. left. reflexivity.
  - reflexivity.
  - reflexivity.
Defined.

(** C10.  When a fetch completes, by success, by a response that is not a
    success, or by an exception of the request or the decoding, its key is
    not in the in-flight set, and the call returns normally; in both
    variants and whatever the other handlers did meanwhile. *)
Theorem fetch_completion_clears_loading `{P : Platform}
    (remote : string -> FetchResult) (others1 others2 : State -> State)
    (enhanced : bool) (filePath sdkName key : string) (startLine endLine : Z)
    (s : State) :
  let result := fetchCodeSnippet remote others1 others2 enhanced
                                 filePath startLine endLine sdkName key s in
  fst result = inr tt /\ key ∉ loadingSnippets (snd result).
Proof.
  intros result. split; [apply fetch_returns | apply fetch_clears_loading].
Qed.

(** ** What [getSortedMethods] leaves alone *)

Lemma frame_refl (h : Heap) : frame h h.
Proof. split; [reflexivity | auto]. Qed.

Lemma frame_insert_outside (h h1 : Heap) (r : Ref) (l : list Method) :
  frame h h1 -> r ∉ dom h -> frame h (<[r := l]> h1).
Proof.
  intros [Hdom Hsame] Hr. split.
  - rewrite dom_insert_L. set_solver.
  - intros r' Hr'. rewrite lookup_insert_ne; [now apply Hsame|].
    intros ->. contradiction.
Qed.

Lemma keeps_ret {A : Type} (h : Heap) (a : A) (post : A -> Prop) :
  post a -> keeps h (ret a) post.
Proof. intros Ha h1 Hf. now split. Qed.

Lemma keeps_bind {A B : Type} (h : Heap) (m : HeapM A) (k : A -> HeapM B)
    (P : A -> Prop) (Q : B -> Prop) :
  keeps h m P -> (forall a, P a -> keeps h (k a) Q) -> keeps h (bind m k) Q.
Proof.
  intros Hm Hk h1 Hf. unfold bind. specialize (Hm h1 Hf).
  destruct (m h1) as [a h2]. simpl in Hm. destruct Hm as [Hf2 Ha].
  exact (Hk a Ha h2 Hf2).
Qed.

Lemma keeps_readArr (h : Heap) (r : Ref) : keeps h (readArr r) (fun _ => True).
Proof. intros h1 Hf. now split. Qed.

Lemma keeps_newArr (h : Heap) (l : list Method) :
  keeps h (newArr l) (fun r => r ∉ dom h).
Proof.
  intros h1 Hf. unfold newArr. simpl.
  assert (Hfresh : fresh (dom h1) ∉ dom h).
  { intros Hin. apply (is_fresh (dom h1)). destruct Hf as [Hdom _]. set_solver. }
  split; [now apply frame_insert_outside | exact Hfresh].
Qed.

Lemma keeps_sortArr (h : Heap) (cmp : Method -> Method -> Z) (r : Ref) :
  r ∉ dom h -> keeps h (sortArr cmp r) (fun r' => r' ∉ dom h).
Proof.
  intros Hr h1 Hf. unfold sortArr. simpl.
  split; [now apply frame_insert_outside | exact Hr].
Qed.

Lemma keeps_filterArr (h : Heap) (p : Method -> bool) (r : Ref) :
  keeps h (filterArr p r) (fun r' => r' ∉ dom h).
Proof.
  unfold filterArr. eapply keeps_bind; [apply keeps_readArr|].
  intros l _. apply keeps_newArr.
Qed.

Lemma keeps_weaken {A : Type} (h : Heap) (m : HeapM A) (P Q : A -> Prop) :
  keeps h m P -> (forall a, P a -> Q a) -> keeps h m Q.
Proof.
  intros Hm HPQ h1 Hf. destruct (Hm h1 Hf) as [Hf2 Ha]. split; auto.
Qed.

(** The arrays of a dataset that lie in [h] read the same in an extension. *)
Lemma derefData_frame (h h' : Heap) (d : list ClassObj) :
  frame h h' -> (forall c, In c d -> methods c ∈ dom h) ->
  derefData h' d = derefData h d.
Proof.
  intros [_ Hsame] Hd. unfold derefData. f_equal.
  apply map_ext_in. intros c Hc. unfold deref. now rewrite (Hsame _ (Hd c Hc)).
Qed.

Section SortedMethodsFrame.
Context `{P : Platform}.
Variable st : State.
Variables tsData pythonData : list ClassObj.

(** The part of [getSortedMethods] that runs when the other SDK has the
    class works on fresh arrays only. *)
Lemma partition_branch_keeps (h : Heap) (methodsArr : Ref)
    (isShared : Method -> bool) (shouldHideCommon shouldSortByLength : bool) :
  keeps h
    (let* ms := readArr methodsArr in
     let* sharedMethods := newArr (List.filter isShared ms) in
     let* nonSharedMethods := newArr (List.filter (fun m => negb (isShared m)) ms) in
     let* shared := readArr sharedMethods in
     let* nonShared := readArr nonSharedMethods in
     let* filteredMethods := (if shouldHideCommon then newArr nonShared
                              else newArr (shared ++ nonShared)) in
     if shouldSortByLength then sortArr byLength filteredMethods
     else if shouldHideCommon then sortArr byName filteredMethods
     else
       let* sharedFiltered := newArr shared in
       let* nonSharedFiltered := newArr nonShared in
       let* _ := sortArr byName sharedFiltered in
       let* _ := sortArr byName nonSharedFiltered in
       let* a := readArr sharedFiltered in
       let* b := readArr nonSharedFiltered in
       newArr (a ++ b))%heap
    (fun r => r ∉ dom h).
Proof.
  eapply keeps_bind; [apply keeps_readArr | intros ms _].
  eapply keeps_bind; [apply keeps_newArr | intros sharedMethods _].
  eapply keeps_bind; [apply keeps_newArr | intros nonSharedMethods _].
  eapply keeps_bind; [apply keeps_readArr | intros shared _].
  eapply keeps_bind; [apply keeps_readArr | intros nonShared _].
  eapply keeps_bind;
    [destruct shouldHideCommon; apply keeps_newArr | intros filteredMethods Hfm].
  destruct shouldSortByLength; [now apply keeps_sortArr|].
  destruct shouldHideCommon; [now apply keeps_sortArr|].
  eapply keeps_bind; [apply keeps_newArr | intros sharedFiltered Hsf].
  eapply keeps_bind; [apply keeps_newArr | intros nonSharedFiltered Hnf].
  eapply keeps_bind; [now apply keeps_sortArr | intros _ _].
  eapply keeps_bind; [now apply keeps_sortArr | intros _ _].
  eapply keeps_bind; [apply keeps_readArr | intros a _].
  eapply keeps_bind; [apply keeps_readArr | intros b _].
  apply keeps_newArr.
Qed.

(** For the TypeScript side, and for the Python side when the TypeScript
    data has the class, [getSortedMethods] changes no array that existed
    before the call. *)
Lemma getSortedMethods_frame (sdkClass : ClassObj) (sdkName : string) (h : Heap) :
  sdkName = "ts"
  \/ (sdkName = "python"
      /\ is_Some (classesMap (derefData h tsData) !! className sdkClass)) ->
  frame h (snd (getSortedMethods st tsData pythonData sdkClass sdkName h)).
Proof.
  intros Hcase.
  assert (Hk : keeps h (getSortedMethods st tsData pythonData sdkClass sdkName)
                 (fun _ => True) \/
               exists c, classesMap (derefData h tsData) !! className sdkClass = Some c
                         /\ sdkName = "python").
  { destruct Hcase as [-> | [-> [c Hc]]]; [left | right; now exists c].
    unfold getSortedMethods. simpl (String.eqb "ts" "ts"). cbv iota.
    eapply keeps_bind; [apply keeps_filterArr | intros methodsArr Hm].
    intros h1 Hf. simpl.
    destruct (classesMap (derefData h1 pythonData) !! className sdkClass) as [c|].
    - destruct (partition_branch_keeps h methodsArr
                  (fun m => includesStr
                              (map (fun m' => toCamelCase (methodName m')) (methods c))
                              (methodName m))
                  (bool_decide (String.append "ts" (String.append "-" (className sdkClass))
                                ∈ hideCommonMethods st))
                  (bool_decide (String.append "ts" (String.append "-" (className sdkClass))
                                ∈ sortByLength st))
                  h1 Hf) as [Hf2 _].
      split; [exact Hf2 | exact I].
    - destruct (bool_decide _);
        (split; [now apply (keeps_sortArr h _ methodsArr Hm h1 Hf) | exact I]). }
  destruct Hk as [Hk | (c & Hc & ->)]; [exact (proj1 (Hk h (frame_refl h)))|].
  unfold getSortedMethods. simpl (String.eqb "python" "ts"). cbv iota.
  unfold bind, ret. simpl. rewrite Hc.
  exact (proj1 (partition_branch_keeps h (methods sdkClass) _ _ _ h (frame_refl h))).
Qed.
End SortedMethodsFrame.

(** In these cases the supplied data reads the same after the call. *)
Lemma getSortedMethods_keeps_data `{P : Platform} (st : State)
    (tsData pythonData : list ClassObj) (sdkClass : ClassObj) (sdkName : string)
    (h : Heap) :
  sdkName = "ts"
  \/ (sdkName = "python"
      /\ is_Some (classesMap (derefData h tsData) !! className sdkClass)) ->
  (forall c, In c (tsData ++ pythonData) -> methods c ∈ dom h) ->
  let h' := snd (getSortedMethods st tsData pythonData sdkClass sdkName h) in
  derefData h' tsData = derefData h tsData
  /\ derefData h' pythonData = derefData h pythonData.
Proof.
  intros Hcase Hdom h'.
  pose proof (getSortedMethods_frame st tsData pythonData sdkClass sdkName h Hcase)
    as Hf.
  split; apply derefData_frame; try exact Hf;
    intros c Hc; apply Hdom, in_app_iff; auto.
Qed.

(** ** Constructors in the leaderboards *)

(** The leaderboards rank no TypeScript constructor. *)
Lemma leaderboards_exclude_constructors (tsData pythonData : SDKData) :
  (forall e, In e (findLongestMethods tsData pythonData) ->
     le_sdkName e = "ts" -> methodName (le_method e) <> "constructor")
  /\ (forall m t, pythonExceeds tsData pythonData m t -> methodName t <> "constructor")
  /\ (forall e, In e (findTsSizeRatioMethods tsData pythonData) ->
        re_methodName e <> "constructor").
Proof.
  split; [|split].
  - intros e He Hsdk. unfold findLongestMethods in He.
    rewrite jsSlice_0_15 in He. apply firstn_In, sortBy_In in He.
    rewrite methodLengths_flat in He. apply in_app_iff in He as [He | He];
      apply in_flat_map in He as (cls & _ & He);
      apply in_map_iff in He as (m & <- & Hm); simpl in *.
    + now apply nonConstructors_In in Hm.
    + discriminate Hsdk.
  - intros m t (cls & c & _ & _ & Hl & _).
    apply lastWith_Some in Hl as (l1 & l2 & Heq & _ & _).
    assert (Hin : In (c, t) (tsPairs tsData)) by (rewrite Heq; apply in_elt).
    unfold tsPairs in Hin. apply filter_In in Hin as [_ Hn]. simpl in Hn.
    unfold isConstructor in Hn. apply negb_true_iff in Hn.
    now apply String.eqb_neq in Hn.
  - intros e He. apply ratio_board_In, tsMethodRatios_In in He
      as (cls & t & c & m & _ & _ & Hn & _ & _ & ->). exact Hn.
Qed.

(** ** The examples of the specification, run on the model *)

Example filter_python_only_includes_Bar :
  filteredClassNames (P := examplePlatform)
    (mkState false false true "" true ∅ ∅ ∅ ∅ []) (mkSDKData []) barPython = ["Bar"].
Proof. reflexivity. Qed.

Example filter_hide_empty :
  let ts := mkSDKData [class "Empty" []] in
  let py := mkSDKData [class "Empty" []] in
  filteredClassNames (P := examplePlatform)
    (mkState true false false "" true ∅ ∅ ∅ ∅ []) ts py = []
  /\ filteredClassNames (P := examplePlatform)
       (mkState true false false "" false ∅ ∅ ∅ ∅ []) ts py = ["Empty"].
Proof. split; reflexivity. Qed.

Example filter_search_price :
  let ts := mkSDKData [fooTs; class "Other" [method "run" 1 2]] in
  let py := mkSDKData [fooPython; class "Other" [method "run" 1 2]] in
  filteredClassNames (P := examplePlatform)
    (mkState true false false "PRICE" true ∅ ∅ ∅ ∅ []) ts py = ["Foo"].
Proof. reflexivity. Qed.

Example ratio_boards_compute :
  findSizeRatioMethods computeTs computePython
  = [mkRatioEntry "compute_x" "Calc" 46 3 (Fin (46 # 3))]
  /\ findTsSizeRatioMethods computeTs computePython = []
  /\ map le_length (findLongestMethods computeTs computePython) = [46; 3].
Proof. repeat split; reflexivity. Qed.

Example fetch_success :
  let result := fetchCodeSnippet (P := examplePlatform)
                  (fun _ => Response true 200 (Some "YQpiCmMK")) (fun s => s) (fun s => s)
                  true "protocol-v2/sdk/src/foo.ts" 2 3 "ts" "ts-Foo-bar" initialState in
  fst result = inr tt
  /\ content <$> codeSnippets (snd result) !! "ts-Foo-bar"
     = Some (String "b" (String "010" (String "c" EmptyString)))
  /\ snippetFile <$> codeSnippets (snd result) !! "ts-Foo-bar" = Some "foo.ts"
  /\ loadingSnippets (snd result) = ∅.
Proof. vm_compute. repeat split; reflexivity. Qed.

(* ===================================================================== *)
(** * Further properties of the component *)
(* ===================================================================== *)

(** ** Names *)







(** X2.  [toCamelCase] leaves a string unchanged exactly when the string has
    no underscore that is followed by a letter of [a-z]. *)
Theorem toCamelCase_fixed_iff_noMatch (s : string) :
  toCamelCase s = s <-> noMatch s = true.
Proof.
  split.
  - intros Hfix. rewrite <- Hfix. apply toCamelCase_result_noMatch.
  - apply toCamelCase_noMatch_id.
Qed.

(** ** File paths *)

Lemma stripPrefix_Some (pre s r : string) :
  stripPrefix pre s = Some r <-> s = String.append pre r.
Proof.
  revert s. induction pre as [|a p IH]; intros s; simpl.
  - split; [now intros [= ->] | now intros ->].
  - destruct s as [|b s']; [split; discriminate|].
    destruct (Ascii.eqb a b) eqn:Hab.
    + apply Ascii.eqb_eq in Hab. subst b. rewrite IH.
      split; [now intros -> | now intros [= ->]].
    + apply Ascii.eqb_neq in Hab. split; [discriminate|].
      intros Heq. injection Heq as Hb _. exfalso. now apply Hab.
Qed.

Lemma stripPrefix_None (pre s : string) :
  stripPrefix pre s = None <-> Str.startsWith pre s = false.
Proof.
  revert s. induction pre as [|a p IH]; intros s; simpl.
  - split; discriminate.
  - destruct s as [|b s']; [tauto|].
    destruct (Ascii.eqb a b); simpl; [apply IH | tauto].
Qed.

(** X3.  [getCleanFilePath] removes the SDK's path prefix
    ([protocol-v2/sdk/src/] for ["ts"], [driftpy/] for every other tag) when
    the path starts with it, so that prefix and result give the path back,
    and returns every other path unchanged. *)
Theorem getCleanFilePath_strips_prefix (filePath sdkName : string) :
  let prefix := if String.eqb sdkName "ts" then "protocol-v2/sdk/src/" else "driftpy/" in
  (Str.startsWith prefix filePath = true ->
   String.append prefix (getCleanFilePath filePath sdkName) = filePath)
  /\ (Str.startsWith prefix filePath = false ->
      getCleanFilePath filePath sdkName = filePath).
Proof.
  intros prefix. unfold getCleanFilePath. subst prefix.
  destruct (String.eqb sdkName "ts");
    (destruct (stripPrefix _ filePath) as [r|] eqn:Hs;
     [apply stripPrefix_Some in Hs | apply stripPrefix_None in Hs];
     split; intros Hp;
     [ change (default filePath (Some r)) with r; now symmetry
     | exfalso;
       assert (Ht : Str.startsWith _ filePath = true)
         by (apply startsWith_spec; exists r; exact Hs);
       congruence
     | congruence
     | reflexivity ]).
Qed.

Lemma getCleanFilePath_strips_prefix_witness :
  String.append "driftpy/" (getCleanFilePath "driftpy/math/amm.py" "python")
  = "driftpy/math/amm.py"
  /\ getCleanFilePath "sdk/src/user.ts" "ts" = "sdk/src/user.ts".
Proof.
  split.
  - apply (proj1 (getCleanFilePath_strips_prefix "driftpy/math/amm.py" "python")).
    reflexivity.
  - apply (proj2 (getCleanFilePath_strips_prefix "sdk/src/user.ts" "ts")).
    reflexivity.
Defined.

(** ** Class index and class order *)

(** X4.  The class map holds, under a name, the last class of the dataset
    with that name, and nothing under a name no class has; in a dataset
    whose class names are distinct every class is found under its name. *)
Theorem classesMap_last_wins (d : SDKData) (n : string) :
  (forall c, classesMap d !! n = Some c <->
     exists l1 l2, classes d = l1 ++ c :: l2 /\ className c = n
                   /\ forall c', In c' l2 -> className c' <> n)
  /\ (classesMap d !! n = None <-> forall c, In c (classes d) -> className c <> n)
  /\ (NoDup (map className (classes d)) ->
      forall c, In c (classes d) -> classesMap d !! className c = Some c).
Proof.
  assert (Hsome : forall n c, classesMap d !! n = Some c <->
     exists l1 l2, classes d = l1 ++ c :: l2 /\ className c = n
                   /\ forall c', In c' l2 -> className c' <> n).
  { intros n0 c. rewrite classesMap_lookup, lastWith_Some.
    split; intros (l1 & l2 & Heq & Hn & Hl2); exists l1, l2;
      (split; [exact Heq|]); split.
    - now apply String.eqb_eq.
    - intros c' Hc'. rewrite forallb_forall in Hl2. specialize (Hl2 c' Hc').
      apply negb_true_iff in Hl2. now apply String.eqb_neq.
    - now apply String.eqb_eq.
    - apply forallb_forall. intros c' Hc'. apply negb_true_iff, String.eqb_neq.
      now apply Hl2. }
  split; [apply Hsome|]. split.
  - rewrite classesMap_lookup, lastWith_None. split; intros Hall c Hc.
    + apply String.eqb_neq. now apply Hall.
    + apply String.eqb_neq. now apply Hall.
  - intros Hnd c Hc. apply Hsome.
    destruct (in_split _ _ Hc) as (l1 & l2 & Heq). exists l1, l2.
    split; [exact Heq|]. split; [reflexivity|].
    intros c' Hc' Hname. apply NoDup_ListNoDup in Hnd.
    rewrite Heq, map_app in Hnd. simpl in Hnd.
    apply NoDup_remove_2 in Hnd. apply Hnd, in_app_iff. right.
    rewrite <- Hname. now apply in_map.
Qed.

Lemma classesMap_last_wins_witness :
  classesMap (mkSDKData [fooTs; fooPython]) !! className fooPython = Some fooPython
  /\ classesMap computeTs !! "Calc"
     = Some (class "Calc" [method "constructor" 1 9; method "computeX" 10 12]).
Proof.
  split.
  - apply (proj1 (classesMap_last_wins (mkSDKData [fooTs; fooPython]) "Foo")).
    exists [fooTs], []. repeat split. intros c' [].
  - refine (proj2 (proj2 (classesMap_last_wins computeTs "Calc")) _
             (class "Calc" [method "constructor" 1 9; method "computeX" 10 12]) _).
    + apply NoDup_ListNoDup. repeat constructor. intros [].
    + now left.
Defined.

Lemma setFrom_NoDup (acc l : list string) :
  NoDup acc -> NoDup (setFrom acc l).
Proof.
  revert acc. induction l as [|x r IH]; intros acc Hacc; simpl; [exact Hacc|].
  destruct (existsb (String.eqb x) acc) eqn:He; [now apply IH|].
  apply IH. apply NoDup_app. split; [exact Hacc|]. split.
  - intros y Hy Hyx. apply list_elem_of_In in Hy, Hyx.
    destruct Hyx as [<- | []].
    assert (includesStr acc x = true) by now apply includesStr_In.
    unfold includesStr in *. congruence.
  - repeat constructor. intros Hin. inversion Hin.
Qed.

Lemma allClassNames_NoDup (tsData pythonData : SDKData) :
  NoDup (allClassNames tsData pythonData).
Proof. apply setFrom_NoDup. constructor. Qed.

Lemma filter_NoDup {A : Type} (p : A -> bool) (l : list A) :
  NoDup l -> NoDup (List.filter p l).
Proof.
  induction 1 as [|x l Hx Hl IH]; simpl; [constructor|].
  destruct (p x); [|exact IH]. constructor; [|exact IH].
  intros Hin. apply Hx. apply list_elem_of_In. apply list_elem_of_In in Hin.
  now apply filter_In in Hin.
Qed.

(** X5.  The class list has no duplicates and holds exactly the class names
    of the two datasets, in both variants; the filtered list has no
    duplicates either. *)
Theorem sortedClassNames_distinct `{P : Platform} (st : State)
    (tsData pythonData : SDKData) :
  NoDup (sortedClassNames tsData pythonData)
  /\ NoDup (sortedClassNamesSimple tsData pythonData)
  /\ NoDup (filteredClassNames st tsData pythonData)
  /\ (forall n,
        (In n (sortedClassNames tsData pythonData) <->
           (exists c, In c (classes tsData) /\ className c = n)
           \/ (exists c, In c (classes pythonData) /\ className c = n))
        /\ (In n (sortedClassNamesSimple tsData pythonData) <->
              In n (sortedClassNames tsData pythonData))).
Proof.
  assert (Hs : NoDup (sortedClassNames tsData pythonData)).
  { unfold sortedClassNames. rewrite sortBy_perm. apply allClassNames_NoDup. }
  split; [exact Hs|]. split.
  { unfold sortedClassNamesSimple. rewrite sortBy_perm. apply allClassNames_NoDup. }
  split; [now apply filter_NoDup|].
  intros n. unfold sortedClassNames, sortedClassNamesSimple.
  rewrite !sortBy_In, allClassNames_In, !in_map_iff. split; [|reflexivity].
  split; (intros [(c & H1 & H2) | (c & H1 & H2)]; [left | right]; exists c; tauto).
Qed.






Lemma filter_partition_length {A : Type} (p : A -> bool) (l : list A) :
  (length (List.filter p l) + length (List.filter (fun a => negb (p a)) l)
   = length l)%nat.
Proof.
  induction l as [|a r IH]; simpl; [reflexivity|].
  destruct (p a); simpl; lia.
Qed.

(** X7.  The two class counters of the statistics bar add up to the number
    of distinct class names: every class name is counted either as common
    or as unique, never both and never twice. *)
Theorem class_counters_partition `{P : Platform} (tsData pythonData : SDKData) :
  (commonClassesCount tsData pythonData + uniqueClassesCount tsData pythonData
   = length (allClassNames tsData pythonData))%nat
  /\ NoDup (allClassNames tsData pythonData).
Proof.
  split; [|apply allClassNames_NoDup].
  unfold commonClassesCount, uniqueClassesCount.
  rewrite <- (sortBy_length (classOrder tsData pythonData)
                            (allClassNames tsData pythonData)).
  fold (sortedClassNames tsData pythonData).
  rewrite <- (filter_partition_length
                (fun n => bool_decide (is_Some (classesMap tsData !! n))
                          && bool_decide (is_Some (classesMap pythonData !! n)))
                (sortedClassNames tsData pythonData)).
  f_equal. f_equal. apply filter_ext. intros n. now rewrite negb_andb.
Qed.

(** ** Search and visibility *)

Lemma append_cons (x : ascii) (a b : string) :
  String.append (String x a) b = String x (String.append a b).
Proof. reflexivity. Qed.

Lemma append_nil_r (a : string) : String.append a EmptyString = a.
Proof.
  induction a as [|x a' IH]; [reflexivity|]. now rewrite append_cons, IH.
Qed.




Lemma occursIn_refl (s : string) : occursIn s s.
Proof.
  exists EmptyString, EmptyString.
  change (Str.toLowerCase s = String.append (Str.toLowerCase s) EmptyString).
  now rewrite append_nil_r.
Qed.


Lemma filteredClassNames_In `{P : Platform}
    (st : State) (tsData pythonData : SDKData) (n : string) :
  In n (filteredClassNames st tsData pythonData) <->
  notHiddenAsEmpty st (classesMap tsData !! n) (classesMap pythonData !! n)
  /\ presenceMatches st (classesMap tsData !! n) (classesMap pythonData !! n)
  /\ searchMatches st n (classesMap tsData !! n) (classesMap pythonData !! n).
Proof.
  unfold filteredClassNames, sortedClassNames.
  rewrite filter_In, sortBy_In, classFilter_spec, allClassNames_In,
    <- !classesMap_is_Some.
  split; [tauto|]. intros (Ha & Hp & Hs). split; [|tauto].
  destruct Hp as [(H1 & _) | [(H1 & _) | (_ & H1 & _)]]; auto.
Qed.



(** X9.  Clearing the search term and switching hide-empty off never remove
    a class from the filtered list. *)
Theorem relaxing_filters_keeps_classes `{P : Platform}
    (st : State) (tsData pythonData : SDKData) (n : string) :
  In n (filteredClassNames st tsData pythonData) ->
  In n (filteredClassNames (setSearchTerm "" st) tsData pythonData)
  /\ In n (filteredClassNames (setHideEmptyClasses false st) tsData pythonData).
Proof.
  rewrite !filteredClassNames_In. intros (Ha & Hp & Hs). split.
  - repeat split; [exact Ha | exact Hp | now left].
  - repeat split; [now left | exact Hp | exact Hs].
Qed.

Lemma relaxing_filters_keeps_classes_witness :
  In "Foo" (filteredClassNames (P := examplePlatform)
              (setSearchTerm "" (setSearchTerm "price" initialState))
              (mkSDKData [fooTs]) (mkSDKData [fooPython])).
Proof.
  apply (relaxing_filters_keeps_classes (P := examplePlatform)
           (setSearchTerm "price" initialState)
           (mkSDKData [fooTs]) (mkSDKData [fooPython]) "Foo").
  vm_compute. now left.
Defined.

(** ** Comparison status of the listed methods *)

(** X10.  With the class present in both SDKs, a TypeScript method other
    than a constructor has status ["both"] or ["ts-only"] and a Python method
    has status ["both"] or ["python-only"]: a listed method is never marked
    as missing or as belonging to the other side only. *)
Theorem listed_method_status (t p : Class) (m : Method) :
  (In m (methods t) -> methodName m <> "constructor" ->
   getMethodComparisonStatus (methodName m) (Some t) (Some p) "ts" = "both"
   \/ getMethodComparisonStatus (methodName m) (Some t) (Some p) "ts" = "ts-only")
  /\ (In m (methods p) ->
      getMethodComparisonStatus (methodName m) (Some t) (Some p) "python" = "both"
      \/ getMethodComparisonStatus (methodName m) (Some t) (Some p) "python"
         = "python-only").
Proof.
  split.
  - intros Hm Hn. unfold getMethodComparisonStatus. simpl (String.eqb "ts" "python").
    cbv iota.
    assert (Hts : includesStr (map methodName (nonConstructors (methods t)))
                               (methodName m) = true).
    { apply includesStr_In, in_map, nonConstructors_In. now split. }
    rewrite Hts.
    destruct (includesStr (map toCamelCase _) _); [left | right]; reflexivity.
  - intros Hm. unfold getMethodComparisonStatus. simpl (String.eqb "python" "python").
    cbv iota.
    assert (Hpy : includesStr (map toCamelCase (map methodName (methods p)))
                               (toCamelCase (methodName m)) = true).
    { apply includesStr_In. rewrite map_map.
      apply (in_map (fun x => toCamelCase (methodName x))). exact Hm. }
    rewrite Hpy.
    destruct (includesStr (map methodName _) _); [left | right]; reflexivity.
Qed.

Lemma listed_method_status_witness :
  getMethodComparisonStatus "getPrice" (Some fooTs) (Some fooPython) "ts" = "both"
  \/ getMethodComparisonStatus "getPrice" (Some fooTs) (Some fooPython) "ts" = "ts-only".
Proof.
  apply (proj1 (listed_method_status fooTs fooPython (method "getPrice" 10 12))).
  - now left.
  - discriminate.
Defined.

(** X11.  A TypeScript method other than a constructor and a Python method
    whose camelCase name is the TypeScript method's name are both marked
    ["both"], each on its own side. *)
Theorem matched_pair_marked_both (t p : Class) (mt mp : Method) :
  In mt (methods t) -> methodName mt <> "constructor" ->
  In mp (methods p) -> toCamelCase (methodName mp) = methodName mt ->
  getMethodComparisonStatus (methodName mt) (Some t) (Some p) "ts" = "both"
  /\ getMethodComparisonStatus (methodName mp) (Some t) (Some p) "python" = "both".
Proof.
  intros Ht Hn Hp Heq.
  assert (Hts : includesStr (map methodName (nonConstructors (methods t)))
                             (methodName mt) = true).
  { apply includesStr_In, in_map, nonConstructors_In. now split. }
  assert (Hpy : includesStr (map toCamelCase (map methodName (methods p)))
                             (methodName mt) = true).
  { apply includesStr_In. rewrite map_map, <- Heq.
    apply (in_map (fun x => toCamelCase (methodName x))). exact Hp. }
  unfold getMethodComparisonStatus.
  simpl (String.eqb "ts" "python"). simpl (String.eqb "python" "python"). cbv iota.
  rewrite Heq, Hts, Hpy. split; reflexivity.
Qed.

Lemma matched_pair_marked_both_witness :
  getMethodComparisonStatus "getPrice" (Some fooTs) (Some fooPython) "ts" = "both"
  /\ getMethodComparisonStatus "get_price" (Some fooTs) (Some fooPython) "python" = "both".
Proof.
  apply (matched_pair_marked_both fooTs fooPython
           (method "getPrice" 10 12) (method "get_price" 5 50)).
  - now left.
  - discriminate.
  - now left.
  - reflexivity.
Defined.

(** ** What [getSortedMethods] returns *)

Lemma insert_fresh_lookup (h : Heap) (r : nat) (l : list Method) :
  r ∈ dom h -> <[fresh (dom h) := l]> h !! r = h !! r.
Proof.
  intros Hr. apply lookup_insert_ne. intros E.
  apply (is_fresh (dom h)). now rewrite E.
Qed.

Lemma frame_insert_fresh (h : Heap) (l : list Method) :
  frame h (<[fresh (dom h) := l]> h).
Proof. apply frame_insert_outside; [apply frame_refl | apply is_fresh]. Qed.

Section SortedMethodsResult.
Context `{P : Platform}.
Variable st : State.
Variables tsData pythonData : list ClassObj.
Variable sdkClass : ClassObj.
Variable h : Heap.
Hypothesis Hwf : forall c, In c (tsData ++ pythonData) -> methods c ∈ dom h.

(** The branch that runs when the other SDK has the class, for an array
    [r0] that holds [shown]. *)
Lemma partition_branch_result (h0 : Heap) (r0 : nat) (shown : list Method)
    (isShared : Method -> bool) (hide byLen : bool) :
  default [] (h0 !! r0) = shown ->
  let shared := List.filter isShared shown in
  let nonShared := List.filter (fun m => negb (isShared m)) shown in
  let run :=
    (let* ms := readArr r0 in
     let* sharedMethods := newArr (List.filter isShared ms) in
     let* nonSharedMethods := newArr (List.filter (fun m => negb (isShared m)) ms) in
     let* shared := readArr sharedMethods in
     let* nonShared := readArr nonSharedMethods in
     let* filteredMethods := (if hide then newArr nonShared
                              else newArr (shared ++ nonShared)) in
     if byLen then sortArr byLength filteredMethods
     else if hide then sortArr byName filteredMethods
     else
       let* sharedFiltered := newArr shared in
       let* nonSharedFiltered := newArr nonShared in
       let* _ := sortArr byName sharedFiltered in
       let* _ := sortArr byName nonSharedFiltered in
       let* a := readArr sharedFiltered in
       let* b := readArr nonSharedFiltered in
       newArr (a ++ b))%heap h0 in
  snd run !! fst run
  = Some (if byLen
          then sortBy byLength (if hide then nonShared else shared ++ nonShared)
          else if hide then sortBy byName nonShared
          else sortBy byName shared ++ sortBy byName nonShared).
Proof.
  intros H0 shared nonShared run. subst run.
  unfold bind, readArr, newArr, sortArr. simpl. rewrite H0. simpl.
  fold shared nonShared.
  set (r1 := fresh (dom h0)).
  set (h1 := <[r1 := shared]> h0).
  set (r2 := fresh (dom h1)).
  set (h2 := <[r2 := nonShared]> h1).
  assert (E1 : h2 !! r1 = Some shared).
  { subst h2 r2. rewrite insert_fresh_lookup.
    - subst h1. apply lookup_insert_eq.
    - subst h1. rewrite dom_insert_L. set_solver. }
  assert (E2 : h2 !! r2 = Some nonShared) by (subst h2; apply lookup_insert_eq).
  rewrite E1, E2. simpl.
  destruct byLen; [|destruct hide].
  - destruct hide; simpl; rewrite !lookup_insert_eq; reflexivity.
  - simpl. rewrite !lookup_insert_eq. reflexivity.
  - simpl.
    set (r3 := fresh (dom h2)).
    set (h3 := <[r3 := shared ++ nonShared]> h2).
    set (r4 := fresh (dom h3)).
    set (h4 := <[r4 := shared]> h3).
    set (r5 := fresh (dom h4)).
    set (h5 := <[r5 := nonShared]> h4).
    assert (D4 : r4 ∈ dom h4) by (subst h4; rewrite dom_insert_L; set_solver).
    assert (N45 : r4 <> r5).
    { intros E. apply (is_fresh (dom h4)). fold r5. now rewrite <- E. }
    assert (E4 : h5 !! r4 = Some shared).
    { subst h5. rewrite lookup_insert_ne by (intros E; now apply N45).
      subst h4. apply lookup_insert_eq. }
    rewrite E4. simpl.
    set (h6 := <[r4 := sortBy byName shared]> h5).
    assert (E5 : h6 !! r5 = Some nonShared).
    { subst h6. rewrite lookup_insert_ne by exact N45.
      subst h5. apply lookup_insert_eq. }
    rewrite E5. simpl.
    set (h7 := <[r5 := sortBy byName nonShared]> h6).
    assert (E6 : h7 !! r4 = Some (sortBy byName shared)).
    { subst h7. rewrite lookup_insert_ne by (intros E; now apply N45).
      subst h6. apply lookup_insert_eq. }
    assert (E7 : h7 !! r5 = Some (sortBy byName nonShared))
      by (subst h7; apply lookup_insert_eq).
    rewrite E6, E7. simpl. apply lookup_insert_eq.
Qed.

(** The array [getSortedMethods] returns, for a heap that holds the arrays
    of the two datasets. *)
Lemma getSortedMethods_result (sdkName : string) :
  let ms := default [] (h !! methods sdkClass) in
  let shown := if String.eqb sdkName "ts" then nonConstructors ms else ms in
  let other :=
    if String.eqb (otherSide sdkName) "ts"
    then classesMap (derefData h tsData) !! className sdkClass
    else classesMap (derefData h pythonData) !! className sdkClass in
  let classKey := String.append sdkName (String.append "-" (className sdkClass)) in
  let hide := bool_decide (classKey ∈ hideCommonMethods st) in
  let byLen := bool_decide (classKey ∈ sortByLength st) in
  let run := getSortedMethods st tsData pythonData sdkClass sdkName h in
  snd run !! fst run
  = Some (match other with
          | None => sortBy (if byLen then byLength else byName) shown
          | Some o =>
              let shared := List.filter (sharedWith sdkName o) shown in
              let nonShared :=
                List.filter (fun m => negb (sharedWith sdkName o m)) shown in
              if byLen
              then sortBy byLength (if hide then nonShared else shared ++ nonShared)
              else if hide then sortBy byName nonShared
              else sortBy byName shared ++ sortBy byName nonShared
          end).
Proof.
  intros ms shown other classKey hide byLen run.
  remember run as res eqn:Hres. subst run other shown.
  unfold getSortedMethods in Hres. unfold sharedWith, otherSide.
  destruct (String.eqb sdkName "ts") eqn:Ets; unfold bind at 1 in Hres.
  - set (shown := nonConstructors ms).
    set (r0 := fresh (dom h)). set (h1 := <[r0 := shown]> h).
    assert (Hstep : filterArr (fun m => negb (isConstructor m)) (methods sdkClass) h
                    = (r0, h1)) by reflexivity.
    rewrite Hstep in Hres. cbv beta iota zeta in Hres.
    change (String.eqb "python" "ts") with false in Hres. cbv iota in Hres.
    assert (Hd : derefData h1 pythonData = derefData h pythonData).
    { apply derefData_frame; [apply frame_insert_fresh|].
      intros c Hc. apply Hwf, in_app_iff. now right. }
    rewrite Hd in Hres.
    assert (E0 : default [] (h1 !! r0) = shown)
      by (subst h1; now rewrite lookup_insert_eq).
    fold classKey in Hres. fold hide in Hres. fold byLen in Hres.
    destruct (classesMap (derefData h pythonData) !! className sdkClass) as [o|];
      subst res.
    + exact (partition_branch_result h1 r0 shown
               (fun m => includesStr
                           (map (fun m' => if String.eqb "python" "python"
                                           then toCamelCase (methodName m')
                                           else methodName m') (methods o))
                           (if String.eqb sdkName "python"
                            then toCamelCase (methodName m) else methodName m))
               hide byLen E0).
    + unfold sortArr. destruct byLen; cbn [fst snd]; rewrite E0;
        apply lookup_insert_eq.
  - assert (Hstep : ret (methods sdkClass) h = (methods sdkClass, h)) by reflexivity.
    rewrite Hstep in Hres. cbv beta iota zeta in Hres.
    change (String.eqb "ts" "ts") with true in Hres. cbv iota in Hres.
    fold classKey in Hres. fold hide in Hres. fold byLen in Hres.
    destruct (classesMap (derefData h tsData) !! className sdkClass) as [o|];
      subst res.
    + exact (partition_branch_result h (methods sdkClass) ms
               (fun m => includesStr
                           (map (fun m' => if String.eqb "ts" "python"
                                           then toCamelCase (methodName m')
                                           else methodName m') (methods o))
                           (if String.eqb sdkName "python"
                            then toCamelCase (methodName m) else methodName m))
               hide byLen eq_refl).
    + unfold sortArr. destruct byLen; cbn [fst snd]; apply lookup_insert_eq.
Qed.
End SortedMethodsResult.

Lemma filter_partition_perm {A : Type} (p : A -> bool) (l : list A) :
  Permutation (List.filter p l ++ List.filter (fun a => negb (p a)) l) l.
Proof.
  induction l as [|a r IH]; simpl; [constructor|].
  destruct (p a); simpl.
  - now constructor.
  - rewrite <- Permutation_middle. now constructor.
Qed.

Lemma byLength_total : totalCmp byLength.
Proof. intros x y. unfold byLength. lia. Qed.

Lemma byName_total `{P : Platform} : totalCmp localeCompare -> totalCmp byName.
Proof. intros Hloc x y. apply Hloc. Qed.

(** X12.  For a heap that holds the arrays of the two datasets, the array
    [getSortedMethods] returns holds only methods of the class (on the
    TypeScript side: only those that are not constructors).  With
    hide-shared off it is a rearrangement of all of them, none lost and none
    repeated; with hide-shared on and the class present in the other SDK it
    holds exactly those that fail the shared test.  The array of the simple
    variant is always a rearrangement of all of them. *)
Theorem getSortedMethods_lists_methods `{P : Platform} (st : State)
    (tsData pythonData : list ClassObj) (sdkClass : ClassObj) (sdkName : string)
    (h : Heap) :
  (forall c, In c (tsData ++ pythonData) -> methods c ∈ dom h) ->
  let shown := shownMethods sdkName (default [] (h !! methods sdkClass)) in
  let other := otherClassOf sdkName h tsData pythonData (className sdkClass) in
  let classKey := classKeyOf sdkName (className sdkClass) in
  let run := getSortedMethods st tsData pythonData sdkClass sdkName h in
  let runSimple := getSortedMethodsSimple sdkClass sdkName h in
  (exists l, snd run !! fst run = Some l
     /\ (forall m, In m l -> In m shown)
     /\ (classKey ∉ hideCommonMethods st -> Permutation l shown)
     /\ (forall o, other = Some o -> classKey ∈ hideCommonMethods st ->
           forall m, In m l <-> In m shown /\ sharedWith sdkName o m = false))
  /\ (exists l, snd runSimple !! fst runSimple = Some l /\ Permutation l shown).
Proof.
  intros Hwf shown other classKey run runSimple. split.
  - pose proof (getSortedMethods_result st tsData pythonData sdkClass h Hwf sdkName)
      as Hres. cbv zeta in Hres.
    fold (shownMethods sdkName (default [] (h !! methods sdkClass))) in Hres.
    fold shown in Hres.
    fold (otherClassOf sdkName h tsData pythonData (className sdkClass)) in Hres.
    fold other in Hres. fold run in Hres.
    change (String.append sdkName (String.append "-" (className sdkClass)))
      with classKey in Hres.
    eexists. split; [exact Hres|].
    destruct other as [o|].
    + destruct (bool_decide (classKey ∈ sortByLength st));
        destruct (bool_decide (classKey ∈ hideCommonMethods st)) eqn:Hh;
        [apply bool_decide_eq_true in Hh | apply bool_decide_eq_false in Hh
        |apply bool_decide_eq_true in Hh | apply bool_decide_eq_false in Hh].
      * split; [|split].
        -- intros m Hm. apply sortBy_In, filter_In in Hm. tauto.
        -- intros Hn. contradiction.
        -- intros o' [= <-] _ m. rewrite sortBy_In, filter_In, negb_true_iff.
           tauto.
      * split; [|split].
        -- intros m Hm. apply sortBy_In, in_app_iff in Hm.
           destruct Hm as [Hm | Hm]; apply filter_In in Hm; tauto.
        -- intros _. rewrite sortBy_perm. apply filter_partition_perm.
        -- intros o' _ Hin. contradiction.
      * split; [|split].
        -- intros m Hm. apply sortBy_In, filter_In in Hm. tauto.
        -- intros Hn. contradiction.
        -- intros o' [= <-] _ m. rewrite sortBy_In, filter_In, negb_true_iff.
           tauto.
      * split; [|split].
        -- intros m Hm. apply in_app_iff in Hm.
           destruct Hm as [Hm | Hm]; apply sortBy_In, filter_In in Hm; tauto.
        -- intros _. rewrite !sortBy_perm. apply filter_partition_perm.
        -- intros o' _ Hin. contradiction.
    + split; [|split].
      * intros m Hm. now apply sortBy_In in Hm.
      * intros _. apply sortBy_perm.
      * intros o' Ho. discriminate Ho.
  - subst runSimple shown. unfold getSortedMethodsSimple, shownMethods.
    destruct (String.eqb sdkName "ts"); unfold bind, filterArr, ret, readArr,
      newArr, sortArr, bind; cbn [fst snd].
    + eexists. split; [apply lookup_insert_eq|].
      rewrite lookup_insert_eq. apply sortBy_perm.
    + eexists. split; [apply lookup_insert_eq|]. apply sortBy_perm.
Qed.

Lemma ctorHeap_holds_arrays :
  forall c, In c ([ctorTsObj] ++ [ctorPythonObj]) -> methods c ∈ dom ctorHeap.
Proof.
  intros c [<- | [<- | []]]; apply elem_of_dom; eexists; reflexivity.
Defined.

Lemma getSortedMethods_lists_methods_witness :
  let shown := shownMethods "python" (default [] (ctorHeap !! methods ctorPythonObj)) in
  let run := getSortedMethods (P := examplePlatform) hideSharedState
               [ctorTsObj] [ctorPythonObj] ctorPythonObj "python" ctorHeap in
  exists l, snd run !! fst run = Some l /\ (forall m, In m l -> In m shown).
Proof.
  destruct (getSortedMethods_lists_methods (P := examplePlatform) hideSharedState
              [ctorTsObj] [ctorPythonObj] ctorPythonObj "python" ctorHeap
              ctorHeap_holds_arrays) as [(l & Hl & Hin & _) _].
  exists l. split; [exact Hl | exact Hin].
Defined.

(** X13.  With sort-by-length on, the array [getSortedMethods] returns is
    ordered by line-length, longest first.  With both toggles off and the
    class present in the other SDK, the array is the shared methods followed
    by the others.  Where one alphabetical sort makes the whole array (no
    class in the other SDK, or hide-shared on) and the collation is total,
    the array is ordered by name. *)
Theorem getSortedMethods_order `{P : Platform} (st : State)
    (tsData pythonData : list ClassObj) (sdkClass : ClassObj) (sdkName : string)
    (h : Heap) :
  (forall c, In c (tsData ++ pythonData) -> methods c ∈ dom h) ->
  let other := otherClassOf sdkName h tsData pythonData (className sdkClass) in
  let classKey := classKeyOf sdkName (className sdkClass) in
  let run := getSortedMethods st tsData pythonData sdkClass sdkName h in
  exists l, snd run !! fst run = Some l
    /\ (classKey ∈ sortByLength st ->
        Sorted (fun a b => methodLength b <= methodLength a) l)
    /\ (classKey ∉ sortByLength st -> classKey ∉ hideCommonMethods st ->
        forall o, other = Some o ->
        exists l1 l2, l = l1 ++ l2
          /\ (forall m, In m l1 -> sharedWith sdkName o m = true)
          /\ (forall m, In m l2 -> sharedWith sdkName o m = false))
    /\ (totalCmp localeCompare -> classKey ∉ sortByLength st ->
        other = None \/ classKey ∈ hideCommonMethods st ->
        Sorted (fun a b => localeCompare (methodName a) (methodName b) <= 0) l).
Proof.
  intros Hwf other classKey run.
  pose proof (getSortedMethods_result st tsData pythonData sdkClass h Hwf sdkName)
    as Hres. cbv zeta in Hres.
  fold (otherClassOf sdkName h tsData pythonData (className sdkClass)) in Hres.
  fold other in Hres. fold run in Hres.
  change (String.append sdkName (String.append "-" (className sdkClass)))
    with classKey in Hres.
  eexists. split; [exact Hres|].
  assert (HL : forall l0, Sorted (fun a b => methodLength b <= methodLength a)
                            (sortBy byLength l0)).
  { intros l0. eapply Sorted_impl_In; [|apply sortBy_sorted, byLength_total].
    intros a b _ _. unfold byLength. lia. }
  assert (HN : totalCmp localeCompare -> forall l0,
                 Sorted (fun a b => localeCompare (methodName a) (methodName b) <= 0)
                        (sortBy byName l0)).
  { intros Hloc l0. exact (sortBy_sorted byName l0 (byName_total Hloc)). }
  destruct (bool_decide (classKey ∈ sortByLength st)) eqn:Hb;
    [apply bool_decide_eq_true in Hb | apply bool_decide_eq_false in Hb];
    (destruct (bool_decide (classKey ∈ hideCommonMethods st)) eqn:Hh;
     [apply bool_decide_eq_true in Hh | apply bool_decide_eq_false in Hh]);
    destruct other as [o|];
    (split; [|split]);
    try (intros; contradiction);
    try (intros _; apply HL);
    try (intros _ _ o' Ho; discriminate Ho);
    try (intros Hloc _ _; now apply HN).
  - intros _ _ o' [= <-]. eexists _, _. split; [reflexivity|].
    split; intros m Hm; apply sortBy_In, filter_In in Hm as [_ Hm];
      [exact Hm | now apply negb_true_iff].
  - intros _ _ [Ho | Hc]; [discriminate | contradiction].
Qed.

Lemma getSortedMethods_order_witness :
  let run := getSortedMethods (P := examplePlatform) initialState
               [ctorTsObj] [ctorPythonObj] ctorPythonObj "python" ctorHeap in
  exists l1 l2, snd run !! fst run = Some (l1 ++ l2)
    /\ (forall m, In m l1 -> sharedWith "python" (deref ctorHeap ctorTsObj) m = true)
    /\ (forall m, In m l2 -> sharedWith "python" (deref ctorHeap ctorTsObj) m = false).
Proof.
  destruct (getSortedMethods_order (P := examplePlatform) initialState
              [ctorTsObj] [ctorPythonObj] ctorPythonObj "python" ctorHeap
              ctorHeap_holds_arrays) as (l & Hl & _ & Hgroups & _).
  destruct (Hgroups (fun Hin => not_elem_of_empty _ Hin)
                    (fun Hin => not_elem_of_empty _ Hin)
                    (deref ctorHeap ctorTsObj) eq_refl)
    as (l1 & l2 & -> & H1 & H2).
  exists l1, l2. split; [exact Hl | split; [exact H1 | exact H2]].
Defined.

(** X14.  With hide-shared on and the class present in both SDKs, the
    TypeScript column lists exactly the methods, constructors aside, whose
    comparison status is ["ts-only"].  The Python column lists only methods
    of status ["python-only"], and every such method whose camelCase name is
    not [constructor]. *)
Theorem hide_shared_lists_one_sided_methods `{P : Platform} (st : State)
    (tsData pythonData : list ClassObj) (sdkClass : ClassObj) (h : Heap) (o : Class) :
  (forall c, In c (tsData ++ pythonData) -> methods c ∈ dom h) ->
  let this := deref h sdkClass in
  (otherClassOf "ts" h tsData pythonData (className sdkClass) = Some o ->
   classKeyOf "ts" (className sdkClass) ∈ hideCommonMethods st ->
   let run := getSortedMethods st tsData pythonData sdkClass "ts" h in
   exists l, snd run !! fst run = Some l
     /\ forall m, In m l <->
          In m (methods this) /\ methodName m <> "constructor"
          /\ getMethodComparisonStatus (methodName m) (Some this) (Some o) "ts"
             = "ts-only")
  /\ (otherClassOf "python" h tsData pythonData (className sdkClass) = Some o ->
      classKeyOf "python" (className sdkClass) ∈ hideCommonMethods st ->
      let run := getSortedMethods st tsData pythonData sdkClass "python" h in
      exists l, snd run !! fst run = Some l
        /\ forall m,
             (In m l ->
              In m (methods this)
              /\ getMethodComparisonStatus (methodName m) (Some o) (Some this) "python"
                 = "python-only")
             /\ (In m (methods this) ->
                 getMethodComparisonStatus (methodName m) (Some o) (Some this) "python"
                 = "python-only" ->
                 toCamelCase (methodName m) <> "constructor" -> In m l)).
Proof.
  intros Hwf this. split; intros Ho Hhide run.
  - pose proof (getSortedMethods_result st tsData pythonData sdkClass h Hwf "ts")
      as Hres. cbv zeta in Hres.
    fold (otherClassOf "ts" h tsData pythonData (className sdkClass)) in Hres.
    rewrite Ho in Hres. fold run in Hres.
    change (String.append "ts" (String.append "-" (className sdkClass)))
      with (classKeyOf "ts" (className sdkClass)) in Hres.
    rewrite (bool_decide_eq_true_2 _ Hhide) in Hres.
    assert (Hl : exists l, snd run !! fst run = Some l
                   /\ forall m, In m l <->
                        In m (nonConstructors (methods this))
                        /\ sharedWith "ts" o m = false).
    { destruct (bool_decide _) in Hres; eexists; (split; [exact Hres|]);
        intros m; rewrite sortBy_In, filter_In, negb_true_iff; reflexivity. }
    destruct Hl as (l & Hl & Hin). exists l. split; [exact Hl|].
    intros m. rewrite Hin, nonConstructors_In.
    assert (Hst : In m (methods this) /\ methodName m <> "constructor" ->
              (sharedWith "ts" o m = false <->
               getMethodComparisonStatus (methodName m) (Some this) (Some o) "ts"
               = "ts-only")).
    { intros Hm.
      set (X := includesStr (map toCamelCase (map methodName (methods o)))
                            (methodName m)).
      assert (Hs : sharedWith "ts" o m = X)
        by (subst X; rewrite map_map; reflexivity).
      rewrite Hs. unfold getMethodComparisonStatus.
      change (String.eqb "ts" "python") with false. cbv iota.
      assert (Hts : includesStr (map methodName (nonConstructors (methods this)))
                                 (methodName m) = true)
        by (apply includesStr_In, in_map, nonConstructors_In; exact Hm).
      rewrite Hts. fold X.
      destruct X; simpl; split; intros E; try discriminate E; reflexivity. }
    split; [intros [Hm Hs] | intros (Hm & Hn & Hs)].
    + destruct Hm as [Hm Hn]. repeat split; try assumption.
      now apply Hst.
    + split; [now split|]. now apply Hst.
  - pose proof (getSortedMethods_result st tsData pythonData sdkClass h Hwf "python")
      as Hres. cbv zeta in Hres.
    fold (otherClassOf "python" h tsData pythonData (className sdkClass)) in Hres.
    rewrite Ho in Hres. fold run in Hres.
    change (String.append "python" (String.append "-" (className sdkClass)))
      with (classKeyOf "python" (className sdkClass)) in Hres.
    rewrite (bool_decide_eq_true_2 _ Hhide) in Hres.
    change (String.eqb "python" "ts") with false in Hres. cbv iota in Hres.
    assert (Hl : exists l, snd run !! fst run = Some l
                   /\ forall m, In m l <->
                        In m (methods this) /\ sharedWith "python" o m = false).
    { destruct (bool_decide _) in Hres; eexists; (split; [exact Hres|]);
        intros m; rewrite sortBy_In, filter_In, negb_true_iff; reflexivity. }
    destruct Hl as (l & Hl & Hin). exists l. split; [exact Hl|].
    intros m.
    set (A := includesStr (map methodName (nonConstructors (methods o)))
                          (toCamelCase (methodName m))).
    set (B := includesStr (map toCamelCase (map methodName (methods this)))
                          (toCamelCase (methodName m))).
    assert (HB : In m (methods this) -> B = true).
    { intros Hm. apply includesStr_In. rewrite map_map.
      now apply (in_map (fun x => toCamelCase (methodName x))). }
    assert (HS : sharedWith "python" o m
                 = includesStr (map methodName (methods o))
                               (toCamelCase (methodName m))) by reflexivity.
    assert (HAS : A = true -> sharedWith "python" o m = true).
    { intros HA. rewrite HS. apply includesStr_In.
      apply includesStr_In, in_map_iff in HA as (t & Ht & Hin').
      apply nonConstructors_In in Hin' as [Hin' _].
      apply in_map_iff. now exists t. }
    assert (HSA : sharedWith "python" o m = true ->
                  toCamelCase (methodName m) <> "constructor" -> A = true).
    { rewrite HS. intros Hi Hn.
      apply includesStr_In, in_map_iff in Hi as (t & Ht & Hin').
      apply includesStr_In, in_map_iff. exists t. split; [exact Ht|].
      apply nonConstructors_In. split; [exact Hin'|]. congruence. }
    assert (Hstat : getMethodComparisonStatus (methodName m) (Some o) (Some this)
                      "python"
                    = if A && B then "both"
                      else if A && negb B then "ts-only"
                      else if negb A && B then "python-only" else "missing")
      by reflexivity.
    rewrite Hstat. split.
    + intros Hm. apply Hin in Hm as [Hm Hs]. split; [exact Hm|].
      rewrite (HB Hm). destruct A; [|reflexivity].
      rewrite HAS in Hs by reflexivity. discriminate Hs.
    + intros Hm Hst Hn. apply Hin. split; [exact Hm|].
      rewrite (HB Hm) in Hst.
      destruct (sharedWith "python" o m) eqn:Hs; [|reflexivity].
      rewrite (HSA eq_refl Hn) in Hst. discriminate Hst.
Qed.

Lemma hide_shared_lists_one_sided_methods_witness :
  let run := getSortedMethods (P := examplePlatform) hideSharedState
               [ctorTsObj] [ctorPythonObj] ctorPythonObj "python" ctorHeap in
  exists l, snd run !! fst run = Some l
    /\ forall m,
         (In m l ->
          In m (methods (deref ctorHeap ctorPythonObj))
          /\ getMethodComparisonStatus (methodName m)
               (Some (deref ctorHeap ctorTsObj)) (Some (deref ctorHeap ctorPythonObj))
               "python" = "python-only")
         /\ (In m (methods (deref ctorHeap ctorPythonObj)) ->
             getMethodComparisonStatus (methodName m)
               (Some (deref ctorHeap ctorTsObj)) (Some (deref ctorHeap ctorPythonObj))
               "python" = "python-only" ->
             toCamelCase (methodName m) <> "constructor" -> In m l).
Proof.
  assert (Hk : classKeyOf "python" (className ctorPythonObj)
               ∈ hideCommonMethods hideSharedState).
  { unfold hideSharedState. simpl. apply elem_of_singleton. reflexivity. }
  exact (proj2 (hide_shared_lists_one_sided_methods (P := examplePlatform)
                  hideSharedState [ctorTsObj] [ctorPythonObj] ctorPythonObj ctorHeap
                  (deref ctorHeap ctorTsObj) ctorHeap_holds_arrays) eq_refl Hk).
Defined.

(** ** Leaderboards *)

Lemma StronglySorted_app_inv {A : Type} (R : A -> A -> Prop) (l1 l2 : list A) :
  StronglySorted R (l1 ++ l2) ->
  forall a b, In a l1 -> In b l2 -> R a b.
Proof.
  induction l1 as [|x r IH]; intros Hs a b Ha Hb; [destruct Ha|].
  simpl in Hs. apply StronglySorted_inv in Hs as [Hs Hall].
  destruct Ha as [<- | Ha].
  - rewrite List.Forall_forall in Hall. apply Hall, in_app_iff. now right.
  - now apply IH.
Qed.

Lemma board_dominates {A : Type} (cmp : A -> A -> Z) (R : A -> A -> Prop)
    (l : list A) :
  totalCmp cmp ->
  (forall a b c, R a b -> R b c -> R a c) ->
  (forall a b, In a l -> In b l -> cmp a b <= 0 -> R a b) ->
  exists rest,
    Permutation (jsSlice (sortBy cmp l) 0 15 ++ rest) l
    /\ forall a b, In a (jsSlice (sortBy cmp l) 0 15) -> In b rest -> R a b.
Proof.
  intros Htot Htrans HR. exists (skipn 15 (sortBy cmp l)).
  rewrite jsSlice_0_15, firstn_skipn. split; [apply sortBy_perm|].
  apply StronglySorted_app_inv. rewrite firstn_skipn.
  apply Sorted_StronglySorted; [exact Htrans|].
  eapply Sorted_impl_In; [|apply sortBy_sorted, Htot].
  intros a b Ha Hb. apply sortBy_In in Ha, Hb. now apply HR.
Qed.

Lemma ratioGe_trans (x y z : JsNum) : ratioGe x y -> ratioGe y z -> ratioGe x z.
Proof.
  destruct x, y, z; simpl; try tauto. intros H1 H2. now apply (Qle_trans _ q0).
Qed.

(** X15.  What the longest-methods board leaves out is no longer than what
    it holds: board and remainder together are the candidates, and every
    entry of the remainder is at most as long as every entry of the board.
    Likewise no ratio left out of the Python-exceeds-TypeScript board is
    larger than a ratio on it. *)
Theorem boards_hold_the_largest (tsData pythonData : SDKData) :
  (exists rest,
     Permutation (findLongestMethods tsData pythonData ++ rest)
                 (methodLengths tsData pythonData)
     /\ forall a b, In a (findLongestMethods tsData pythonData) -> In b rest ->
                    le_length b <= le_length a)
  /\ (exists rest,
        Permutation (findSizeRatioMethods tsData pythonData ++ rest)
                    (methodRatios tsData pythonData)
        /\ forall a b, In a (findSizeRatioMethods tsData pythonData) -> In b rest ->
                       ratioGe (ratio a) (ratio b)).
Proof.
  split.
  - apply (board_dominates (fun a b => le_length b - le_length a)
             (fun a b => le_length b <= le_length a)).
    + apply byLengthEntry_total.
    + intros a b c. lia.
    + intros a b _ _. lia.
  - apply (board_dominates byRatio (fun a b => ratioGe (ratio a) (ratio b))).
    + apply byRatio_total.
    + intros a b c. apply ratioGe_trans.
    + intros a b Ha Hb. apply byRatio_ratioGe.
      * apply methodRatios_In in Ha as (cls & m & c & t & _ & _ & _ & Hlt & ->).
        simpl. now apply jsDiv_not_NaN.
      * apply methodRatios_In in Hb as (cls & m & c & t & _ & _ & _ & Hlt & ->).
        simpl. now apply jsDiv_not_NaN.
Qed.

Lemma jsDiv_cases (p t : Z) :
  t < p ->
  (0 < t -> exists q, jsDiv p t = Fin q /\ (1 < q)%Q)
  /\ (t = 0 -> jsDiv p t = PosInf)
  /\ (t < 0 -> exists q, jsDiv p t = Fin q /\ (q < 1)%Q).
Proof.
  intros Hlt. unfold jsDiv. repeat split.
  - intros Ht. destruct (t =? 0) eqn:E; [apply Z.eqb_eq in E; lia|].
    eexists. split; [reflexivity|].
    destruct t as [|t'|t']; try lia.
    unfold Qlt, Qdiv, Qmult, Qinv, inject_Z. simpl. lia.
  - intros ->. simpl. destruct (0 <? p) eqn:E; [reflexivity|].
    apply Z.ltb_ge in E. lia.
  - intros Ht. destruct (t =? 0) eqn:E; [apply Z.eqb_eq in E; lia|].
    eexists. split; [reflexivity|].
    destruct t as [|t'|t']; try lia.
    unfold Qlt, Qdiv, Qmult, Qinv, inject_Z. simpl. lia.
Qed.

(** X16.  An entry of the Python-exceeds-TypeScript board whose TypeScript
    length is positive has a finite ratio greater than 1; a TypeScript
    length of 0 gives the ratio [Infinity]; a negative TypeScript length
    (an end line before the start line) gives a finite ratio below 1.  The
    same holds for the other board with the roles exchanged. *)
Theorem ratio_of_board_entry (tsData pythonData : SDKData) (e : RatioEntry) :
  (In e (findSizeRatioMethods tsData pythonData) ->
   (0 < tsLength e -> exists q, ratio e = Fin q /\ (1 < q)%Q)
   /\ (tsLength e = 0 -> ratio e = PosInf)
   /\ (tsLength e < 0 -> exists q, ratio e = Fin q /\ (q < 1)%Q))
  /\ (In e (findTsSizeRatioMethods tsData pythonData) ->
      (0 < pythonLength e -> exists q, ratio e = Fin q /\ (1 < q)%Q)
      /\ (pythonLength e = 0 -> ratio e = PosInf)
      /\ (pythonLength e < 0 -> exists q, ratio e = Fin q /\ (q < 1)%Q)).
Proof.
  split; intros He; apply ratio_board_In in He.
  - apply methodRatios_In in He as (cls & m & c & t & _ & _ & _ & Hlt & ->).
    simpl. now apply jsDiv_cases.
  - apply tsMethodRatios_In in He as (cls & t & c & m & _ & _ & _ & _ & Hlt & ->).
    simpl. now apply jsDiv_cases.
Qed.

Lemma ratio_of_board_entry_witness :
  exists q, ratio (mkRatioEntry "compute_x" "Calc" 46 3 (Fin (46 # 3))) = Fin q
            /\ (1 < q)%Q.
Proof.
  apply (proj1 (ratio_of_board_entry computeTs computePython
                  (mkRatioEntry "compute_x" "Calc" 46 3 (Fin (46 # 3))))).
  - now left.
  - reflexivity.
Defined.




(** With a dot in a class name the key of one class can be the key of
    another: the method [c] of the class [A.b] and the method [b.c] of the
    class [A] share the key [A.b.c]. *)
Example ratio_key_collision :
  ratioKey (class "A.b" []) (method "c" 1 2) = ratioKey (class "A" []) (method "b.c" 1 9).
Proof. reflexivity. Qed.

(** ** Snippets *)

Lemma splitLines_nonempty (s : string) : splitLines s <> [].
Proof.
  induction s as [|c r IH]; simpl; [discriminate|].
  destruct (Ascii.eqb c "010"%char); [discriminate|].
  destruct (splitLines r); discriminate.
Qed.

Lemma join_cons2 (sep x y : string) (r : list string) :
  Str.join sep (x :: y :: r)
  = String.append x (String.append sep (Str.join sep (y :: r))).
Proof. reflexivity. Qed.

Lemma join_splitLines (s : string) : Str.join newline (splitLines s) = s.
Proof.
  induction s as [|c r IH]; [reflexivity|]. simpl splitLines.
  destruct (Ascii.eqb c "010"%char) eqn:Hc.
  - apply Ascii.eqb_eq in Hc. subst c.
    destruct (splitLines r) as [|x xs] eqn:Hr; [now apply splitLines_nonempty in Hr|].
    rewrite join_cons2, IH. reflexivity.
  - destruct (splitLines r) as [|x xs] eqn:Hr; [now apply splitLines_nonempty in Hr|].
    destruct xs as [|y ys].
    + simpl in *. now rewrite IH.
    + rewrite join_cons2, append_cons. rewrite join_cons2 in IH. now rewrite IH.
Qed.

Lemma splitLines_noNewline (s : string) :
  Forall (fun l => noNewline l = true) (splitLines s).
Proof.
  induction s as [|c r IH]; simpl.
  - repeat constructor.
  - destruct (Ascii.eqb c "010"%char) eqn:Hc.
    + constructor; [reflexivity | exact IH].
    + destruct (splitLines r) as [|x xs]; [repeat constructor|].
      * unfold noNewline, Str.chars. simpl. now rewrite Hc.
      * apply Forall_cons in IH as [Hx Hxs]. constructor; [|exact Hxs].
        unfold noNewline, Str.chars in *. simpl. now rewrite Hc.
Qed.

Lemma splitLines_noNewline_line (x : string) :
  noNewline x = true -> splitLines x = [x].
Proof.
  unfold noNewline, Str.chars.
  induction x as [|c r IH]; [reflexivity|]. simpl.
  intros Hn. apply negb_true_iff, orb_false_iff in Hn as [Hc Hr].
  rewrite Hc, IH; [reflexivity | now apply negb_true_iff].
Qed.

Lemma splitLines_append_line (x rest : string) :
  noNewline x = true ->
  splitLines (String.append x (String.append newline rest)) = x :: splitLines rest.
Proof.
  unfold noNewline, Str.chars.
  induction x as [|c r IH]; intros Hn.
  - reflexivity.
  - simpl in Hn. apply negb_true_iff, orb_false_iff in Hn as [Hc Hr].
    rewrite append_cons. simpl splitLines. rewrite Hc, IH; [reflexivity|].
    now apply negb_true_iff.
Qed.

Lemma splitLines_join (lines : list string) :
  lines <> [] -> Forall (fun l => noNewline l = true) lines ->
  splitLines (Str.join newline lines) = lines.
Proof.
  induction lines as [|x r IH]; [congruence|]. intros _ Hall.
  apply Forall_cons in Hall as [Hx Hr].
  destruct r as [|y r'].
  - simpl. now apply splitLines_noNewline_line.
  - rewrite join_cons2, splitLines_append_line by exact Hx.
    f_equal. apply IH; [discriminate | exact Hr].
Qed.

(** X18.  Splitting a text into lines and joining the lines with line
    breaks gives the text back; the split never yields an empty array and no
    line it yields contains a line break; and lines without line breaks,
    joined and split again, are the same lines. *)
Theorem split_join_round_trip (s : string) (lines : list string) :
  Str.join newline (splitLines s) = s
  /\ splitLines s <> []
  /\ Forall (fun l => noNewline l = true) (splitLines s)
  /\ (lines <> [] -> Forall (fun l => noNewline l = true) lines ->
      splitLines (Str.join newline lines) = lines).
Proof.
  split; [apply join_splitLines|]. split; [apply splitLines_nonempty|].
  split; [apply splitLines_noNewline | apply splitLines_join].
Qed.

Lemma split_join_round_trip_witness :
  splitLines (Str.join newline ["def f():"; "  return 1"; ""])
  = ["def f():"; "  return 1"; ""].
Proof.
  apply (proj2 (proj2 (proj2 (split_join_round_trip ""
                 ["def f():"; "  return 1"; ""])))).
  - discriminate.
  - repeat constructor.
Defined.

Lemma jsSlice_nonneg {A : Type} (l : list A) (i j : Z) :
  0 <= i -> 0 <= j ->
  jsSlice l i j
  = firstn (Z.to_nat (Z.min j (Z.of_nat (length l)) - Z.min i (Z.of_nat (length l))))
           (skipn (Z.to_nat (Z.min i (Z.of_nat (length l)))) l).
Proof.
  intros Hi Hj. unfold jsSlice, sliceIndex.
  destruct (i <? 0) eqn:Ei; [apply Z.ltb_lt in Ei; lia|].
  destruct (j <? 0) eqn:Ej; [apply Z.ltb_lt in Ej; lia|]. reflexivity.
Qed.

Lemma firstn_add_split {A : Type} (a b : nat) (l : list A) :
  firstn (a + b) l = firstn a l ++ firstn b (skipn a l).
Proof.
  revert l. induction a as [|a IH]; intros l; [reflexivity|].
  destruct l as [|x r]; simpl; [now rewrite firstn_nil | now rewrite IH].
Qed.

(** A slice splits at every index in between. *)
Lemma jsSlice_split {A : Type} (l : list A) (i j k : Z) :
  0 <= i -> i <= j -> j <= k -> k <= Z.of_nat (length l) ->
  jsSlice l i k = jsSlice l i j ++ jsSlice l j k.
Proof.
  intros Hi Hij Hjk Hk. rewrite !jsSlice_nonneg by lia.
  rewrite !Z.min_l by lia.
  replace (Z.to_nat (k - i)) with (Z.to_nat (j - i) + Z.to_nat (k - j))%nat by lia.
  rewrite firstn_add_split. f_equal. rewrite skipn_skipn. do 2 f_equal. lia.
Qed.

Lemma jsSlice_length {A : Type} (l : list A) (i j : Z) :
  0 <= i -> i <= j -> j <= Z.of_nat (length l) ->
  Z.of_nat (length (jsSlice l i j)) = j - i.
Proof.
  intros Hi Hij Hj. rewrite jsSlice_nonneg by lia.
  rewrite !Z.min_l by lia. rewrite length_firstn, length_skipn. lia.
Qed.

(** X19.  The window [fetchCodeSnippet] cuts out, for an end line that is
    not negative: the lines from [startLine] to [endLine], both 1-based and
    inclusive, when they lie in the file; an end line behind the end of the
    file is cut back to the last line, a start line before the first line to
    the first; and the window is empty when the start line lies behind the
    end line or behind the end of the file. *)
Theorem snippet_window (full : string) (startLn endLn : Z) :
  0 <= endLn ->
  let lines := splitLines full in
  let len := Z.of_nat (length lines) in
  (1 <= startLn -> startLn <= endLn -> endLn <= len ->
   snippetLinesOf full startLn endLn
   = firstn (Z.to_nat (endLn - startLn + 1)) (skipn (Z.to_nat (startLn - 1)) lines)
   /\ Z.of_nat (length (snippetLinesOf full startLn endLn)) = endLn - startLn + 1)
  /\ (len <= endLn ->
      snippetLinesOf full startLn endLn = skipn (Z.to_nat (startLn - 1)) lines)
  /\ (endLn < startLn -> snippetLinesOf full startLn endLn = [])
  /\ (len < startLn -> snippetLinesOf full startLn endLn = []).
Proof.
  intros He lines len. unfold snippetLinesOf. fold lines. fold len.
  rewrite jsSlice_nonneg by lia. fold len.
  replace (Z.min (Z.min len endLn) len) with (Z.min len endLn) by lia.
  repeat split.
  - rewrite Z.max_r, (Z.min_r len endLn), Z.min_l by lia. do 2 f_equal; lia.
  - rewrite Z.max_r, (Z.min_r len endLn), Z.min_l by lia.
    rewrite length_firstn, length_skipn. fold lines. fold len. lia.
  - intros Hlen. rewrite (Z.min_l len endLn) by lia.
    destruct (Z.le_gt_cases (startLn - 1) len) as [Hs | Hs].
    + rewrite Z.min_l by lia.
      replace (Z.to_nat (Z.max 0 (startLn - 1))) with (Z.to_nat (startLn - 1)) by lia.
      apply firstn_all2. rewrite length_skipn. fold lines. fold len. lia.
    + rewrite Z.min_r by lia. rewrite Z.sub_diag. simpl firstn.
      symmetry. apply skipn_all2. fold lines. fold len. lia.
  - intros Hlt. replace (Z.to_nat _) with 0%nat by lia. reflexivity.
  - intros Hlt. replace (Z.to_nat _) with 0%nat by lia. reflexivity.
Qed.

Lemma snippet_window_witness :
  snippetLinesOf "a
b
c
d" 2 3 = ["b"; "c"]
  /\ snippetLinesOf "a
b
c
d" 3 9 = ["c"; "d"].
Proof.
  split.
  - rewrite (proj1 (proj1 (snippet_window "a
b
c
d" 2 3 ltac:(lia)) ltac:(lia) ltac:(lia) ltac:(simpl; lia))).
    reflexivity.
  - rewrite (proj1 (proj2 (snippet_window "a
b
c
d" 3 9 ltac:(lia))) ltac:(simpl; lia)).
    reflexivity.
Defined.

(** The cache after a fetch that succeeds. *)
Lemma fetch_success_state `{P : Platform}
    (remote : string -> FetchResult) (others1 others2 : State -> State)
    (enhanced : bool) (filePath sdkName key : string) (startLn endLn : Z)
    (status : Z) (data full : string) (s : State) :
  remote (snippetUrl filePath sdkName) = Response true status (Some data) ->
  atob data = Some full ->
  codeSnippets (snd (fetchCodeSnippet remote others1 others2 enhanced
                       filePath startLn endLn sdkName key s))
  = <[key := mkSnippet (Str.join newline (snippetLinesOf full startLn endLn))
                       (getCleanFilePath filePath sdkName) startLn
                       (if String.eqb sdkName "ts" then "typescript" else "python")
                       (if enhanced then Some full else None)
                       (if enhanced then Some (Z.max 0 (startLn - 1) + 1) else None)
                       (if enhanced
                        then Some (Z.min (Z.of_nat (length (splitLines full))) endLn)
                        else None)]>
      (codeSnippets
         (others2 (others1 (snd (setLoadingSnippets (fun prev => prev ∪ {[key]}) s))))).
Proof.
  intros Hremote Hatob. unfold snippetUrl in Hremote.
  unfold fetchCodeSnippet, tryCatchFinally, effBind, setLoadingSnippets,
    await, throw, effRet, setCodeSnippets, consoleError, fromOption.
  simpl. rewrite Hremote. simpl. rewrite Hatob. reflexivity.
Qed.

(** X21.  What [getExpandedSnippetContent] shows.  Without a cache entry it
    shows the empty text; for an entry without the whole file, or when the
    snippet is not expanded, the stored content.  For an expanded snippet
    that holds the whole file and the bounds [a] and [b] of its window, with
    [1 <= a <= b] and [b] within the file, it shows the lines of the window
    between up to five lines before it and up to five lines after it: fewer
    only where the file begins or ends. *)
Theorem expanded_view_window (snippets : gmap string Snippet)
    (expandedSnippets : gset string) (key : string) :
  (snippets !! key = None ->
   getExpandedSnippetContent snippets expandedSnippets key = "")
  /\ (forall snip, snippets !! key = Some snip ->
        fullContent snip = None \/ fullContent snip = Some ""
        \/ key ∉ expandedSnippets ->
        getExpandedSnippetContent snippets expandedSnippets key = content snip)
  /\ (forall snip full a b,
        snippets !! key = Some snip ->
        fullContent snip = Some full -> full <> "" ->
        snippetStartLine snip = Some a -> snippetEndLine snip = Some b ->
        key ∈ expandedSnippets ->
        let lines := splitLines full in
        let len := Z.of_nat (length lines) in
        1 <= a -> a <= b -> b <= len ->
        let pre := jsSlice lines (Z.max 0 (a - 6)) (a - 1) in
        let post := jsSlice lines b (Z.min len (b + 5)) in
        getExpandedSnippetContent snippets expandedSnippets key
        = Str.join newline (pre ++ snippetLinesOf full a b ++ post)
        /\ Z.of_nat (length pre) = Z.min 5 (a - 1)
        /\ Z.of_nat (length post) = Z.min 5 (len - b)).
Proof.
  unfold getExpandedSnippetContent. split; [|split].
  - intros ->. reflexivity.
  - intros snip -> [Hf | [Hf | Hk]].
    + now rewrite Hf.
    + now rewrite Hf.
    + destruct (fullContent snip) as [full|]; [|reflexivity].
      destruct (isEmptyString full); [reflexivity|].
      now rewrite bool_decide_eq_false_2.
  - intros snip full a b -> Hfull Hne Ha Hb Hk.
    set (lines := splitLines full). set (len := Z.of_nat (length lines)).
    intros H1 Hab Hlen.
    set (pre := jsSlice lines (Z.max 0 (a - 6)) (a - 1)).
    set (post := jsSlice lines b (Z.min len (b + 5))).
    rewrite Hfull. destruct full as [|c r]; [contradiction|].
    cbn [isEmptyString]. rewrite bool_decide_eq_true_2 by exact Hk.
    unfold expandedLines. rewrite Ha, Hb. unfold orElse.
    destruct (a =? 0) eqn:Ea; [apply Z.eqb_eq in Ea; lia|].
    destruct (b =? 0) eqn:Eb; [apply Z.eqb_eq in Eb; lia|].
    fold lines. fold len. split; [f_equal|split].
    + rewrite (jsSlice_split lines (Z.max 0 (a - 6)) (a - 1) (Z.min len (b + 5)))
        by (fold len; lia).
      rewrite (jsSlice_split lines (a - 1) b (Z.min len (b + 5))) by (fold len; lia).
      unfold pre, post, snippetLinesOf. fold lines. fold len.
      rewrite (Z.max_r 0 (a - 1)), (Z.min_r len b) by lia. reflexivity.
    + unfold pre. rewrite jsSlice_length by (fold len; lia). lia.
    + unfold post. rewrite jsSlice_length by (fold len; lia). lia.
Qed.

Lemma expanded_view_window_witness :
  getExpandedSnippetContent
    {[ "k" := mkSnippet "c" "f.ts" 3 "typescript" (Some "a
b
c
d") (Some 3) (Some 3) ]} {[ "k" ]} "k"
  = Str.join newline (["a"; "b"] ++ ["c"] ++ ["d"]).
Proof.
  refine (proj1 (proj2 (proj2 (expanded_view_window _ _ _))
                   (mkSnippet "c" "f.ts" 3 "typescript" (Some "a
b
c
d") (Some 3) (Some 3)) "a
b
c
d" 3 3 _ eq_refl _ eq_refl eq_refl _ _ _ _)).
  - apply lookup_singleton_eq.
  - discriminate.
  - apply elem_of_singleton. reflexivity.
  - lia.
  - lia.
  - simpl. lia.
Defined.

(** ** Toggles *)

Lemma toggle_flips_one_key (k : string) (prev : gset string) :
  let next := if bool_decide (k ∈ prev) then prev ∖ {[k]} else prev ∪ {[k]} in
  (k ∈ next <-> k ∉ prev)
  /\ (forall k', k' <> k -> k' ∈ next <-> k' ∈ prev)
  /\ (if bool_decide (k ∈ next) then next ∖ {[k]} else next ∪ {[k]}) = prev.
Proof.
  intros next. subst next.
  destruct (decide (k ∈ prev)) as [Hin | Hnot].
  - rewrite (bool_decide_eq_true_2 _ Hin).
    assert (Hk : k ∉ prev ∖ {[k]}).
    { rewrite elem_of_difference, elem_of_singleton. intros [_ Hne]. now apply Hne. }
    rewrite (bool_decide_eq_false_2 _ Hk).
    split; [split; intros H; contradiction|].
    split.
    + intros k' Hne. rewrite elem_of_difference, elem_of_singleton. tauto.
    + apply set_eq. intros x.
      rewrite elem_of_union, elem_of_difference, elem_of_singleton.
      destruct (decide (x = k)) as [-> | Hx]; tauto.
  - rewrite (bool_decide_eq_false_2 _ Hnot).
    assert (Hk : k ∈ prev ∪ {[k]}).
    { rewrite elem_of_union, elem_of_singleton. now right. }
    rewrite (bool_decide_eq_true_2 _ Hk).
    split; [tauto|]. split.
    + intros k' Hne. rewrite elem_of_union, elem_of_singleton. tauto.
    + apply set_eq. intros x.
      rewrite elem_of_difference, elem_of_union, elem_of_singleton.
      destruct (decide (x = k)) as [-> | Hx]; tauto.
Qed.

(** X22.  Each of the four toggles of the component ([toggleClass],
    [toggleSnippetExpansion], [toggleHideCommonMethods] and
    [toggleSortByLength]) flips the membership of its key and of no other
    key, so that toggling the same key twice gives the set back. *)
Theorem toggles_flip_one_key (k : string) (prev : gset string) :
  Forall (fun toggle : string -> gset string -> gset string =>
            (k ∈ toggle k prev <-> k ∉ prev)
            /\ (forall k', k' <> k -> k' ∈ toggle k prev <-> k' ∈ prev)
            /\ toggle k (toggle k prev) = prev)
         [toggleClass; toggleSnippetExpansion; toggleHideCommonMethods;
          toggleSortByLength].
Proof.
  pose proof (toggle_flips_one_key k prev) as Hflip.
  repeat (constructor; [exact Hflip|]). constructor.
Qed.

(** ** Opening and closing snippets *)

Lemma find_Some_In {A : Type} (p : A -> bool) (l : list A) (x : A) :
  List.find p l = Some x -> In x l /\ p x = true.
Proof. apply find_some. Qed.

(** X23.  The corresponding method [toggleCodeSnippet] looks up on the other
    side.  From a TypeScript method it is a method of the Python class of
    the same name whose camelCase name is the camelCase form of the method's
    name, and there is one whenever a Python method of the class qualifies.
    From a Python method it is a method of the TypeScript class that carries
    the very same name, and there is one exactly when the class has a method
    of that name: the name is not converted, and a constructor counts. *)
Theorem counterpart_lookup (tsData pythonData : SDKData) (clsName name : string) :
  (forall c m,
     findOtherMethod tsData pythonData "ts" clsName name = Some (c, m) ->
     classesMap pythonData !! clsName = Some c
     /\ In m (methods c)
     /\ toCamelCase (methodName m) = toCamelCase name)
  /\ (forall c m,
        classesMap pythonData !! clsName = Some c -> In m (methods c) ->
        toCamelCase (methodName m) = toCamelCase name ->
        is_Some (findOtherMethod tsData pythonData "ts" clsName name))
  /\ (forall c m,
        findOtherMethod tsData pythonData "python" clsName name = Some (c, m) ->
        classesMap tsData !! clsName = Some c
        /\ In m (methods c)
        /\ methodName m = name)
  /\ (forall c m,
        classesMap tsData !! clsName = Some c -> In m (methods c) ->
        methodName m = name ->
        is_Some (findOtherMethod tsData pythonData "python" clsName name))
  /\ (forall c,
        classesMap tsData !! clsName = Some c ->
        (forall m, In m (methods c) -> methodName m <> name) ->
        findOtherMethod tsData pythonData "python" clsName name = None).
Proof.
  unfold findOtherMethod, otherSide.
  repeat (progress (change (String.eqb "ts" "ts") with true;
                    change (String.eqb "python" "ts") with false;
                    change (String.eqb "python" "python") with true;
                    change (String.eqb "ts" "python") with false;
                    cbv iota beta zeta)).
  split; [|split; [|split; [|split]]].
  - intros c m Hfind.
    destruct (classesMap pythonData !! clsName) as [oc|]; [|discriminate].
    destruct (List.find _ (methods oc)) as [om|] eqn:Ef; [|discriminate].
    injection Hfind as -> ->. apply find_Some_In in Ef as [Hin Heq].
    apply String.eqb_eq in Heq. auto.
  - intros c m -> Hin Heq.
    destruct (List.find _ (methods c)) as [om|] eqn:Ef; [eexists; reflexivity|].
    exfalso. apply (find_none _ _ Ef) in Hin. rewrite Heq, String.eqb_refl in Hin.
    discriminate.
  - intros c m Hfind.
    destruct (classesMap tsData !! clsName) as [oc|]; [|discriminate].
    destruct (List.find _ (methods oc)) as [om|] eqn:Ef; [|discriminate].
    injection Hfind as -> ->. apply find_Some_In in Ef as [Hin Heq].
    apply String.eqb_eq in Heq. auto.
  - intros c m -> Hin Heq.
    destruct (List.find _ (methods c)) as [om|] eqn:Ef; [eexists; reflexivity|].
    exfalso. apply (find_none _ _ Ef) in Hin. rewrite Heq, String.eqb_refl in Hin.
    discriminate.
  - intros c -> Hno.
    destruct (List.find _ (methods c)) as [om|] eqn:Ef; [|reflexivity].
    apply find_Some_In in Ef as [Hin Heq]. apply String.eqb_eq in Heq.
    now apply Hno in Hin.
Qed.

(** The Python method [get_price] of [Foo] is marked ["both"], and opening
    the TypeScript method [getPrice] opens it; opening [get_price] itself
    opens no TypeScript method. *)
Lemma counterpart_lookup_witness :
  is_Some (findOtherMethod (mkSDKData [fooTs]) (mkSDKData [fooPython])
             "ts" "Foo" "getPrice")
  /\ findOtherMethod (mkSDKData [fooTs]) (mkSDKData [fooPython])
       "python" "Foo" "get_price" = None.
Proof.
  split.
  - apply (proj1 (proj2 (counterpart_lookup (mkSDKData [fooTs]) (mkSDKData [fooPython])
                           "Foo" "getPrice")) fooPython (method "get_price" 5 50)).
    + reflexivity.
    + now left.
    + reflexivity.
  - apply (proj2 (proj2 (proj2 (proj2 (counterpart_lookup (mkSDKData [fooTs])
                           (mkSDKData [fooPython]) "Foo" "get_price")))) fooTs).
    + reflexivity.
    + intros m [<- | [<- | []]]; discriminate.
Defined.

(** X24.  What [toggleCodeSnippet] does.  On a key that is not expanded it
    expands the key and, when the other side has a corresponding method, that
    method's key; it asks for at most two fetches, each for a key that it has
    just expanded and that the cache does not hold, and the one for the key
    itself exactly when the cache does not hold the key.  On an expanded key
    it fetches nothing and collapses the key and the corresponding method's
    key.  Without a corresponding method it does what the simple variant
    does. *)
Theorem toggleCodeSnippet_effect
    (expandedCodeSnippets : gset string) (snippets : gmap string Snippet)
    (tsData pythonData : SDKData)
    (key filePath : string) (startLn endLn : Z) (sdkName clsName name : string) :
  let r := toggleCodeSnippet expandedCodeSnippets snippets tsData pythonData
                             key filePath startLn endLn sdkName clsName name in
  (key ∉ expandedCodeSnippets ->
     (length (snd r) <= 2)%nat
     /\ (forall c, In c (snd r) ->
           fc_key c ∈ fst r /\ (fc_key c ∉ expandedCodeSnippets)
           /\ snippets !! fc_key c = None)
     /\ (In (mkFetchCall filePath startLn endLn sdkName key) (snd r)
         <-> snippets !! key = None))
  /\ (key ∈ expandedCodeSnippets -> snd r = [])
  /\ match findOtherMethod tsData pythonData sdkName clsName name with
     | Some (otherCls, otherMethod) =>
         let otherKey := snippetKey (otherSide sdkName) clsName (methodName otherMethod) in
         fst r = if bool_decide (key ∈ expandedCodeSnippets)
                 then (expandedCodeSnippets ∖ {[key]}) ∖ {[otherKey]}
                 else expandedCodeSnippets ∪ {[key]} ∪ {[otherKey]}
     | None =>
         r = toggleCodeSnippetSimple expandedCodeSnippets snippets
                                     key filePath startLn endLn sdkName
     end.
Proof.
  intros r. subst r. unfold toggleCodeSnippet, toggleCodeSnippetSimple, push.
  destruct (decide (key ∈ expandedCodeSnippets)) as [Hin | Hnot].
  - rewrite (bool_decide_eq_true_2 _ Hin). cbn [negb].
    split; [intros Hn; contradiction|].
    destruct (findOtherMethod _ _ _ _ _) as [[oc om]|]; cbn [fst snd]; auto.
  - rewrite (bool_decide_eq_false_2 _ Hnot). cbn [negb].
    assert (Hkey : key ∈ expandedCodeSnippets ∪ {[key]}).
    { rewrite elem_of_union, elem_of_singleton. now right. }
    assert (Hnone : forall k, ~ is_Some (snippets !! k) -> snippets !! k = None).
    { intros k Hk. destruct (snippets !! k); [exfalso; apply Hk; eauto | reflexivity]. }
    split; [intros _ | split; [intros Hc; contradiction|]].
    + destruct (findOtherMethod _ _ _ _ _) as [[oc om]|].
      * set (otherKey := snippetKey (otherSide sdkName) clsName (methodName om)).
        destruct (decide (otherKey ∈ expandedCodeSnippets ∪ {[key]})) as [Ho | Ho].
        -- rewrite (bool_decide_eq_true_2 _ Ho). cbn [negb fst snd].
           destruct (decide (is_Some (snippets !! key))) as [Hs | Hs].
           ++ rewrite (bool_decide_eq_true_2 _ Hs). cbn [negb].
              split; [simpl; lia|]. split; [intros c []|].
              split; [intros [] | intros Hn; rewrite Hn in Hs; now destruct Hs].
           ++ rewrite (bool_decide_eq_false_2 _ Hs). cbn [negb].
              split; [simpl; lia|]. split.
              ** intros c [<- | []]. cbn [fc_key]. auto.
              ** split; [auto | intros _; now left].
        -- rewrite (bool_decide_eq_false_2 _ Ho). cbn [negb fst snd].
           assert (Hok : (otherKey ∉ expandedCodeSnippets) /\ otherKey <> key).
           { split; intros Hx; apply Ho; rewrite elem_of_union, elem_of_singleton; auto. }
           destruct Hok as [Hoe Hne].
           assert (Hkey2 : key ∈ expandedCodeSnippets ∪ {[key]} ∪ {[otherKey]}).
           { rewrite elem_of_union. now left. }
           assert (Hother : otherKey ∈ expandedCodeSnippets ∪ {[key]} ∪ {[otherKey]}).
           { rewrite elem_of_union, (elem_of_singleton otherKey). now right. }
           destruct (decide (is_Some (snippets !! key))) as [Hs | Hs];
             [rewrite (bool_decide_eq_true_2 _ Hs)
             | rewrite (bool_decide_eq_false_2 _ Hs)];
             (destruct (decide (is_Some (snippets !! otherKey))) as [Hso | Hso];
              [rewrite (bool_decide_eq_true_2 _ Hso)
              | rewrite (bool_decide_eq_false_2 _ Hso)]); cbn [negb app].
           ++ split; [simpl; lia|]. split; [intros c []|].
              split; [intros [] | intros Hn; rewrite Hn in Hs; now destruct Hs].
           ++ split; [simpl; lia|]. split.
              ** intros c [<- | []]. cbn [fc_key]. auto.
              ** split; [|intros Hn; rewrite Hn in Hs; now destruct Hs].
                 intros [Heq | []]. exfalso. apply Hne.
                 exact (f_equal fc_key Heq).
           ++ split; [simpl; lia|]. split.
              ** intros c [<- | []]. cbn [fc_key]. auto.
              ** split; [auto | intros _; now left].
           ++ split; [simpl; lia|]. split.
              ** intros c [<- | [<- | []]]; cbn [fc_key]; auto.
              ** split; [auto | intros _; now left].
      * cbn [fst snd].
        destruct (decide (is_Some (snippets !! key))) as [Hs | Hs].
        -- rewrite (bool_decide_eq_true_2 _ Hs). cbn [negb].
           split; [simpl; lia|]. split; [intros c []|].
           split; [intros [] | intros Hn; rewrite Hn in Hs; now destruct Hs].
        -- rewrite (bool_decide_eq_false_2 _ Hs). cbn [negb].
           split; [simpl; lia|]. split.
           ++ intros c [<- | []]. cbn [fc_key]. auto.
           ++ split; [auto | intros _; now left].
    + destruct (findOtherMethod _ _ _ _ _) as [[oc om]|]; [|reflexivity].
      cbv zeta.
      set (otherKey := snippetKey (otherSide sdkName) clsName (methodName om)).
      destruct (decide (otherKey ∈ expandedCodeSnippets ∪ {[key]})) as [Ho | Ho].
      * rewrite (bool_decide_eq_true_2 _ Ho). cbn [negb fst].
        apply set_eq. intros x.
        rewrite !elem_of_union, (elem_of_singleton x otherKey).
        split; [tauto|]. intros [Hx | ->]; [tauto|].
        rewrite elem_of_union in Ho. tauto.
      * rewrite (bool_decide_eq_false_2 _ Ho). reflexivity.
Qed.

(** Opening [getPrice] of the TypeScript class [Foo] with an empty cache
    asks for two fetches. *)
Lemma toggleCodeSnippet_effect_witness :
  (length (snd (toggleCodeSnippet ∅ ∅ (mkSDKData [fooTs]) (mkSDKData [fooPython])
                  "ts-Foo-getPrice" "protocol-v2/sdk/src/Foo.src" 10 12
                  "ts" "Foo" "getPrice")) <= 2)%nat.
Proof.
  apply (proj1 (toggleCodeSnippet_effect ∅ ∅ (mkSDKData [fooTs]) (mkSDKData [fooPython])
                  "ts-Foo-getPrice" "protocol-v2/sdk/src/Foo.src" 10 12
                  "ts" "Foo" "getPrice")).
  apply not_elem_of_empty.
Defined.

Example toggleCodeSnippet_opens_both_sides :
  map fc_key (snd (toggleCodeSnippet ∅ ∅ (mkSDKData [fooTs]) (mkSDKData [fooPython])
                     "ts-Foo-getPrice" "protocol-v2/sdk/src/Foo.src" 10 12
                     "ts" "Foo" "getPrice"))
  = ["ts-Foo-getPrice"; "python-Foo-get_price"]
  /\ map fc_key (snd (toggleCodeSnippet ∅ ∅ (mkSDKData [fooTs]) (mkSDKData [fooPython])
                        "python-Foo-get_price" "driftpy/Foo.src" 5 50
                        "python" "Foo" "get_price"))
     = ["python-Foo-get_price"].
Proof. split; reflexivity. Qed.

(** ** From the fetch to the view *)

(** [toggleCodeSnippet] asks only for keys the cache does not hold. *)
Lemma toggleCodeSnippet_calls_uncached
    (expandedCodeSnippets : gset string) (snippets : gmap string Snippet)
    (tsData pythonData : SDKData)
    (key filePath : string) (startLn endLn : Z) (sdkName clsName name : string)
    (c : FetchCall) :
  In c (snd (toggleCodeSnippet expandedCodeSnippets snippets tsData pythonData
               key filePath startLn endLn sdkName clsName name)) ->
  snippets !! fc_key c = None.
Proof.
  unfold toggleCodeSnippet, push. intros Hc.
  destruct (findOtherMethod tsData pythonData sdkName clsName name) as [[oc om]|];
    repeat match type of Hc with
           | context [bool_decide ?Q] =>
               let E := fresh "E" in destruct (bool_decide Q) eqn:E
           end;
    cbn [negb snd app In fst] in Hc;
    repeat match goal with
           | H : _ \/ _ |- _ => destruct H as [H | H]
           | H : False |- _ => destruct H
           | H : _ = c |- _ => subst c; cbn [fc_key]
           | E : bool_decide (is_Some _) = false |- _ =>
               apply bool_decide_eq_false in E; apply eq_None_not_Some in E
           end;
    assumption.
Qed.

(** X20.  From the fetch to the view.  After a fetch that succeeds for the
    lines [startLine] to [endLine], with [1 <= startLine <= endLine] and
    [startLine] within the file, the view of the key shows these lines (up to
    the last line of the file); in the enhanced variant, when the snippet is
    expanded, it shows them between the up to five lines that precede them in
    the file and the up to five lines that follow them.  And toggling the key
    afterwards does not ask for the key again. *)
Theorem fetched_snippet_is_shown `{P : Platform}
    (remote : string -> FetchResult) (others1 others2 : State -> State)
    (filePath sdkName key : string) (startLn endLn : Z)
    (status : Z) (data full : string) (s : State) :
  remote (snippetUrl filePath sdkName) = Response true status (Some data) ->
  atob data = Some full ->
  1 <= startLn -> startLn <= endLn ->
  startLn <= Z.of_nat (length (splitLines full)) ->
  let cache enhanced :=
    codeSnippets (snd (fetchCodeSnippet remote others1 others2 enhanced
                         filePath startLn endLn sdkName key s)) in
  let lines := splitLines full in
  let len := Z.of_nat (length lines) in
  let last := Z.min len endLn in
  let window :=
    firstn (Z.to_nat (last - startLn + 1)) (skipn (Z.to_nat (startLn - 1)) lines) in
  let pre :=
    firstn (Z.to_nat (Z.min 5 (startLn - 1)))
           (skipn (Z.to_nat (Z.max 0 (startLn - 6))) lines) in
  let post := firstn (Z.to_nat (Z.min 5 (len - last))) (skipn (Z.to_nat last) lines) in
  (forall expandedSnippets,
     getExpandedSnippetContent (cache true) expandedSnippets key
     = if bool_decide (key ∈ expandedSnippets)
       then Str.join newline (pre ++ window ++ post)
       else Str.join newline window)
  /\ (forall expandedSnippets,
        getExpandedSnippetContent (cache false) expandedSnippets key
        = Str.join newline window)
  /\ (forall enhanced expanded tsData pythonData filePath' startLn' endLn'
             sdkName' clsName name c,
        In c (snd (toggleCodeSnippet expanded (cache enhanced) tsData pythonData
                     key filePath' startLn' endLn' sdkName' clsName name)) ->
        fc_key c <> key).
Proof.
  intros Hremote Hatob H1 Hse Hlen cache lines len last window pre post.
  assert (Hcache := fun enhanced =>
            fetch_success_state remote others1 others2 enhanced filePath sdkName key
              startLn endLn status data full s Hremote Hatob).
  fold lines in Hlen. fold len in Hlen.
  assert (Hlast : startLn <= last /\ last <= len) by (unfold last; lia).
  assert (Hwin : snippetLinesOf full startLn endLn = window).
  { unfold snippetLinesOf. fold lines. fold len. fold last.
    rewrite jsSlice_nonneg by lia. fold len.
    rewrite (Z.max_r 0 (startLn - 1)), (Z.min_l last len),
      (Z.min_l (startLn - 1) len) by lia.
    unfold window. do 2 f_equal. lia. }
  assert (Hpre : jsSlice lines (Z.max 0 (startLn - 6)) (startLn - 1) = pre).
  { rewrite jsSlice_nonneg by lia. fold len.
    rewrite (Z.min_l (startLn - 1) len), (Z.min_l (Z.max 0 (startLn - 6)) len) by lia.
    unfold pre. do 2 f_equal. lia. }
  assert (Hpost : jsSlice lines last (Z.min len (last + 5)) = post).
  { rewrite jsSlice_nonneg by lia. fold len.
    rewrite (Z.min_l (Z.min len (last + 5)) len), (Z.min_l last len) by lia.
    unfold post. do 2 f_equal. lia. }
  assert (Hmid : jsSlice lines (startLn - 1) last = window).
  { rewrite jsSlice_nonneg by lia. fold len.
    rewrite (Z.min_l last len), (Z.min_l (startLn - 1) len) by lia.
    unfold window. do 2 f_equal. lia. }
  split; [|split].
  - intros expandedSnippets. unfold cache. rewrite Hcache.
    unfold getExpandedSnippetContent. rewrite lookup_insert_eq.
    cbn [fullContent content]. rewrite Hwin.
    destruct (bool_decide (key ∈ expandedSnippets)).
    + destruct (isEmptyString full) eqn:Efull.
      * apply isEmptyString_spec in Efull. subst full.
        assert (Hlen1 : len = 1) by reflexivity.
        assert (Hs : startLn = 1) by lia.
        assert (Hl : last = 1) by lia.
        unfold pre, window, post. rewrite Hl, Hs. reflexivity.
      * unfold expandedLines. cbn [snippetStartLine snippetEndLine].
        fold lines. fold len. fold last. unfold orElse.
        rewrite (Z.max_r 0 (startLn - 1)) by lia.
        destruct (startLn - 1 + 1 =? 0) eqn:Ea; [apply Z.eqb_eq in Ea; lia|].
        destruct (last =? 0) eqn:Eb; [apply Z.eqb_eq in Eb; lia|].
        replace (startLn - 1 + 1 - 6) with (startLn - 6) by lia.
        rewrite (jsSlice_split lines (Z.max 0 (startLn - 6)) (startLn - 1)
                   (Z.min len (last + 5))) by (fold len; lia).
        rewrite (jsSlice_split lines (startLn - 1) last (Z.min len (last + 5)))
          by (fold len; lia).
        now rewrite Hpre, Hmid, Hpost.
    + now destruct (isEmptyString full).
  - intros expandedSnippets. unfold cache. rewrite Hcache.
    unfold getExpandedSnippetContent. rewrite lookup_insert_eq.
    cbn [fullContent content]. now rewrite Hwin.
  - intros enhanced expanded tsData pythonData filePath' startLn' endLn'
           sdkName' clsName name c Hc Hkey.
    apply toggleCodeSnippet_calls_uncached in Hc.
    unfold cache in Hc. rewrite Hcache, Hkey, lookup_insert_eq in Hc. discriminate.
Qed.

(** The file holds the lines [a], [b], [c] and an empty last line; the
    fetch asks for the lines 2 to 3, and the expanded view adds the line
    before and the line after. *)
Lemma fetched_snippet_is_shown_witness :
  getExpandedSnippetContent
    (codeSnippets
       (snd (fetchCodeSnippet (P := examplePlatform)
               (fun _ => Response true 200 (Some "YQpiCmMK")) (fun s => s) (fun s => s)
               true "protocol-v2/sdk/src/foo.ts" 2 3 "ts" "ts-Foo-bar" initialState)))
    {[ "ts-Foo-bar" ]} "ts-Foo-bar"
  = Str.join newline (["a"] ++ ["b"; "c"] ++ [""]).
Proof.
  rewrite (proj1 (fetched_snippet_is_shown (P := examplePlatform)
             (fun _ => Response true 200 (Some "YQpiCmMK")) (fun s => s) (fun s => s)
             "protocol-v2/sdk/src/foo.ts" "ts" "ts-Foo-bar" 2 3 200 "YQpiCmMK" "a
b
c
" initialState eq_refl eq_refl ltac:(lia) ltac:(lia) ltac:(simpl; lia))
             {[ "ts-Foo-bar" ]}).
  reflexivity.
Defined.
